(** * LexicalGem: the word services and the command dispatch, embedded in Rocq

    The development follows the JavaScript sources of the bot:
    - [src/utils/Constants.js]   -> Module [Constants]
    - [src/utils/Validator.js]   -> Module [Validator]
    - [src/services/WordService.js] -> Module [WordService]
    - [src/services/UserService.js] -> Module [UserService]
    - [src/bot/CommandHandler.js], [src/bot/BotManager.js] -> Module [Bot]

    Objects whose fields are mutated in place become records that are passed
    and returned explicitly; a JavaScript [Set] is a [gset], the [Map] of user
    profiles a [gmap].  A text is the byte string of its UTF-8 encoding;
    [trim], [parseInt] and [length] read it by code points and UTF-16 code
    units as JavaScript does.  An asynchronous method is split at its
    [await]: the part before and the part after each run in one piece, and
    other calls can run in between. *)

From Stdlib Require Import ZArith String Ascii List Lia.
From Stdlib Require Import Floats Uint63.
From stdpp Require Import base option list gmap sets strings pretty.

#[local] Set Warnings "-register-all,-clear-no-such-hyp".

Local Open Scope string_scope.
Local Open Scope list_scope.
Local Open Scope Z_scope.

(* ================================================================== *)
(** ** JavaScript values used by the services *)
(* ================================================================== *)

Module JS.

(** [Math.random()] returns a number [r] with [0 <= r < 1].  It is modelled
    as a fraction [rnum / rden] with [rnum < rden]. *)
Record random : Type := mkRandom {
  rnum : nat;
  rden : nat;
  rrange : (rnum < rden)%nat
}.

(** [Math.floor(Math.random() * n)] for an array length [n]. *)
Definition floor_mul (r : random) (n : nat) : nat :=
  (rnum r * n / rden r)%nat.

(** What a call produces: a value, or a thrown exception. *)
Inductive error : Type :=
| TypeError (msg : string)
| Error (msg : string).

Inductive outcome (A : Type) : Type :=
| Returned (a : A)
| Thrown (e : error).
Arguments Returned {A} a.
Arguments Thrown {A} e.

(** A text is held as the bytes of its UTF-8 encoding.  The white space of
    one byte: TAB, LF, VT, FF, CR and SPACE. *)
Definition is_white_space (c : ascii) : bool :=
  let n := nat_of_ascii c in
  ((9 <=? n) && (n <=? 13))%nat || (n =? 32)%nat.

(** The white space of two bytes: U+00A0 (C2 A0). *)
Definition is_white_space2 (c1 c2 : ascii) : bool :=
  ((nat_of_ascii c1 =? 194) && (nat_of_ascii c2 =? 160))%nat.

(** The white space of three bytes: U+1680 (E1 9A 80), U+2000 to U+200A
    (E2 80 80 to E2 80 8A), U+2028, U+2029, U+202F (E2 80 A8, A9, AF),
    U+205F (E2 81 9F), U+3000 (E3 80 80) and U+FEFF (EF BB BF). *)
Definition is_white_space3 (c1 c2 c3 : ascii) : bool :=
  let n1 := nat_of_ascii c1 in
  let n2 := nat_of_ascii c2 in
  let n3 := nat_of_ascii c3 in
  ((n1 =? 225) && (n2 =? 154) && (n3 =? 128)
   || (n1 =? 226) && (n2 =? 128)
      && ((128 <=? n3) && (n3 <=? 138) || (n3 =? 168) || (n3 =? 169) || (n3 =? 175))
   || (n1 =? 226) && (n2 =? 129) && (n3 =? 159)
   || (n1 =? 227) && (n2 =? 128) && (n3 =? 128)
   || (n1 =? 239) && (n2 =? 187) && (n3 =? 191))%nat.

(** [s.trimStart()]: the white space and line terminators of ECMAScript
    are removed from the start, one code point at a time. *)
Fixpoint trimStart (s : string) : string :=
  match s with
  | EmptyString => EmptyString
  | String c1 rest1 =>
      if is_white_space c1 then trimStart rest1
      else
        match rest1 with
        | EmptyString => s
        | String c2 rest2 =>
            if is_white_space2 c1 c2 then trimStart rest2
            else
              match rest2 with
              | EmptyString => s
              | String c3 rest3 =>
                  if is_white_space3 c1 c2 c3 then trimStart rest3 else s
              end
        end
  end.

(** [s.trimEnd()]: a suffix is removed when it is white space as a whole.
    No white-space code point starts with a continuation byte, so a suffix
    that starts inside a code point is never taken for white space. *)
Fixpoint trimEnd (s : string) : string :=
  match s with
  | EmptyString => EmptyString
  | String c rest =>
      if String.eqb (trimStart s) EmptyString then EmptyString
      else String c (trimEnd rest)
  end.

(** [s.trim()] *)
Definition trim (s : string) : string := trimEnd (trimStart s).

(** The number of UTF-16 code units a byte of the encoding stands for: one
    for a byte that starts a code point of the basic plane, two for the
    first byte of a four-byte code point (a surrogate pair), none for a
    continuation byte. *)
Definition code_units (c : ascii) : nat :=
  let n := nat_of_ascii c in
  if (n <? 128)%nat then 1%nat
  else if (n <? 192)%nat then 0%nat
  else if (n <? 240)%nat then 1%nat
  else 2%nat.

(** [s.length]: the number of UTF-16 code units of the text. *)
Fixpoint string_length (s : string) : nat :=
  match s with
  | EmptyString => 0%nat
  | String c rest => (code_units c + string_length rest)%nat
  end.

(** [Array.prototype.slice(0, end)] for an integer [end]: a negative [end]
    counts from the end of the array. *)
Definition slice0 {A : Type} (l : list A) (limit : Z) : list A :=
  if limit <? 0
  then take (Z.to_nat (Z.max (Z.of_nat (length l) + limit) 0)) l
  else take (Z.to_nat limit) l.

(** Values that reach the services as a user id: an integer-valued number
    (Telegram's [from.id]), a string, or [null]/[undefined].  The validator
    is documented for [number|string]. *)
Inductive userId : Type :=
| IdNum (n : Z)
| IdStr (s : string)
| IdNullish.

Definition digit_value (radix : Z) (c : ascii) : option Z :=
  let n := Z.of_nat (nat_of_ascii c) in
  let v :=
    if (48 <=? n) && (n <=? 57) then Some (n - 48)
    else if (97 <=? n) && (n <=? 122) then Some (n - 87)
    else if (65 <=? n) && (n <=? 90) then Some (n - 55)
    else None in
  match v with
  | Some d => if d <? radix then Some d else None
  | None => None
  end.

(** The longest prefix of digits of the radix, read as a number; [None]
    when there is no digit at all. *)
Fixpoint parse_digits (radix : Z) (s : string) (acc : option Z) : option Z :=
  match s with
  | EmptyString => acc
  | String c rest =>
      match digit_value radix c with
      | Some d => parse_digits radix rest (Some (radix * default 0 acc + d))
      | None => acc
      end
  end.

(** [parseInt(string)] with no radix argument: leading white space (the
    same code points as for [trim]) is skipped, a sign is read, a [0x]/[0X] prefix selects radix 16, and the
    longest prefix of digits is the result; [None] is [NaN]. *)
Definition parseInt_string (s : string) : option Z :=
  let s1 := trimStart s in
  let '(sign, s2) :=
    match s1 with
    | String "-" rest => (-1, rest)
    | String "+" rest => (1, rest)
    | _ => (1, s1)
    end in
  let '(radix, s3) :=
    match s2 with
    | String "0" (String "x" rest) => (16, rest)
    | String "0" (String "X" rest) => (16, rest)
    | _ => (10, s2)
    end in
  match parse_digits radix s3 None with
  | Some v => Some (sign * v)
  | None => None
  end.

(** [parseInt(userId)]: the argument is first converted to a string.  An
    integer-valued number (of magnitude below 10^21) prints as its digits,
    [null] and [undefined] print as words with no digit. *)
Definition parseInt (v : userId) : option Z :=
  match v with
  | IdNum n => Some n
  | IdStr s => parseInt_string s
  | IdNullish => None
  end.

(** A JavaScript number is an IEEE 754 double: Rocq's primitive [float]. *)
Definition Number_of_nat (n : nat) : float :=
  PrimFloat.of_uint63 (Uint63.of_Z (Z.of_nat n)).

Definition Number_of_Z (z : Z) : float :=
  if z <? 0
  then PrimFloat.opp (PrimFloat.of_uint63 (Uint63.of_Z (- z)))
  else PrimFloat.of_uint63 (Uint63.of_Z z).

(** [Math.round(x)]: [NaN], the infinities, the zeros and the integers are
    returned as they are; otherwise the result is [floor(x + 1/2)], computed
    exactly on the double [x = (-1)^s * m * 2^e], with the sign of [x] kept
    on a zero result. *)
Definition Math_round (x : float) : float :=
  match Prim2SF x with
  | S754_finite s m e =>
      if 0 <=? e then x
      else
        let num := if s then Z.neg m else Z.pos m in
        let q := (2 * num + 2 ^ (- e)) / 2 ^ (1 - e) in
        if q =? 0 then (if s then PrimFloat.neg_zero else PrimFloat.zero)
        else Number_of_Z q
  | _ => x
  end.

End JS.

#[global] Instance userId_eq_dec : EqDecision JS.userId.
Proof. solve_decision. Defined.

#[global] Instance userId_countable : Countable JS.userId.
Proof.
  refine (inj_countable'
    (λ v, match v with
          | JS.IdNum n => inl n
          | JS.IdStr s => inr (inl s)
          | JS.IdNullish => inr (inr ())
          end)
    (λ x, match x with
          | inl n => JS.IdNum n
          | inr (inl s) => JS.IdStr s
          | inr (inr _) => JS.IdNullish
          end) _).
  by intros [].
Defined.

(* ================================================================== *)
(** ** Constants.js *)
(* ================================================================== *)

(** A word entry: [{ word, definition, emoji }]. *)
Record Word : Type := mkWord {
  word : string;
  definition : string;
  emoji : string
}.

#[global] Instance Word_eq_dec : EqDecision Word.
Proof. solve_decision. Defined.

Module Constants.

Definition START := "/start".
Definition WORD := "/word".
Definition STATS := "/stats".
Definition HELP := "/help".
Definition WORD_OF_THE_DAY := "/wordoftheday".
Definition HISTORY := "/history".
Definition RANDOM := "/random".
Definition DIFFICULTY := "/difficulty".
Definition SHARE := "/share".

(** [Object.values(Constants.COMMANDS)], in declaration order. *)
Definition COMMANDS : list string :=
  [START; WORD; STATS; HELP; WORD_OF_THE_DAY; HISTORY; RANDOM; DIFFICULTY; SHARE].

(** The emoji of the fallback entries are written as their UTF-8 bytes. *)
Definition FALLBACK_WORDS : list Word :=
  [ mkWord "Serendipity"
      "The occurrence of fortunate and unexpected discoveries by chance."
      "🧠";
    mkWord "Peregrine" "Uncommon, strange, or wandering." "📘";
    mkWord "Ineffable" "Too great or beautiful to be expressed in words." "🎭" ].

End Constants.


(* ================================================================== *)
(** ** Validator.js *)
(* ================================================================== *)

Module Validator.

(** The result of [JSON.parse]. *)
Inductive json : Type :=
| JNull
| JBool (b : bool)
| JNumber (n : Z)
| JString (s : string)
| JArray (items : list json)
| JObject (fields : list (string * json)).

(** A key written twice in a JSON object keeps its last value. *)
Fixpoint get_field (key : string) (fields : list (string * json)) : option json :=
  match fields with
  | [] => None
  | (k, v) :: rest =>
      match get_field key rest with
      | Some v' => Some v'
      | None => if String.eqb k key then Some v else None
      end
  end.

(** [v.key]; [None] is [undefined]. *)
Definition property (v : json) (key : string) : option json :=
  match v with
  | JObject fields => get_field key fields
  | _ => None
  end.

Definition truthy (v : json) : bool :=
  match v with
  | JNull => false
  | JBool b => b
  | JNumber n => negb (n =? 0)
  | JString s => negb (String.eqb s "")
  | JArray _ | JObject _ => true
  end.

(** [typeof v === 'object'] *)
Definition is_object (v : json) : bool :=
  match v with
  | JNull | JArray _ | JObject _ => true
  | _ => false
  end.

(** [typeof v.key === 'string' && v.key.trim().length > 0] *)
Definition nonempty_string (v : json) (key : string) : bool :=
  match property v key with
  | Some (JString s) => (0 <? JS.string_length (JS.trim s))%nat
  | _ => false
  end.

Definition isValidWord (v : json) : bool :=
  truthy v && is_object v &&
  nonempty_string v "word" &&
  nonempty_string v "definition" &&
  nonempty_string v "emoji".

Definition string_property (v : json) (key : string) : string :=
  match property v key with
  | Some (JString s) => s
  | _ => ""
  end.

(** The three fields the services read from a valid entry. *)
Definition as_Word (v : json) : Word :=
  mkWord (string_property v "word")
         (string_property v "definition")
         (string_property v "emoji").

Inductive validation_error : Type :=
| NotAnArray
| InvalidStructureAt (index : nat).

(** The text of an error as [validateWordsArray] writes it. *)
Definition message (e : validation_error) : string :=
  match e with
  | NotAnArray => "Words must be an array"
  | InvalidStructureAt index => "Invalid word structure at index " +:+ pretty index
  end.

Record validation : Type := mkValidation {
  valid : bool;
  validWords : list Word;
  errors : list validation_error
}.

(** The [forEach] of [validateWordsArray], from index [index] on. *)
Fixpoint validate_from (index : nat) (items : list json)
  : list Word * list validation_error :=
  match items with
  | [] => ([], [])
  | v :: rest =>
      let '(ws, es) := validate_from (S index) rest in
      if isValidWord v then (as_Word v :: ws, es)
      else (ws, InvalidStructureAt index :: es)
  end.

Definition validateWordsArray (parsed : json) : validation :=
  match parsed with
  | JArray items =>
      let '(ws, es) := validate_from 0 items in
      mkValidation (0 <? length ws)%nat ws es
  | _ => mkValidation false [] [NotAnArray]
  end.

(** [const id = parseInt(userId); return !isNaN(id) && id > 0;] *)
Definition isValidUserId (userId : JS.userId) : bool :=
  match JS.parseInt userId with
  | Some id => 0 <? id
  | None => false
  end.

End Validator.

(* ================================================================== *)
(** ** WordService.js *)
(* ================================================================== *)

Module WordService.

(** The fields of the service; [stats.startTime] and [stats.lastLoadTime]
    are clock readings that only feed the uptime text and are left out. *)
Record t : Type := mk {
  words : list Word;
  usedWords : gset string;
  totalRequests : nat;
  uniqueUsers : gset JS.userId;
  loadAttempts : nat;
  isInitialized : bool
}.

(** [new WordService()] *)
Definition new : t := mk [] ∅ 0 ∅ 0 false.

Definition set_words (ws : list Word) (s : t) : t :=
  mk ws (usedWords s) (totalRequests s) (uniqueUsers s) (loadAttempts s) (isInitialized s).

Definition set_usedWords (u : gset string) (s : t) : t :=
  mk (words s) u (totalRequests s) (uniqueUsers s) (loadAttempts s) (isInitialized s).

Definition set_isInitialized (b : bool) (s : t) : t :=
  mk (words s) (usedWords s) (totalRequests s) (uniqueUsers s) (loadAttempts s) b.

Definition incr_loadAttempts (s : t) : t :=
  mk (words s) (usedWords s) (totalRequests s) (uniqueUsers s) (S (loadAttempts s)) (isInitialized s).

(** What reading and parsing [src/words.json] gives: [fs.readFile] rejects,
    [JSON.parse] throws, or a value is parsed. *)
Inductive source : Type :=
| Unreadable
| Unparseable
| Parsed (v : Validator.json).

Definition loadFallbackWords (s : t) : t :=
  set_words Constants.FALLBACK_WORDS s.

(** [loadWords()] is asynchronous: it counts the attempt and then awaits
    [fs.readFile]; while the read is pending other calls on the service can
    run.  This is the part before the [await]. *)
Definition loadWords_start (s : t) : t := incr_loadAttempts s.

(** [loadWords()] from the moment the read settles with [src] to its
    [return]: no other [await] follows, so this part runs in one piece, on
    the state the service has at that moment. *)
Definition loadWords_resume (src : source) (s : t) : bool * t :=
  match src with
  | Parsed parsedWords =>
      let validation := Validator.validateWordsArray parsedWords in
      let s := set_words (Validator.validWords validation) s in
      let s := if (length (words s) =? 0)%nat then loadFallbackWords s else s in
      (true, s)
  | Unreadable | Unparseable =>
      (false, loadFallbackWords s)
  end.

(** A call of [loadWords()] during which nothing else touches the service:
    the state after the call and the returned status. *)
Definition loadWords (src : source) (s : t) : bool * t :=
  loadWords_resume src (loadWords_start s).

(** [initialize()], called once by [BotManager.initializeServices] before
    the Telegram client exists, so that no handler runs while it awaits. *)
Definition initialize (src : source) (s : t) : bool * t :=
  let '(success, s) := loadWords src s in
  let s := if success then set_isInitialized true s else s in
  (success, s).

(** [resetCycle()] *)
Definition resetCycle (s : t) : t := set_usedWords ∅ s.

(** [reloadWords()] up to the [await] inside [loadWords()]: the used set is
    cleared and the load is started. *)
Definition reloadWords_start (s : t) : t := loadWords_start (resetCycle s).

(** [this.words.filter(word => !this.usedWords.has(word.word))] *)
Definition availableWords (s : t) : list Word :=
  filter (λ w, word w ∉ usedWords s) (words s).

(** [getRandomWord()]; [r] is the value [Math.random()] gives when the call
    reaches it, [None] is [null].  The index [floor(r * length)] is below the
    length, so the default of [nth] is never read. *)
Definition getRandomWord (r : JS.random) (s : t) : option Word * t :=
  if negb (isInitialized s) || (length (words s) =? 0)%nat then (None, s)
  else
    let s := if (length (words s) <=? size (usedWords s))%nat
             then resetCycle s else s in
    match availableWords s with
    | [] => (None, s)
    | first :: _ =>
        let randomIndex := JS.floor_mul r (length (availableWords s)) in
        let selectedWord := nth randomIndex (availableWords s) first in
        (Some selectedWord, set_usedWords ({[ word selectedWord ]} ∪ usedWords s) s)
    end.

(** [recordRequest(userId)] *)
Definition recordRequest (userId : JS.userId) (s : t) : t :=
  if negb (Validator.isValidUserId userId) then s
  else mk (words s) (usedWords s) (S (totalRequests s))
          ({[ userId ]} ∪ uniqueUsers s) (loadAttempts s) (isInitialized s).

(** What the handlers of incoming messages do to the service, each in one
    piece: a request is recorded, a word is selected, the cycle is reset. *)
Inductive operation : Type :=
| RecordRequest (userId : JS.userId)
| Select (r : JS.random)
| ResetCycle.

Definition apply (s : t) (op : operation) : t :=
  match op with
  | RecordRequest userId => recordRequest userId s
  | Select r => (getRandomWord r s).2
  | ResetCycle => resetCycle s
  end.

Definition run (ops : list operation) (s : t) : t :=
  foldl apply s ops.

(** [reloadWords()] as a whole.  The used set is cleared and the load
    started; [during] are the operations of the handlers that run while
    [fs.readFile] is awaited, in their order; then the read settles with
    [src] and the word sequence is replaced.  With [during = []] nothing
    runs in between. *)
Definition reloadWords (src : source) (during : list operation) (s : t) : bool * t :=
  loadWords_resume src (run during (reloadWords_start s)).

(** The object [getStats()] returns, without the uptime text and the load
    time. *)
Record Stats : Type := mkStats {
  stats_totalWords : nat;
  stats_usedWords : nat;
  stats_remainingWords : Z;
  stats_cycleProgress : float;
  stats_totalRequests : nat;
  stats_uniqueUsers : nat;
  stats_isInitialized : bool;
  stats_loadAttempts : nat
}.

(** [Math.round((this.usedWords.size / this.words.length) * 100)] *)
Definition cycleProgress (used total : nat) : float :=
  JS.Math_round
    (PrimFloat.mul (PrimFloat.div (JS.Number_of_nat used) (JS.Number_of_nat total))
                   (JS.Number_of_nat 100)).

Definition getStats (s : t) : Stats :=
  mkStats (length (words s))
          (size (usedWords s))
          (Z.of_nat (length (words s)) - Z.of_nat (size (usedWords s)))
          (cycleProgress (size (usedWords s)) (length (words s)))
          (totalRequests s)
          (size (uniqueUsers s))
          (isInitialized s)
          (loadAttempts s).

(** [isReady()] *)
Definition isReady (s : t) : bool :=
  isInitialized s && (0 <? length (words s))%nat.

End WordService.


(* ================================================================== *)
(** ** UserService.js *)
(* ================================================================== *)

Module UserService.

Record HistoryEntry : Type := mkEntry {
  entry_word : string;
  entry_definition : string;
  entry_emoji : string;
  entry_timestamp : Z;
  entry_difficulty : string
}.

Record UserStats : Type := mkStats {
  totalWords : nat;
  streak : nat;
  lastUsed : option Z
}.

Record UserData : Type := mkUser {
  id : JS.userId;
  history : list HistoryEntry;
  difficulty : string;
  categories : list string;
  wordLength : string;
  stats : UserStats
}.

(** The service: the [Map] of users and the cached word of the day.  A date
    is the text [new Date().toDateString()] gives; [None] is [null] (or the
    [undefined] an empty list leaves behind). *)
Record t : Type := mk {
  users : gmap JS.userId UserData;
  wordOfTheDay : option Word;
  wordOfTheDayDate : option string
}.

(** [new UserService()] *)
Definition new : t := mk ∅ None None.

Definition set_users (m : gmap JS.userId UserData) (s : t) : t :=
  mk m (wordOfTheDay s) (wordOfTheDayDate s).

Definition newUser (userId : JS.userId) : UserData :=
  mkUser userId [] "medium" [] "any" (mkStats 0 0 None).

(** [getUserData(userId)]: the profile, created on first use. *)
Definition getUserData (userId : JS.userId) (s : t) : UserData * t :=
  match users s !! userId with
  | Some userData => (userData, s)
  | None => (newUser userId, set_users (<[userId := newUser userId]> (users s)) s)
  end.

(** The object [getUserStats(userId)] returns: the stats fields, the
    difficulty and the length of the history. *)
Record UserStatsView : Type := mkView {
  view_totalWords : nat;
  view_streak : nat;
  view_lastUsed : option Z;
  view_difficulty : string;
  view_historyLength : nat
}.

(** [getUserStats(userId)]; [None] is [null]. *)
Definition getUserStats (userId : JS.userId) (s : t) : option UserStatsView * t :=
  if negb (Validator.isValidUserId userId) then (None, s)
  else
    let '(userData, s) := getUserData userId s in
    (Some (mkView (totalWords (stats userData)) (streak (stats userData))
                  (lastUsed (stats userData)) (difficulty userData)
                  (length (history userData))), s).

(** [calculateWordDifficulty(word)] *)
Definition calculateWordDifficulty (w : Word) : string :=
  let length := JS.string_length (word w) in
  let definitionLength := JS.string_length (definition w) in
  if ((length <=? 6) && (definitionLength <=? 100))%nat then "easy"
  else if ((length <=? 10) && (definitionLength <=? 150))%nat then "medium"
  else "hard".

(** Milliseconds in a day, [1000 * 60 * 60 * 24]. *)
Definition day_ms : Z := 1000 * 60 * 60 * 24.

Definition set_streak (n : nat) (u : UserData) : UserData :=
  mkUser (id u) (history u) (difficulty u) (categories u) (wordLength u)
         (mkStats (totalWords (stats u)) n (lastUsed (stats u))).

(** [updateStreak(userData)]; [now] is the [new Date()] read inside, in
    milliseconds.  A stored [Date] object is always truthy. *)
Definition updateStreak (now : Z) (userData : UserData) : UserData :=
  match lastUsed (stats userData) with
  | None => set_streak 1 userData
  | Some last =>
      let daysDiff := (now - last) / day_ms in
      if daysDiff =? 0 then userData
      else if daysDiff =? 1 then set_streak (S (streak (stats userData))) userData
      else set_streak 1 userData
  end.

(** [addToHistory(userId, word)].  The call reads the clock three times, in
    this order: [tEntry] for the entry's timestamp, [tUsed] for
    [stats.lastUsed] and [tNow] inside [updateStreak].  [None] is an absent
    word. *)
Definition addToHistory (userId : JS.userId) (w : option Word)
    (tEntry tUsed tNow : Z) (s : t) : t :=
  match w with
  | None => s
  | Some w =>
      if negb (Validator.isValidUserId userId) then s
      else
        let '(userData, s) := getUserData userId s in
        let historyEntry :=
          mkEntry (word w) (definition w) (emoji w) tEntry
                  (calculateWordDifficulty w) in
        let h := historyEntry :: history userData in
        let h := if (50 <? length h)%nat then take 50 h else h in
        let userData :=
          mkUser (id userData) h (difficulty userData) (categories userData)
                 (wordLength userData)
                 (mkStats (S (totalWords (stats userData)))
                          (streak (stats userData))
                          (Some tUsed)) in
        let userData := updateStreak tNow userData in
        set_users (<[userId := userData]> (users s)) s
  end.

(** [getHistory(userId, limit)] *)
Definition getHistory (userId : JS.userId) (limit : Z) (s : t)
  : list HistoryEntry * t :=
  if negb (Validator.isValidUserId userId) then ([], s)
  else
    let '(userData, s) := getUserData userId s in
    (JS.slice0 (history userData) limit, s).

(** [setDifficulty(userId, difficulty)] *)
Definition setDifficulty (userId : JS.userId) (d : string) (s : t) : bool * t :=
  if negb (Validator.isValidUserId userId) then (false, s)
  else if negb (bool_decide (d ∈ ["easy"; "medium"; "hard"])) then (false, s)
  else
    let '(userData, s) := getUserData userId s in
    let userData :=
      mkUser (id userData) (history userData) d (categories userData)
             (wordLength userData) (stats userData) in
    (true, set_users (<[userId := userData]> (users s)) s).

(** [getWordOfTheDay(words)]; [today] is [new Date().toDateString()] and [r]
    the value of [Math.random()].  The cached word is returned when the
    stored date is today's and a word is stored; otherwise [words[index]] is
    stored with today's date, and reading [.word] of it for the log line
    throws when it is [undefined]. *)
Definition getWordOfTheDay (words : list Word) (today : string) (r : JS.random)
    (s : t) : JS.outcome Word * t :=
  match wordOfTheDay s, decide (wordOfTheDayDate s = Some today) with
  | Some cached, left _ => (JS.Returned cached, s)
  | _, _ =>
      let randomIndex := JS.floor_mul r (length words) in
      let s := mk (users s) (words !! randomIndex) (Some today) in
      match wordOfTheDay s with
      | Some w => (JS.Returned w, s)
      | None =>
          (JS.Thrown (JS.TypeError "Cannot read properties of undefined (reading 'word')"), s)
      end
  end.

(** [getRandomWord(words)]: [words[index]], which is [undefined] ([None])
    past the end of the array; nothing in it can throw. *)
Definition getRandomWord (words : list Word) (r : JS.random)
  : JS.outcome (option Word) :=
  let randomIndex := JS.floor_mul r (length words) in
  JS.Returned (words !! randomIndex).

(** Recording a sequence of words for one user, one [addToHistory] call per
    word, each with its three clock readings. *)
Definition recordAll (userId : JS.userId) (events : list (Word * (Z * Z * Z)))
    (s : t) : t :=
  foldl (λ s ev,
           let '(w, (tEntry, tUsed, tNow)) := ev in
           addToHistory userId (Some w) tEntry tUsed tNow s)
        s events.

(** The history entry [addToHistory] builds for a recorded word. *)
Definition entryOf (ev : Word * (Z * Z * Z)) : HistoryEntry :=
  let '(w, (tEntry, _, _)) := ev in
  mkEntry (word w) (definition w) (emoji w) tEntry (calculateWordDifficulty w).

(** The streak [getUserStats] reports for a user; a profile starts at 0. *)
Definition streakOf (userId : JS.userId) (s : t) : nat :=
  match users s !! userId with
  | Some userData => streak (stats userData)
  | None => 0
  end.

(** The stored history of a user, [[]] when there is no profile. *)
Definition historyOf (userId : JS.userId) (s : t) : list HistoryEntry :=
  match users s !! userId with
  | Some userData => history userData
  | None => []
  end.

End UserService.

(* ================================================================== *)
(** ** CommandHandler.js and BotManager.js: start-up and dispatch *)
(* ================================================================== *)

Module Bot.

(** [BotManager.initializeServices()]: the word service it leaves in
    [this.wordService], or the error it throws. *)
Definition initializeServices (src : WordService.source)
  : JS.outcome WordService.t :=
  let '(wordServiceReady, wordService) :=
    WordService.initialize src WordService.new in
  if negb wordServiceReady
  then JS.Thrown (JS.Error "Failed to initialize WordService")
  else JS.Returned wordService.

(** [BotManager.initialize()], given the result of [validateConfig()]; the
    construction of the Telegram client is taken to succeed. *)
Definition initialize (configValid : bool) (src : WordService.source) : bool :=
  if negb configValid then false
  else match initializeServices src with
       | JS.Thrown _ => false
       | JS.Returned _ => true
       end.

(** The backslash character. *)
Definition backslash : ascii := ascii_of_nat 92.

(** The characters [registerCommand] escapes: the regular-expression
    operators [. * + ? ^ $ { } ( ) | [ ]] and the backslash. *)
Definition regexp_special (c : ascii) : bool :=
  bool_decide (c ∈ backslash :: list_ascii_of_string ".*+?^${}()|[]").

(** The [replace] of [registerCommand]: a backslash is put before every
    special character. *)
Fixpoint escapeRegExp (command : string) : string :=
  match command with
  | EmptyString => EmptyString
  | String c rest =>
      if regexp_special c
      then String backslash (String c (escapeRegExp rest))
      else String c (escapeRegExp rest)
  end.

(** Matching an escaped pattern, in which a backslash makes the next
    character literal and every other character stands for itself, at the
    start of a text: the rest of the text after the match. *)
Fixpoint match_escaped (pattern text : string) : option string :=
  match pattern with
  | EmptyString => Some text
  | String p rest =>
      if Ascii.eqb p backslash then
        match rest, text with
        | String q rest', String c text' =>
            if Ascii.eqb q c then match_escaped rest' text' else None
        | _, _ => None
        end
      else
        match text with
        | String c text' => if Ascii.eqb p c then match_escaped rest text' else None
        | EmptyString => None
        end
  end.

(** [new RegExp(`^${escapedCommand}$`).test(text)]: the escaped command
    between the two anchors, so the match must start at the beginning of the
    text and leave nothing of it. *)
Definition commandRegExp_test (command text : string) : bool :=
  match match_escaped (escapeRegExp command) text with
  | Some EmptyString => true
  | _ => false
  end.

(** The commands [initializeCommands] registers, in order. *)
Definition registered : list string :=
  [ Constants.START; Constants.WORD; Constants.STATS; Constants.HELP;
    Constants.WORD_OF_THE_DAY; Constants.HISTORY; Constants.RANDOM;
    Constants.DIFFICULTY; Constants.SHARE ].

(** Where a message is routed. *)
Inductive routed : Type :=
| ToCommand (command : string)
| ToUnknownCommand.

(** The client calls the callback of every registered pattern that matches
    the text of a message. *)
Definition onText (text : option string) : list routed :=
  match text with
  | None => []
  | Some t => ToCommand <$> filter (λ c, commandRegExp_test c t = true) registered
  end.

(** [text.startsWith(cmd)] *)
Definition startsWith (text cmd : string) : bool := String.prefix cmd text.

(** [BotManager.handleMessage(msg)], called for every message.  An absent or
    empty text is falsy. *)
Definition handleMessage (isShuttingDown : bool) (text : option string)
  : list routed :=
  match text with
  | None => []
  | Some t =>
      if String.eqb t "" || isShuttingDown then []
      else
        let isCommand := existsb (λ cmd, startsWith t cmd) Constants.COMMANDS in
        if negb isCommand then [ToUnknownCommand] else []
  end.

(** Everything one incoming message sets off. *)
Definition dispatch (isShuttingDown : bool) (text : option string) : list routed :=
  onText text ++ handleMessage isShuttingDown text.

(** [CommandHandler.handleUnknownCommand(msg)]: whether the canned reply
    [Constants.MESSAGES.UNKNOWN_COMMAND] is sent, and the word service after
    the request is recorded. *)
Definition handleUnknownCommand (from_id : JS.userId) (ws : WordService.t)
  : bool * WordService.t :=
  if negb (Validator.isValidUserId from_id) then (false, ws)
  else (true, WordService.recordRequest from_id ws).

(** The first token of a text: its characters up to the first white space. *)
Fixpoint leadingToken (text : string) : string :=
  match text with
  | EmptyString => EmptyString
  | String c rest =>
      if JS.is_white_space c then EmptyString else String c (leadingToken rest)
  end.

End Bot.

(* ================================================================== *)
(** ** Sequences of calls on the selector state *)
(* ================================================================== *)

Module Catalog.

(** Repeated calls of [WordService.getRandomWord], one draw per call: the
    results in call order and the final state. *)
Fixpoint getRandomWords (rs : list JS.random) (s : WordService.t)
  : list (option Word) * WordService.t :=
  match rs with
  | [] => ([], s)
  | r :: rest =>
      let '(res, s1) := WordService.getRandomWord r s in
      let '(ress, s2) := getRandomWords rest s1 in
      (res :: ress, s2)
  end.

(** The state in which [getRandomWord] makes its selection: the used set is
    cleared first when it covers the sequence. *)
Definition afterResetCheck (s : WordService.t) : WordService.t :=
  if (length (WordService.words s) <=? size (WordService.usedWords s))%nat
  then WordService.resetCycle s else s.

(** The texts of the active word sequence. *)
Definition texts (s : WordService.t) : list string :=
  word <$> WordService.words s.

(** [usedKeys ⊆ { w.text : w in words }] *)
Definition invariant (s : WordService.t) : Prop :=
  WordService.usedWords s ⊆ list_to_set (texts s).

End Catalog.

(* ================================================================== *)
(** ** Validator.js: bot token, environment and input sanitising *)
(* ================================================================== *)

Module ValidatorEnv.

Definition is_digit (c : ascii) : bool :=
  let n := nat_of_ascii c in ((48 <=? n) && (n <=? 57))%nat.

(** The class [[A-Za-z0-9_-]]. *)
Definition is_token_char (c : ascii) : bool :=
  let n := nat_of_ascii c in
  (((65 <=? n) && (n <=? 90)) || ((97 <=? n) && (n <=? 122))
   || ((48 <=? n) && (n <=? 57)) || (n =? 95) || (n =? 45))%nat.

Fixpoint all_chars (p : ascii → bool) (s : string) : bool :=
  match s with
  | EmptyString => true
  | String c rest => p c && all_chars p rest
  end.

(** What is left of a text after its leading digits. *)
Fixpoint skip_digits (s : string) : string :=
  match s with
  | EmptyString => EmptyString
  | String c rest => if is_digit c then skip_digits rest else s
  end.

(** [/^\d+:[A-Za-z0-9_-]{35}$/.test(token)]: one digit at least, all the
    digits that follow, a colon, and then exactly 35 characters of the class
    up to the end of the text.  A colon is no digit, so the greedy run of
    digits is the only one that can be followed by the colon. *)
Definition tokenRegex_test (token : string) : bool :=
  match token with
  | EmptyString => false
  | String c _ =>
      is_digit c &&
      match skip_digits token with
      | String ":" body =>
          (String.length body =? 35)%nat && all_chars is_token_char body
      | _ => false
      end
  end.

(** [isValidBotToken(token)]; [None] is a token that is absent or no string,
    and the empty string is falsy. *)
Definition isValidBotToken (token : option string) : bool :=
  match token with
  | None => false
  | Some t => if String.eqb t "" then false else tokenRegex_test t
  end.

(** The two variables [validateEnvironment] reads from [process.env]; [None]
    is a variable that is not set. *)
Record environment : Type := mkEnv {
  BOT_TOKEN_CODE : option string;
  NODE_ENV : option string
}.

Inductive env_error : Type :=
| TokenNotSet
| TokenInvalidFormat.

Inductive env_warning : Type :=
| NodeEnvNotSet.

Record env_validation : Type := mkEnvValidation {
  env_valid : bool;
  env_errors : list env_error;
  env_warnings : list env_warning
}.

(** [!value] for an environment variable: not set, or the empty string. *)
Definition falsy (value : option string) : bool :=
  match value with
  | None => true
  | Some v => String.eqb v ""
  end.

(** [validateEnvironment(env)] *)
Definition validateEnvironment (env : environment) : env_validation :=
  let errors :=
    if falsy (BOT_TOKEN_CODE env) then [TokenNotSet]
    else if negb (isValidBotToken (BOT_TOKEN_CODE env)) then [TokenInvalidFormat]
    else [] in
  let warnings := if falsy (NODE_ENV env) then [NodeEnvNotSet] else [] in
  mkEnvValidation (length errors =? 0)%nat errors warnings.

(** [config.js]: [botToken: process.env.BOT_TOKEN_CODE || 'YOUR_BOT_TOKEN_HERE'] *)
Definition config_botToken (env : environment) : string :=
  match BOT_TOKEN_CODE env with
  | Some t => if String.eqb t "" then "YOUR_BOT_TOKEN_HERE" else t
  | None => "YOUR_BOT_TOKEN_HERE"
  end.

(** [BotManager.validateConfig()], for the environment and the token of the
    configuration object. *)
Definition validateConfig (env : environment) (botToken : option string) : bool :=
  if negb (env_valid (validateEnvironment env)) then false
  else if negb (isValidBotToken botToken) then false
  else true.

Fixpoint remove_angle_brackets (s : string) : string :=
  match s with
  | EmptyString => EmptyString
  | String c rest =>
      if Ascii.eqb c "<" || Ascii.eqb c ">" then remove_angle_brackets rest
      else String c (remove_angle_brackets rest)
  end.

(** [sanitizeString(input)]; [None] is an input that is no string. *)
Definition sanitizeString (input : option string) : string :=
  match input with
  | None => ""
  | Some s => remove_angle_brackets (JS.trim s)
  end.

End ValidatorEnv.

(* ================================================================== *)
(** ** Logger.js: levels *)
(* ================================================================== *)

Module Logger.

(** [this.levels[name]]; [None] is [undefined]. *)
Definition levels (name : string) : option nat :=
  if String.eqb name "ERROR" then Some 0%nat
  else if String.eqb name "WARN" then Some 1%nat
  else if String.eqb name "INFO" then Some 2%nat
  else if String.eqb name "DEBUG" then Some 3%nat
  else None.

Definition toUpperCase_char (c : ascii) : ascii :=
  let n := nat_of_ascii c in
  if ((97 <=? n) && (n <=? 122))%nat then ascii_of_nat (n - 32) else c.

(** [s.toUpperCase()] on ASCII text. *)
Fixpoint toUpperCase (s : string) : string :=
  match s with
  | EmptyString => EmptyString
  | String c rest => String (toUpperCase_char c) (toUpperCase rest)
  end.

(** The level the constructor sets: [this.levels.INFO]. *)
Definition initialLevel : nat := 2.

(** [setLevel(level)]: [this.levels[level.toUpperCase()] || this.levels.INFO];
    the left operand is falsy when it is [undefined] or [0]. *)
Definition setLevel (level : string) : nat :=
  match levels (toUpperCase level) with
  | Some n => if (n =? 0)%nat then 2%nat else n
  | None => 2%nat
  end.

Inductive method : Type := error | warn | info | debug | success | bot.

(** The level each method compares [this.currentLevel] with. *)
Definition threshold (m : method) : nat :=
  match m with
  | error => 0
  | warn => 1
  | info | success | bot => 2
  | debug => 3
  end%nat.

(** Whether a call of the method writes to the console. *)
Definition prints (m : method) (currentLevel : nat) : bool :=
  (threshold m <=? currentLevel)%nat.

End Logger.

(* ================================================================== *)
(** ** Uptime texts *)
(* ================================================================== *)

Module Uptime.

Definition MINUTE : Z := 1000 * 60.
Definition HOUR : Z := 1000 * 60 * 60.
Definition DAY : Z := 1000 * 60 * 60 * 24.

(** [Math.floor(diff / (1000 * 60 * 60 * 24))] *)
Definition days (diff : Z) : Z := diff / DAY.

(** [Math.floor((diff % (1000 * 60 * 60 * 24)) / (1000 * 60 * 60))]; the
    remainder of JavaScript has the sign of the dividend. *)
Definition hours (diff : Z) : Z := Z.rem diff DAY / HOUR.

(** [Math.floor((diff % (1000 * 60 * 60)) / (1000 * 60))] *)
Definition minutes (diff : Z) : Z := Z.rem diff HOUR / MINUTE.

(** The three [return]s of [getUptime]; an integer is printed in decimal. *)
Definition format (diff : Z) : string :=
  if 0 <? days diff
  then pretty (days diff) +:+ "d " +:+ pretty (hours diff) +:+ "h "
       +:+ pretty (minutes diff) +:+ "m"
  else if 0 <? hours diff
  then pretty (hours diff) +:+ "h " +:+ pretty (minutes diff) +:+ "m"
  else pretty (minutes diff) +:+ "m".

(** [WordService.getUptime(now)], for the start time of the service. *)
Definition WordService_getUptime (startTime now : Z) : string :=
  format (now - startTime).

(** [BotManager.getUptime()]; [None] is a start time still [null]. *)
Definition BotManager_getUptime (startTime : option Z) (now : Z) : string :=
  match startTime with
  | None => "0m"
  | Some start => format (now - start)
  end.

(** [Logger.getUptime()]: minutes and seconds. *)
Definition Logger_getUptime (startTime now : Z) : string :=
  let diff := now - startTime in
  pretty (diff / MINUTE) +:+ "m " +:+ pretty (Z.rem diff MINUTE / 1000) +:+ "s".

End Uptime.

(* ================================================================== *)
(** ** WordService.js and UserService.js: the administrative functions *)
(* ================================================================== *)

Module Admin.

(** [WordService.getWordByIndex(index)] for an integer index; [None] is
    [null]. *)
Definition getWordByIndex (index : Z) (s : WordService.t) : option Word :=
  if (0 <=? index) && (index <? Z.of_nat (length (WordService.words s)))
  then WordService.words s !! Z.to_nat index
  else None.

(** [UserService.getAllUsers()] *)
Definition getAllUsers (s : UserService.t) : gmap JS.userId UserService.UserData :=
  UserService.users s.

(** [UserService.clearUserData(userId)] *)
Definition clearUserData (userId : JS.userId) (s : UserService.t) : UserService.t :=
  UserService.set_users (delete userId (UserService.users s)) s.

(** Recording a sequence of requests, one [recordRequest] per user id. *)
Definition recordRequests (ids : list JS.userId) (s : WordService.t) : WordService.t :=
  foldl (λ s userId, WordService.recordRequest userId s) s ids.

End Admin.

(* ================================================================== *)
(** ** CommandHandler.js: the handlers *)
(* ================================================================== *)

Module CommandHandler.

(** The fields of a Telegram message the handlers read.  [from_id] is
    [msg.from.id], [None] when the message has no [from] (a channel post);
    [text] is [None] for a message without text. *)
Record Message : Type := mkMessage {
  from_id : option JS.userId;
  chat_id : Z;
  text : option string
}.

(** The texts the handlers send: the constants of [Constants.MESSAGES] by
    name, and each template with the values it interpolates. *)
Inductive reply : Type :=
| WELCOME
| HELP
| UNKNOWN_COMMAND
| NO_WORDS_AVAILABLE
| NO_HISTORY
| DIFFICULTY_CHANGED
| INVALID_DIFFICULTY
| WordMessage (w : Word) (usedWords totalWords : nat) (cycleProgress : float)
              (streak : nat)
| StatsMessage (stats : WordService.Stats)
| WordOfTheDayMessage (w : Word)
| HistoryMessage (entries : list UserService.HistoryEntry) (total : nat)
| RandomMessage (w : Word)
| DifficultyHelp (current : string)
| ShareMessage (w : Word)
| ErrorMessage.

(** The two services of the handler and the messages handed to
    [bot.sendMessage], oldest first, each with its chat id. *)
Record state : Type := mkState {
  wordService : WordService.t;
  userService : UserService.t;
  sent : list (Z * reply)
}.

(** What a handler reads from outside during one call: the value of
    [Math.random()], today's date text and the three clock readings of
    [addToHistory]. *)
Record world : Type := mkWorld {
  random : JS.random;
  today : string;
  tEntry : Z;
  tUsed : Z;
  tNow : Z
}.

Definition set_wordService (ws : WordService.t) (st : state) : state :=
  mkState ws (userService st) (sent st).

Definition set_userService (us : UserService.t) (st : state) : state :=
  mkState (wordService st) us (sent st).

(** [await this.bot.sendMessage(chatId, message, ...)] *)
Definition sendMessage (chatId : Z) (message : reply) (st : state) : state :=
  mkState (wordService st) (userService st) (sent st ++ [(chatId, message)]).

(** A handler ends normally ([None]) or throws; the state is the one it
    leaves behind in both cases. *)
Definition result : Type := state * option JS.error.

Definition handler : Type := Message → world → state → result.

(** Reading [from.id] of a message without [from]. *)
Definition no_sender : JS.error :=
  JS.TypeError "Cannot read properties of undefined (reading 'id')".

(** Reading a property of [undefined] or [null] further on. *)
Definition no_value : JS.error :=
  JS.TypeError "Cannot read properties of undefined".

(** The opening of every handler: [from.id] is read and validated, and the
    request is recorded; the rest of the handler runs on a valid id. *)
Definition withSender (msg : Message) (st : state)
    (body : JS.userId → state → result) : result :=
  match from_id msg with
  | None => (st, Some no_sender)
  | Some userId =>
      if negb (Validator.isValidUserId userId) then (st, None)
      else body userId
             (set_wordService (WordService.recordRequest userId (wordService st)) st)
  end.

(** [handleStart(msg)] *)
Definition handleStart : handler := λ msg w st,
  withSender msg st (λ userId st, (sendMessage (chat_id msg) WELCOME st, None)).

(** [handleWord(msg)] *)
Definition handleWord : handler := λ msg w st,
  withSender msg st (λ userId st,
    if negb (WordService.isReady (wordService st))
    then (sendMessage (chat_id msg) NO_WORDS_AVAILABLE st, None)
    else
      let '(randomWord, ws) := WordService.getRandomWord (random w) (wordService st) in
      let st := set_wordService ws st in
      match randomWord with
      | None => (sendMessage (chat_id msg) NO_WORDS_AVAILABLE st, None)
      | Some selected =>
          let us :=
            UserService.addToHistory userId (Some selected)
              (tEntry w) (tUsed w) (tNow w) (userService st) in
          let stats := WordService.getStats (wordService st) in
          let '(userStats, us) := UserService.getUserStats userId us in
          let st := set_userService us st in
          match userStats with
          | None => (st, Some no_value)
          | Some view =>
              (sendMessage (chat_id msg)
                 (WordMessage selected
                    (WordService.stats_usedWords stats)
                    (WordService.stats_totalWords stats)
                    (WordService.stats_cycleProgress stats)
                    (UserService.view_streak view)) st, None)
          end
      end).

(** [handleStats(msg)] *)
Definition handleStats : handler := λ msg w st,
  withSender msg st (λ userId st,
    (sendMessage (chat_id msg)
       (StatsMessage (WordService.getStats (wordService st))) st, None)).

(** The closing line of the statistics text, chosen by
    [stats.remainingWords === 0]: "All words have been shown! Next /word
    will start a new cycle." or "Keep exploring to see all our linguistic
    gems!". *)
Inductive closing_line : Type :=
| NEXT_WORD_STARTS_NEW_CYCLE
| KEEP_EXPLORING.

Definition statsClosingLine (stats : WordService.Stats) : closing_line :=
  if WordService.stats_remainingWords stats =? 0
  then NEXT_WORD_STARTS_NEW_CYCLE else KEEP_EXPLORING.

(** [handleHelp(msg)] *)
Definition handleHelp : handler := λ msg w st,
  withSender msg st (λ userId st, (sendMessage (chat_id msg) HELP st, None)).

(** [handleWordOfTheDay(msg)] *)
Definition handleWordOfTheDay : handler := λ msg w st,
  withSender msg st (λ userId st,
    if negb (WordService.isReady (wordService st))
    then (sendMessage (chat_id msg) NO_WORDS_AVAILABLE st, None)
    else
      let words := WordService.words (wordService st) in
      let '(wordOfTheDay, us) :=
        UserService.getWordOfTheDay words (today w) (random w) (userService st) in
      match wordOfTheDay with
      | JS.Thrown e => (set_userService us st, Some e)
      | JS.Returned selected =>
          let us :=
            UserService.addToHistory userId (Some selected)
              (tEntry w) (tUsed w) (tNow w) us in
          (sendMessage (chat_id msg) (WordOfTheDayMessage selected)
             (set_userService us st), None)
      end).

(** [handleHistory(msg)] *)
Definition handleHistory : handler := λ msg w st,
  withSender msg st (λ userId st,
    let '(history, us) := UserService.getHistory userId 10 (userService st) in
    let st := set_userService us st in
    if (length history =? 0)%nat
    then (sendMessage (chat_id msg) NO_HISTORY st, None)
    else (sendMessage (chat_id msg) (HistoryMessage history (length history)) st, None)).

(** [handleRandom(msg)] *)
Definition handleRandom : handler := λ msg w st,
  withSender msg st (λ userId st,
    if negb (WordService.isReady (wordService st))
    then (sendMessage (chat_id msg) NO_WORDS_AVAILABLE st, None)
    else
      let words := WordService.words (wordService st) in
      match UserService.getRandomWord words (random w) with
      | JS.Thrown e => (st, Some e)
      | JS.Returned randomWord =>
          let us :=
            UserService.addToHistory userId randomWord
              (tEntry w) (tUsed w) (tNow w) (userService st) in
          let st := set_userService us st in
          match randomWord with
          | None => (st, Some no_value)
          | Some selected =>
              (sendMessage (chat_id msg) (RandomMessage selected) st, None)
          end
      end).

Definition toLowerCase_char (c : ascii) : ascii :=
  let n := nat_of_ascii c in
  if ((65 <=? n) && (n <=? 90))%nat then ascii_of_nat (n + 32) else c.

(** [s.toLowerCase()] on ASCII text. *)
Fixpoint toLowerCase (s : string) : string :=
  match s with
  | EmptyString => EmptyString
  | String c rest => String (toLowerCase_char c) (toLowerCase rest)
  end.

(** [s.includes(part)] *)
Fixpoint includes (s part : string) : bool :=
  String.prefix part s ||
  match s with
  | EmptyString => false
  | String _ rest => includes rest part
  end.

(** [handleDifficulty(msg)] *)
Definition handleDifficulty : handler := λ msg w st,
  withSender msg st (λ userId st,
    match text msg with
    | None => (st, Some no_value)
    | Some t =>
        let lower := toLowerCase t in
        let difficulty :=
          if includes lower "easy" then Some "easy"
          else if includes lower "hard" then Some "hard"
          else if includes lower "medium" then Some "medium"
          else None in
        match difficulty with
        | None =>
            let '(userStats, us) := UserService.getUserStats userId (userService st) in
            let st := set_userService us st in
            match userStats with
            | None => (st, Some no_value)
            | Some view =>
                (sendMessage (chat_id msg)
                   (DifficultyHelp (UserService.view_difficulty view)) st, None)
            end
        | Some d =>
            let '(success, us) := UserService.setDifficulty userId d (userService st) in
            let st := set_userService us st in
            if success
            then (sendMessage (chat_id msg) DIFFICULTY_CHANGED st, None)
            else (sendMessage (chat_id msg) INVALID_DIFFICULTY st, None)
        end
    end).

(** [handleShare(msg)] *)
Definition handleShare : handler := λ msg w st,
  withSender msg st (λ userId st,
    if negb (WordService.isReady (wordService st))
    then (sendMessage (chat_id msg) NO_WORDS_AVAILABLE st, None)
    else
      let words := WordService.words (wordService st) in
      match UserService.getRandomWord words (random w) with
      | JS.Thrown e => (st, Some e)
      | JS.Returned None => (st, Some no_value)
      | JS.Returned (Some shareWord) =>
          (sendMessage (chat_id msg) (ShareMessage shareWord) st, None)
      end).

(** [handleUnknownCommand(msg)] *)
Definition handleUnknownCommand : handler := λ msg w st,
  withSender msg st (λ userId st,
    (sendMessage (chat_id msg) UNKNOWN_COMMAND st, None)).

(** [handleError(chatId, error)]: the generic failure text is sent. *)
Definition handleError (chatId : Z) (st : state) : state :=
  sendMessage chatId ErrorMessage st.

(** [this.commands.get(command)] after [initializeCommands()]. *)
Definition commands (command : string) : option handler :=
  if String.eqb command Constants.START then Some handleStart
  else if String.eqb command Constants.WORD then Some handleWord
  else if String.eqb command Constants.STATS then Some handleStats
  else if String.eqb command Constants.HELP then Some handleHelp
  else if String.eqb command Constants.WORD_OF_THE_DAY then Some handleWordOfTheDay
  else if String.eqb command Constants.HISTORY then Some handleHistory
  else if String.eqb command Constants.RANDOM then Some handleRandom
  else if String.eqb command Constants.DIFFICULTY then Some handleDifficulty
  else if String.eqb command Constants.SHARE then Some handleShare
  else None.

(** [executeCommand(command, msg)] *)
Definition executeCommand (command : string) : handler := λ msg w st,
  match commands command with
  | None => (st, None)
  | Some h => h msg w st
  end.

(** The callback [registerCommand] gives to [bot.onText]: the command is
    executed, and an error it throws is caught and answered through
    [handleError]. *)
Definition onTextCallback (command : string) (msg : Message) (w : world)
    (st : state) : state :=
  match executeCommand command msg w st with
  | (st, None) => st
  | (st, Some _) => handleError (chat_id msg) st
  end.

End CommandHandler.

(* ================================================================== *)
(** ** BotManager.js: the message loop *)
(* ================================================================== *)

Module BotManager.

(** The counters and flags of the manager that the message loop touches. *)
Record t : Type := mk {
  isShuttingDown : bool;
  totalMessages : nat;
  errors : nat
}.

(** [handleMessage(msg)] with the handler it calls. *)
Definition handleMessage (msg : CommandHandler.Message) (w : CommandHandler.world)
    (m : t) (st : CommandHandler.state) : t * CommandHandler.result :=
  match CommandHandler.text msg with
  | None => (m, (st, None))
  | Some t =>
      if String.eqb t "" || isShuttingDown m then (m, (st, None))
      else
        let m := mk (isShuttingDown m) (S (totalMessages m)) (errors m) in
        let isCommand := existsb (λ cmd, Bot.startsWith t cmd) Constants.COMMANDS in
        if negb isCommand
        then (m, CommandHandler.handleUnknownCommand msg w st)
        else (m, (st, None))
  end.

(** The ['message'] listener of [setupEventHandlers]: an error thrown by
    [handleMessage] is caught and counted. *)
Definition onMessage (msg : CommandHandler.Message) (w : CommandHandler.world)
    (m : t) (st : CommandHandler.state) : t * CommandHandler.state :=
  match handleMessage msg w m st with
  | (m, (st, None)) => (m, st)
  | (m, (st, Some _)) => (mk (isShuttingDown m) (totalMessages m) (S (errors m)), st)
  end.

(** The callbacks of the registered patterns that match the text, run in
    registration order. *)
Definition onTextCallbacks (msg : CommandHandler.Message) (w : CommandHandler.world)
    (st : CommandHandler.state) : CommandHandler.state :=
  match CommandHandler.text msg with
  | None => st
  | Some t =>
      if String.eqb t "" then st
      else
        foldl (λ st command, CommandHandler.onTextCallback command msg w st) st
              (filter (λ c, Bot.commandRegExp_test c t = true) Bot.registered)
  end.

(** One incoming message: the ['message'] listener, then the callbacks of
    the matching patterns. *)
Definition processUpdate (msg : CommandHandler.Message) (w : CommandHandler.world)
    (m : t) (st : CommandHandler.state) : t * CommandHandler.state :=
  let '(m, st) := onMessage msg w m st in
  (m, onTextCallbacks msg w st).

(** [stop()]: the flag is set; a second call returns at once. *)
Definition stop (m : t) : t :=
  if isShuttingDown m then m
  else mk true (totalMessages m) (errors m).

End BotManager.

(** The reading of "a positive integer" for a user id: an integer-valued
    number above zero. *)
Definition spec_positive_integer (userId : JS.userId) : Prop :=
  ∃ n : Z, userId = JS.IdNum n ∧ 0 < n.

(** Two draws used in the examples: [0] and [2/3]. *)
Definition draw_0 : JS.random := JS.mkRandom 0 1 (le_n 1).
Definition draw_two_thirds : JS.random := JS.mkRandom 2 3 (le_n 3).

(** The first two fallback entries. *)
Definition serendipity : Word :=
  mkWord "Serendipity"
    "The occurrence of fortunate and unexpected discoveries by chance." "🧠".

Definition peregrine : Word :=
  mkWord "Peregrine" "Uncommon, strange, or wandering." "📘".

(** 2026-11-02T00:00:00Z in milliseconds. *)
Definition an_instant : Z := 1793577600000.

(** Sixty recordings of a word, one millisecond apart. *)
Definition sixty_events : list (Word * (Z * Z * Z)) :=
  (λ i : nat, let t := an_instant + Z.of_nat i in (serendipity, (t, t, t))) <$> seq 0 60.

(** A word source with forty valid entries, whose texts are
    ["a"], ["aa"], ["aaa"], and so on. *)
Definition forty_entries : Validator.json :=
  Validator.JArray
    ((λ i : nat,
        Validator.JObject
          [ ("word", Validator.JString (string_of_list_ascii (replicate (S i) "a"%char)));
            ("definition", Validator.JString "A run of the first letter.");
            ("emoji", Validator.JString "*") ])
     <$> seq 0 40).

(** The service started on that source, after 23 selections. *)
Definition after_23_of_40 : WordService.t :=
  (Catalog.getRandomWords (replicate 23 draw_0)
     (WordService.initialize (WordService.Parsed forty_entries) WordService.new).2).2.

(** The service after a successful start on a source with no valid entry:
    initialised, with the three fallback words. *)
Definition fallback_service : WordService.t :=
  (WordService.initialize (WordService.Parsed (Validator.JArray [])) WordService.new).2.

(** A handler call that ends normally with exactly one message sent to the
    chat of the message, not the error text, and one request recorded. *)
Definition replies_once (msg : CommandHandler.Message) (st : CommandHandler.state)
    (res : CommandHandler.result) : Prop :=
  ∃ r st', res = (st', None) ∧
           CommandHandler.sent st'
           = CommandHandler.sent st ++ [(CommandHandler.chat_id msg, r)] ∧
           r ≠ CommandHandler.ErrorMessage ∧
           WordService.totalRequests (CommandHandler.wordService st')
           = S (WordService.totalRequests (CommandHandler.wordService st)).

(** The difficulty stored for a user, [None] without a profile. *)
Definition difficultyOf (userId : JS.userId) (us : UserService.t) : option string :=
  UserService.difficulty <$> UserService.users us !! userId.

(** Every stored difficulty of the first service is the same in the second. *)
Definition keeps_difficulty (us us' : UserService.t) : Prop :=
  ∀ userId d, difficultyOf userId us = Some d → difficultyOf userId us' = Some d.

(** Between two handler states nothing was sent, or one message to the
    chat of [msg]. *)
Definition quiet_or_one (msg : CommandHandler.Message)
    (st st' : CommandHandler.state) : Prop :=
  CommandHandler.sent st' = CommandHandler.sent st ∨
  ∃ r, CommandHandler.sent st'
       = CommandHandler.sent st ++ [(CommandHandler.chat_id msg, r)].

(** What a handler call may send: at most one message when it ends
    normally, none when it throws. *)
Definition handler_sends (msg : CommandHandler.Message) (st : CommandHandler.state)
    (res : CommandHandler.result) : Prop :=
  match res.2 with
  | None => quiet_or_one msg st res.1
  | Some _ => CommandHandler.sent res.1 = CommandHandler.sent st
  end.

(** What the handlers read from outside in the examples. *)
Definition a_world : CommandHandler.world :=
  CommandHandler.mkWorld draw_two_thirds "Mon Nov 02 2026"
    an_instant an_instant an_instant.

(** The handler state of a bot that has just started on the fallback words. *)
Definition ready_state : CommandHandler.state :=
  CommandHandler.mkState fallback_service UserService.new [].

(** A [/word] message whose sender id is 0, one without a sender, and one
    from user 42, all in chat 7. *)
Definition message_from_nobody : CommandHandler.Message :=
  CommandHandler.mkMessage (Some (JS.IdNum 0)) 7 (Some "/word").

Definition channel_post : CommandHandler.Message :=
  CommandHandler.mkMessage None 7 (Some "/word").

Definition message_from_42 (text : string) : CommandHandler.Message :=
  CommandHandler.mkMessage (Some (JS.IdNum 42)) 7 (Some text).

(** The handler state after user 42 has asked for one word. *)
Definition state_with_profile : CommandHandler.state :=
  (CommandHandler.handleWord (message_from_42 "/word") a_world ready_state).1.

(** Five recordings of a word on five consecutive days. *)
Definition daily_events : list (Word * (Z * Z * Z)) :=
  (λ i : nat,
     let t := an_instant + Z.of_nat i * UserService.day_ms in (peregrine, (t, t, t)))
  <$> seq 0 5.

(** A word source with one blank entry, one valid entry whose text is
    padded with spaces, and one entry that lacks its emoji. *)
Definition peregrine_source : Validator.json :=
  Validator.JArray
    [ Validator.JObject
        [ ("word", Validator.JString "   ");
          ("definition", Validator.JString "Blank.");
          ("emoji", Validator.JString "*") ];
      Validator.JObject
        [ ("word", Validator.JString " Peregrine ");
          ("definition", Validator.JString "Uncommon, strange, or wandering.");
          ("emoji", Validator.JString "*") ];
      Validator.JObject
        [ ("word", Validator.JString "Ineffable");
          ("definition", Validator.JString "Too great to be expressed.") ] ].

Definition peregrine_source_word : Word :=
  mkWord " Peregrine " "Uncommon, strange, or wandering." "*".

(** A text that still has a character after [trim()]:
    [text.trim().length > 0]. *)
Definition not_blank (text : string) : Prop :=
  (0 < JS.string_length (JS.trim text))%nat.

(** The no-break space U+00A0, in UTF-8. *)
Definition nbsp : string :=
  String (ascii_of_nat 194) (String (ascii_of_nat 160) EmptyString).

(** A word source whose only entry has a no-break space for its text. *)
Definition nbsp_source : Validator.json :=
  Validator.JArray
    [ Validator.JObject
        [ ("word", Validator.JString nbsp);
          ("definition", Validator.JString "Nothing to see.");
          ("emoji", Validator.JString "*") ] ].

(** A word source with the two entries Alpha and Beta. *)
Definition alpha : Word := mkWord "Alpha" "The first letter of the Greek alphabet." "*".

Definition beta : Word := mkWord "Beta" "The second letter of the Greek alphabet." "*".

Definition alpha_beta_source : Validator.json :=
  Validator.JArray
    ((λ w : Word,
        Validator.JObject
          [ ("word", Validator.JString (word w));
            ("definition", Validator.JString (definition w));
            ("emoji", Validator.JString (emoji w)) ])
     <$> [alpha; beta]).

(** What one [/word] message does to the word service while a reload is
    waiting for its file: the request of user 42 is recorded and a word is
    selected with the draw 0. *)
Definition word_request_during_reload : list WordService.operation :=
  [WordService.RecordRequest (JS.IdNum 42); WordService.Select draw_0].

(* ================================================================== *)
(** * Properties *)
(* ================================================================== *)

(** ** Random index *)

Lemma floor_mul_lt (r : JS.random) (n : nat) :
  (0 < n)%nat → (JS.floor_mul r n < n)%nat.
Proof.
  intros Hn. unfold JS.floor_mul.
  pose proof (JS.rrange r) as Hr.
  apply Nat.Div0.div_lt_upper_bound. nia.
Qed.

Lemma floor_mul_0 (r : JS.random) : JS.floor_mul r 0 = 0%nat.
Proof. unfold JS.floor_mul. by rewrite Nat.mul_0_r, Nat.Div0.div_0_l. Qed.

(** ** The no-repeat selector *)

Section Selector.

Import WordService Catalog.

Implicit Types (s : WordService.t) (r : JS.random) (w : Word).

Lemma availableWords_elem s w :
  w ∈ availableWords s ↔ (word w ∉ usedWords s) ∧ (w ∈ words s).
Proof. unfold availableWords. by rewrite list_elem_of_filter. Qed.

Lemma availableWords_resetCycle s : availableWords (resetCycle s) = words s.
Proof.
  unfold availableWords, resetCycle. simpl.
  induction (words s) as [|w ws IH]; [done|].
  rewrite filter_cons_True by set_solver. by rewrite IH.
Qed.

(** With pairwise distinct texts, a used set smaller than the sequence leaves
    a word available. *)
Lemma availableWords_nonempty s :
  NoDup (texts s) →
  (size (usedWords s) < length (words s))%nat →
  availableWords s ≠ [].
Proof.
  intros Hnd Hlt Hnil.
  assert (list_to_set (texts s) ⊆ usedWords s) as Hsub.
  { intros k Hk. apply elem_of_list_to_set in Hk.
    unfold texts in Hk. apply list_elem_of_fmap in Hk as (w & -> & Hw).
    destruct (decide (word w ∈ usedWords s)) as [|Hn]; [done|].
    assert (w ∈ availableWords s) as Hin by (by apply availableWords_elem).
    rewrite Hnil in Hin. by apply not_elem_of_nil in Hin. }
  apply subseteq_size in Hsub.
  rewrite size_list_to_set in Hsub by done.
  unfold texts in Hsub. rewrite length_fmap in Hsub. lia.
Qed.

Lemma afterResetCheck_available s :
  words s ≠ [] → NoDup (texts s) → availableWords (afterResetCheck s) ≠ [].
Proof.
  intros Hne Hnd. unfold afterResetCheck.
  destruct (Nat.leb_spec (length (words s)) (size (usedWords s))).
  - by rewrite availableWords_resetCycle.
  - by apply availableWords_nonempty.
Qed.

(** One call that passes the guard and finds a word available. *)
Lemma getRandomWord_selects r s :
  isInitialized s = true →
  words s ≠ [] →
  availableWords (afterResetCheck s) ≠ [] →
  ∃ w, w ∈ availableWords (afterResetCheck s) ∧
       getRandomWord r s =
         (Some w, set_usedWords ({[ word w ]} ∪ usedWords (afterResetCheck s))
                                (afterResetCheck s)).
Proof.
  intros Hinit Hne Hav. unfold getRandomWord. rewrite Hinit. simpl.
  destruct (words s) as [|w0 ws] eqn:Hws; [done|]. simpl length at 1.
  replace (S (length ws) =? 0)%nat with false by done.
  fold (afterResetCheck s) in *. rewrite <- Hws in *.
  change (if (length (words s) <=? size (usedWords s))%nat then resetCycle s else s)
    with (afterResetCheck s).
  destruct (availableWords (afterResetCheck s)) as [|a av] eqn:Hav'; [done|].
  set (i := JS.floor_mul r (length (a :: av))).
  assert (i < length (a :: av))%nat as Hi by (apply floor_mul_lt; simpl; lia).
  destruct (lookup_lt_is_Some_2 _ _ Hi) as [w Hw].
  exists w. split.
  - by eapply list_elem_of_lookup_2.
  - by rewrite (nth_lookup_Some _ _ _ _ Hw).
Qed.

(** The guard: not initialised, or no words. *)
Lemma getRandomWord_guard r s :
  isInitialized s = false ∨ words s = [] → getRandomWord r s = (None, s).
Proof.
  intros [Hi | Hw]; unfold getRandomWord.
  - by rewrite Hi.
  - rewrite Hw. simpl. by rewrite orb_true_r.
Qed.

(** Every call is one of three cases: stopped by the guard, stopped because
    no word is available, or a selection. *)
Lemma getRandomWord_cases r s :
  (getRandomWord r s = (None, s) ∧ (isInitialized s = false ∨ words s = [])) ∨
  (isInitialized s = true ∧ words s ≠ [] ∧
   availableWords (afterResetCheck s) = [] ∧
   getRandomWord r s = (None, afterResetCheck s)) ∨
  (isInitialized s = true ∧ words s ≠ [] ∧
   ∃ w, w ∈ availableWords (afterResetCheck s) ∧
        getRandomWord r s =
          (Some w, set_usedWords ({[ word w ]} ∪ usedWords (afterResetCheck s))
                                 (afterResetCheck s))).
Proof.
  destruct (isInitialized s) eqn:Hinit.
  2:{ left. split; [|by left]. apply getRandomWord_guard. by left. }
  destruct (decide (words s = [])) as [Hw|Hw].
  { left. split; [|by right]. apply getRandomWord_guard. by right. }
  right.
  destruct (decide (availableWords (afterResetCheck s) = [])) as [Hav|Hav].
  - left. repeat split; try done.
    unfold getRandomWord. rewrite Hinit. simpl.
    destruct (words s) as [|w0 ws] eqn:Hws; [done|]. simpl length at 1.
    replace (S (length ws) =? 0)%nat with false by done.
    rewrite <- Hws in *.
    change (if (length (words s) <=? size (usedWords s))%nat then resetCycle s else s)
      with (afterResetCheck s).
    by rewrite Hav.
  - right. repeat split; try done. by apply getRandomWord_selects.
Qed.

Lemma afterResetCheck_words s : words (afterResetCheck s) = words s.
Proof. unfold afterResetCheck. by destruct (_ <=? _)%nat. Qed.

Lemma afterResetCheck_isInitialized s :
  isInitialized (afterResetCheck s) = isInitialized s.
Proof. unfold afterResetCheck. by destruct (_ <=? _)%nat. Qed.

Lemma afterResetCheck_usedWords s :
  usedWords (afterResetCheck s) ⊆ usedWords s.
Proof. unfold afterResetCheck. destruct (_ <=? _)%nat; simpl; set_solver. Qed.

Lemma afterResetCheck_below s :
  (size (usedWords s) < length (words s))%nat → afterResetCheck s = s.
Proof.
  intros H. unfold afterResetCheck.
  destruct (Nat.leb_spec (length (words s)) (size (usedWords s))); [lia|done].
Qed.

Lemma afterResetCheck_covered s :
  (length (words s) ≤ size (usedWords s))%nat →
  afterResetCheck s = resetCycle s.
Proof.
  intros H. unfold afterResetCheck.
  destruct (Nat.leb_spec (length (words s)) (size (usedWords s))); [done|lia].
Qed.

(** A call changes neither the word sequence nor the initialised flag. *)
Lemma getRandomWord_frame r s :
  words (getRandomWord r s).2 = words s ∧
  isInitialized (getRandomWord r s).2 = isInitialized s.
Proof.
  destruct (getRandomWord_cases r s) as [[-> _] | [(_ & _ & _ & ->) | (_ & _ & w & _ & ->)]];
    simpl; auto using afterResetCheck_words, afterResetCheck_isInitialized.
Qed.

(** What a successful call returns and how it leaves the used set. *)
Lemma getRandomWord_Some r s w s' :
  getRandomWord r s = (Some w, s') →
  w ∈ words s ∧
  ((size (usedWords s) < length (words s))%nat →
     (word w ∉ usedWords s) ∧ usedWords s' = {[ word w ]} ∪ usedWords s) ∧
  ((length (words s) ≤ size (usedWords s))%nat → usedWords s' = {[ word w ]}).
Proof.
  intros Hcall.
  destruct (getRandomWord_cases r s)
    as [[Heq _] | [(_ & _ & _ & Heq) | (_ & _ & w' & Hw' & Heq)]];
    rewrite Heq in Hcall; [done | done |].
  injection Hcall as -> <-.
  apply availableWords_elem in Hw' as [Hfresh Hin].
  rewrite afterResetCheck_words in Hin. split; [done|]. split.
  - intros Hlt. rewrite afterResetCheck_below in * by done. by simpl.
  - intros Hle. rewrite afterResetCheck_covered by done. simpl. set_solver.
Qed.

(** [null] is returned exactly under the guard when the texts are pairwise
    distinct. *)
Lemma getRandomWord_None r s :
  NoDup (texts s) →
  (getRandomWord r s).1 = None ↔ isInitialized s = false ∨ words s = [].
Proof.
  intros Hnd. split.
  - intros Hnone.
    destruct (getRandomWord_cases r s)
      as [[_ Hg] | [(_ & Hne & Hav & _) | (_ & _ & w & _ & Heq)]]; [done | |].
    + by apply afterResetCheck_available in Hav.
    + by rewrite Heq in Hnone.
  - intros H. by rewrite getRandomWord_guard.
Qed.

(** From a state with room for them, [length rs] calls select that many
    words with pairwise distinct texts, none of them used before, and no call
    clears the used set. *)
Lemma getRandomWords_fill rs : ∀ s,
  isInitialized s = true →
  NoDup (texts s) →
  (size (usedWords s) + length rs ≤ length (words s))%nat →
  ∃ ws, (getRandomWords rs s).1 = Some <$> ws ∧
        length ws = length rs ∧
        NoDup (word <$> ws) ∧
        (∀ w, w ∈ ws → w ∈ words s ∧ word w ∉ usedWords s) ∧
        usedWords (getRandomWords rs s).2 = list_to_set (word <$> ws) ∪ usedWords s ∧
        words (getRandomWords rs s).2 = words s ∧
        isInitialized (getRandomWords rs s).2 = true.
Proof.
  induction rs as [|r rs IH]; intros s Hinit Hnd Hroom.
  { exists []. simpl. split_and!; try done.
    - constructor.
    - intros w Hw. by apply not_elem_of_nil in Hw.
    - set_solver. }
  simpl in Hroom.
  assert (size (usedWords s) < length (words s))%nat as Hlt by lia.
  assert (words s ≠ []) as Hne by (intros E; rewrite E in Hlt; simpl in Hlt; lia).
  destruct (getRandomWord_selects r s Hinit Hne (afterResetCheck_available s Hne Hnd))
    as (w & Hw & Hcall).
  rewrite afterResetCheck_below in Hw, Hcall by done.
  apply availableWords_elem in Hw as [Hfresh Hin].
  set (s1 := set_usedWords ({[ word w ]} ∪ usedWords s) s) in *.
  assert (size (usedWords s1) = S (size (usedWords s))) as Hsize.
  { simpl. rewrite size_union by set_solver. by rewrite size_singleton. }
  destruct (IH s1) as (ws & Hres & Hlen & Hnd' & Hall & Hused & Hwords & Hinit');
    [done | done | simpl in *; lia |].
  exists (w :: ws). simpl. rewrite Hcall.
  destruct (getRandomWords rs s1) as [ress s2] eqn:Hrun. simpl in *.
  split_and!.
  - by rewrite Hres.
  - by rewrite Hlen.
  - apply NoDup_cons. split; [|done].
    intros Hdup. apply list_elem_of_fmap in Hdup as (w' & Heq & Hw').
    destruct (Hall w' Hw') as [_ Hn]. rewrite <- Heq in Hn. set_solver.
  - intros w' Hw'. apply elem_of_cons in Hw' as [-> | Hw']; [done|].
    destruct (Hall w' Hw') as [Hin' Hn]. split; [done|]. set_solver.
  - rewrite Hused. set_solver.
  - done.
  - done.
Qed.

End Selector.

(** A service that failed to read its source: the fallback words are loaded
    and the service is not initialised. *)
Lemma initialize_unreadable_state :
  WordService.initialize WordService.Unreadable WordService.new
  = (false, WordService.mk Constants.FALLBACK_WORDS ∅ 0 ∅ 1 false).
Proof. reflexivity. Qed.

(** C1, as stated, fails: [null] is not returned only for an empty word
    sequence.  After a failed load the three fallback words are active, the
    service is not initialised, and [getRandomWord] returns [null]. *)
Lemma getRandomWord_null_with_words :
  ¬ (∀ (r : JS.random) (s : WordService.t),
       (WordService.getRandomWord r s).1 = None → WordService.words s = []).
Proof.
  intros H.
  specialize (H draw_0
    (WordService.initialize WordService.Unreadable WordService.new).2).
  rewrite initialize_unreadable_state in H. simpl in H.
  specialize (H eq_refl). discriminate H.
Qed.

(** The other way to [null]: two entries with one text.  Once that text is
    used, the used set (size 1) never covers the sequence (length 2), no word
    is available and no reset happens. *)
Lemma getRandomWord_null_with_duplicate_texts :
  let twice := [mkWord "Peregrine" "Uncommon." "a"; mkWord "Peregrine" "Wandering." "b"] in
  let s := WordService.mk twice ∅ 0 ∅ 1 true in
  let s1 := (WordService.getRandomWord draw_0 s).2 in
  (WordService.getRandomWord draw_0 s).1 = Some (mkWord "Peregrine" "Uncommon." "a") ∧
  (WordService.getRandomWord draw_0 s1).1 = None ∧
  (WordService.getRandomWord draw_0 s1).2 = s1.
Proof. vm_compute. done. Qed.

(** C1 (amended): a word returned by [getRandomWord] belongs to the
    sequence, its text was not in the used set unless this call cleared the
    set first, and the text is added to the set.  For a word sequence with
    pairwise distinct texts, [getRandomWord] returns [null] exactly when the
    service is not initialised or the sequence is empty; and starting from an
    empty used set, [|words|] calls return [|words|] words with pairwise
    distinct texts without any reset, after which the used set has [|words|]
    elements and the next call clears it first and succeeds. *)
Theorem getRandomWord_no_repeat_until_reset (s : WordService.t) (r : JS.random) :
  (∀ w s', WordService.getRandomWord r s = (Some w, s') →
     w ∈ WordService.words s ∧
     ((size (WordService.usedWords s) < length (WordService.words s))%nat →
        (word w ∉ WordService.usedWords s) ∧
        WordService.usedWords s' = {[ word w ]} ∪ WordService.usedWords s) ∧
     ((length (WordService.words s) ≤ size (WordService.usedWords s))%nat →
        WordService.usedWords s' = {[ word w ]})) ∧
  (NoDup (Catalog.texts s) →
   ((WordService.getRandomWord r s).1 = None
      ↔ WordService.isInitialized s = false ∨ WordService.words s = []) ∧
   (WordService.isInitialized s = true →
    WordService.words s ≠ [] →
    WordService.usedWords s = ∅ →
    ∀ rs, length rs = length (WordService.words s) →
      ∃ ws, (Catalog.getRandomWords rs s).1 = Some <$> ws ∧
            length ws = length (WordService.words s) ∧
            NoDup (word <$> ws) ∧
            (∀ w, w ∈ ws → w ∈ WordService.words s) ∧
            size (WordService.usedWords (Catalog.getRandomWords rs s).2)
              = length (WordService.words s) ∧
            ∃ w', w' ∈ WordService.words s ∧
                  (WordService.getRandomWord r (Catalog.getRandomWords rs s).2).1 = Some w' ∧
                  WordService.usedWords
                    (WordService.getRandomWord r (Catalog.getRandomWords rs s).2).2
                    = {[ word w' ]})).
Proof.
  split; [intros w s'; apply getRandomWord_Some|].
  intros Hnd. split; [by apply getRandomWord_None|].
  intros Hinit Hne Hempty rs Hlen.
  destruct (getRandomWords_fill rs s Hinit Hnd) as
    (ws & Hres & Hlenws & Hndws & Hall & Hused & Hwords & Hinit').
  { rewrite Hempty, size_empty. lia. }
  set (sn := (Catalog.getRandomWords rs s).2) in *.
  assert (size (WordService.usedWords sn) = length (WordService.words s)) as Hsize.
  { rewrite Hused, Hempty, union_empty_r_L.
    rewrite size_list_to_set by done. rewrite length_fmap. lia. }
  exists ws. split_and!; try done; try lia.
  { intros w Hw. by apply Hall. }
  assert (Catalog.texts sn = Catalog.texts s) as Htexts
    by (unfold Catalog.texts; by rewrite Hwords).
  destruct (getRandomWord_selects r sn) as (w' & Hw' & Hcall).
  { done. }
  { by rewrite Hwords. }
  { apply afterResetCheck_available; [by rewrite Hwords | by rewrite Htexts]. }
  rewrite afterResetCheck_covered in Hw', Hcall by (rewrite Hwords; lia).
  rewrite availableWords_resetCycle, Hwords in Hw'.
  exists w'. rewrite Hcall. simpl. split_and!; [done | done | set_solver].
Qed.

Lemma getRandomWord_no_repeat_until_reset_witness :
  NoDup (Catalog.texts fallback_service) ∧
  ((WordService.getRandomWord draw_two_thirds fallback_service).1 = None
     ↔ WordService.isInitialized fallback_service = false
       ∨ WordService.words fallback_service = []).
Proof.
  assert (NoDup (Catalog.texts fallback_service)) as H
    by (apply (bool_decide_unpack _); vm_compute; exact I).
  split; [exact H|].
  exact (proj1 (proj2 (getRandomWord_no_repeat_until_reset
                         fallback_service draw_two_thirds) H)).
Defined.

(** The end-to-end run on the fallback words: three calls return the three
    words, each once, and the fourth call, after the implicit reset, returns
    a word again. *)
Example getRandomWords_fallback_run :
  (Catalog.getRandomWords [draw_0; draw_0; draw_0; draw_0] fallback_service).1
  = (Some <$> Constants.FALLBACK_WORDS) ++ [Some serendipity].
Proof. vm_compute. reflexivity. Qed.

(** ** The invariant of the selector state *)

Section Invariant.

Import WordService Catalog.

Implicit Types (s : WordService.t) (r : JS.random).

Lemma loadWords_resume_usedWords src s :
  usedWords (loadWords_resume src s).2 = usedWords s.
Proof.
  destruct src as [| | v]; try done.
  unfold loadWords_resume. simpl.
  by destruct (length (Validator.validWords (Validator.validateWordsArray v)) =? 0)%nat.
Qed.

Lemma loadWords_usedWords src s : usedWords (loadWords src s).2 = usedWords s.
Proof. unfold loadWords. by rewrite loadWords_resume_usedWords. Qed.

(** A selection leaves the used set as it was, or smaller, or adds to it the
    text of the word it returns, which is a word of the sequence. *)
Lemma getRandomWord_usedWords r s :
  usedWords (getRandomWord r s).2 ⊆ usedWords s ∨
  ∃ w, w ∈ words s ∧ (getRandomWord r s).1 = Some w ∧
       usedWords (getRandomWord r s).2 ⊆ {[ word w ]} ∪ usedWords s.
Proof.
  destruct (getRandomWord_cases r s)
    as [[-> _] | [(_ & _ & _ & ->) | (_ & _ & w & Hw & ->)]]; simpl.
  - by left.
  - left. apply afterResetCheck_usedWords.
  - right. exists w. apply availableWords_elem in Hw as [_ Hin].
    rewrite afterResetCheck_words in Hin. split_and!; [done | done |].
    pose proof (afterResetCheck_usedWords s). set_solver.
Qed.

Lemma invariant_getRandomWord r s :
  invariant s → invariant (getRandomWord r s).2.
Proof.
  unfold invariant, texts. intros Hinv.
  destruct (getRandomWord_frame r s) as [-> _].
  destruct (getRandomWord_usedWords r s) as [Hsub | (w & Hin & _ & Hsub)].
  - set_solver.
  - assert (word w ∈ (list_to_set (word <$> words s) : gset string)).
    { apply elem_of_list_to_set, list_elem_of_fmap. by exists w. }
    set_solver.
Qed.

(** The handlers' operations replace neither the word sequence nor the
    flag. *)
Lemma apply_frame s op :
  words (apply s op) = words s ∧ isInitialized (apply s op) = isInitialized s.
Proof.
  destruct op as [userId | r |]; simpl; [| apply getRandomWord_frame | done].
  unfold recordRequest. by destruct (negb _).
Qed.

Lemma run_frame ops : ∀ s,
  words (run ops s) = words s ∧ isInitialized (run ops s) = isInitialized s.
Proof.
  induction ops as [|op ops IH]; intros s; [done|].
  simpl. destruct (IH (apply s op)) as [-> ->]. apply apply_frame.
Qed.

Lemma invariant_apply s op : invariant s → invariant (apply s op).
Proof.
  intros Hinv. destruct op as [userId | r |]; simpl.
  - unfold recordRequest. by destruct (negb _).
  - by apply invariant_getRandomWord.
  - unfold invariant. simpl. set_solver.
Qed.

Lemma invariant_run ops : ∀ s, invariant s → invariant (run ops s).
Proof.
  induction ops as [|op ops IH]; intros s Hinv; [done|].
  simpl. apply IH. by apply invariant_apply.
Qed.

(** The invariant holds when the service starts: the constructor leaves the
    used set empty and [initialize] does not touch it. *)
Lemma invariant_initialize src : invariant (initialize src new).2.
Proof.
  unfold invariant, initialize.
  destruct (loadWords src new) as [success s] eqn:Hload.
  assert (usedWords s = ∅) as Hused.
  { change s with (success, s).2. rewrite <- Hload. by rewrite loadWords_usedWords. }
  destruct success; simpl; rewrite Hused; set_solver.
Qed.

(** When a reload settles, the used set holds what the handlers selected
    while the file was read: texts of the sequence that is being replaced. *)
Lemma reloadWords_usedWords src during s :
  usedWords (reloadWords src during s).2 = usedWords (run during (reloadWords_start s)) ∧
  usedWords (reloadWords src during s).2 ⊆ list_to_set (texts s).
Proof.
  unfold reloadWords. rewrite loadWords_resume_usedWords. split; [done|].
  assert (invariant (run during (reloadWords_start s))) as Hinv.
  { apply invariant_run. unfold invariant. simpl. set_solver. }
  unfold invariant, texts in *. by rewrite (proj1 (run_frame during _)) in Hinv.
Qed.

(** A reload during which no handler runs leaves the used set empty and
    keeps the invariant. *)
Lemma reloadWords_uninterrupted src s :
  usedWords (reloadWords src [] s).2 = ∅ ∧ invariant (reloadWords src [] s).2.
Proof.
  assert (usedWords (reloadWords src [] s).2 = ∅) as Hused
    by (by rewrite (proj1 (reloadWords_usedWords src [] s))).
  split; [done|]. unfold invariant. rewrite Hused. set_solver.
Qed.

End Invariant.

(** The invariant [usedKeys ⊆ { w.text : w in words }] holds when the
    service has started, and selections, recorded requests and cycle resets
    keep it. *)
Lemma invariant_started_service
    (src0 : WordService.source) (ops : list WordService.operation) :
  Catalog.invariant
    (WordService.run ops (WordService.initialize src0 WordService.new).2).
Proof. apply invariant_run, invariant_initialize. Qed.

(** C7 fails on the code: a reload breaks the invariant.  [reloadWords]
    clears the used set before [loadWords] awaits the file and replaces the
    word sequence only when the read has settled.  On the started service,
    one [/word] handled in between marks ["Serendipity"] as used; the reload
    then installs the words Alpha and Beta, and the key of the replaced
    sequence stays behind.  With the stale key the used set reaches the
    length of the sequence one selection early: the next two selections
    both return Alpha, and Beta is not shown in between. *)
Theorem reloadWords_leaves_stale_key :
  let reloaded :=
    WordService.reloadWords (WordService.Parsed alpha_beta_source)
      word_request_during_reload fallback_service in
  Catalog.invariant fallback_service ∧
  reloaded.1 = true ∧
  WordService.words reloaded.2 = [alpha; beta] ∧
  WordService.usedWords reloaded.2 = {[ "Serendipity" ]} ∧
  ¬ Catalog.invariant reloaded.2 ∧
  (Catalog.getRandomWords [draw_0; draw_0] reloaded.2).1 = [Some alpha; Some alpha].
Proof.
  cbv zeta. split_and!.
  - apply (bool_decide_unpack _). vm_compute. exact I.
  - reflexivity.
  - vm_compute. reflexivity.
  - apply (bool_decide_unpack _). vm_compute. exact I.
  - apply (bool_decide_unpack _). vm_compute. exact I.
  - vm_compute. reflexivity.
Qed.

(** [loadWords] on its own never clears the used set, so a second
    [initialize] on a service in use leaves stale keys as well. *)
Example initialize_again_leaves_stale_key :
  let used := (WordService.getRandomWord draw_0 fallback_service).2 in
  Catalog.invariant used ∧
  ¬ Catalog.invariant
      (WordService.initialize (WordService.Parsed alpha_beta_source) used).2.
Proof.
  cbv zeta. split; apply (bool_decide_unpack _); vm_compute; exact I.
Qed.

(** ** Start-up and statistics *)

(** C3 fails on the code: with no words loaded, [getStats] divides zero by
    zero and the cycle progress is [NaN], not [0]. *)
Theorem getStats_empty_cycleProgress_is_NaN :
  WordService.words WordService.new = [] ∧
  WordService.stats_cycleProgress (WordService.getStats WordService.new) = PrimFloat.nan ∧
  WordService.stats_cycleProgress (WordService.getStats WordService.new) ≠ PrimFloat.zero.
Proof.
  split_and!; [reflexivity | vm_compute; reflexivity |].
  intros H. apply (f_equal PrimFloat.is_nan) in H. vm_compute in H. discriminate H.
Qed.

(** On a non-empty sequence the percentage is the rounding of the double
    [(used / total) * 100], which can fall below an exact tie: 23 of 40 is
    57.5 percent, the double is 57.49999999999999 and the result is 57. *)
Lemma getStats_23_of_40 :
  WordService.stats_totalWords (WordService.getStats after_23_of_40) = 40%nat ∧
  WordService.stats_usedWords (WordService.getStats after_23_of_40) = 23%nat ∧
  WordService.stats_cycleProgress (WordService.getStats after_23_of_40) = 57%float ∧
  (2 * (100 * 23) + 40) / (2 * 40) = 58.
Proof. split_and!; vm_compute; reflexivity. Qed.

(** The percentages of the fallback set, where no tie occurs. *)
Example cycleProgress_of_three :
  WordService.cycleProgress 0 3 = 0%float ∧
  WordService.cycleProgress 1 3 = 33%float ∧
  WordService.cycleProgress 2 3 = 67%float ∧
  WordService.cycleProgress 3 3 = 100%float.
Proof. split_and!; vm_compute; reflexivity. Qed.

(** An entry without [definition] and [emoji] is not valid, and a source
    holding only such entries leaves the three fallback words active. *)
Example loadWords_invalid_entries :
  let src := Validator.JArray [Validator.JObject [("word", Validator.JString "X")]] in
  Validator.validWords (Validator.validateWordsArray src) = [] ∧
  WordService.loadWords (WordService.Parsed src) WordService.new
  = (true, WordService.mk Constants.FALLBACK_WORDS ∅ 0 ∅ 1 false).
Proof. split; reflexivity. Qed.

(** C5 fails on the code: when the word source cannot be read or parsed, the
    fallback words are loaded but [initialize] reports failure, the service
    is left not initialised and not ready, and the bot's start-up throws. *)
Theorem initialize_fails_on_load_error :
  let failed src :=
    (WordService.initialize src WordService.new).1 = false ∧
    WordService.words (WordService.initialize src WordService.new).2
      = Constants.FALLBACK_WORDS ∧
    WordService.isInitialized (WordService.initialize src WordService.new).2 = false ∧
    WordService.isReady (WordService.initialize src WordService.new).2 = false ∧
    Bot.initializeServices src = JS.Thrown (JS.Error "Failed to initialize WordService") ∧
    Bot.initialize true src = false in
  failed WordService.Unreadable ∧ failed WordService.Unparseable.
Proof. repeat split. Qed.

(** The sibling path: a source that parses but holds no valid entry also
    loads the fallback words, and there the start-up succeeds. *)
Lemma initialize_succeeds_without_valid_words :
  (WordService.initialize (WordService.Parsed (Validator.JArray [])) WordService.new)
  = (true, WordService.mk Constants.FALLBACK_WORDS ∅ 0 ∅ 1 true).
Proof. reflexivity. Qed.

(** ** User profiles: history and streak *)

Section Profiles.

Import UserService.

Implicit Types (s : UserService.t) (userId : JS.userId) (w : Word).

Lemma updateStreak_history now u : history (updateStreak now u) = history u.
Proof.
  unfold updateStreak. destruct (lastUsed (stats u)); [|done].
  by repeat destruct (_ =? _).
Qed.

Lemma cap_is_take {A} (h : list A) :
  (if (50 <? length h)%nat then take 50 h else h) = take 50 h.
Proof.
  destruct (Nat.ltb_spec 50 (length h)); [done|].
  by rewrite take_ge by lia.
Qed.

(** One recorded word: its entry goes to the front and the list is cut to
    50 entries. *)
Lemma addToHistory_history userId w tEntry tUsed tNow s :
  Validator.isValidUserId userId = true →
  historyOf userId (addToHistory userId (Some w) tEntry tUsed tNow s)
  = take 50 (entryOf (w, (tEntry, tUsed, tNow)) :: historyOf userId s).
Proof.
  intros Hvalid. unfold addToHistory, historyOf, getUserData. rewrite Hvalid. simpl.
  destruct (users s !! userId) as [u|] eqn:Hu; simpl;
    rewrite lookup_insert_eq, updateStreak_history.
  - exact (cap_is_take (entryOf (w, (tEntry, tUsed, tNow)) :: history u)).
  - reflexivity.
Qed.

Lemma take_app_take {A} (n : nat) (l m : list A) :
  take n (l ++ take n m) = take n (l ++ m).
Proof.
  rewrite !take_app, take_take. f_equal. f_equal. lia.
Qed.

(** The words of [events] recorded in order: the newest entry comes first
    and at most 50 entries are kept. *)
Lemma recordAll_history userId events : ∀ s,
  Validator.isValidUserId userId = true →
  (length (historyOf userId s) ≤ 50)%nat →
  historyOf userId (recordAll userId events s)
  = take 50 (reverse (entryOf <$> events) ++ historyOf userId s).
Proof.
  induction events as [|[w [[tEntry tUsed] tNow]] events IH]; intros s Hvalid Hcap.
  { simpl. by rewrite take_ge. }
  change (recordAll userId ((w, (tEntry, tUsed, tNow)) :: events) s)
    with (recordAll userId events (addToHistory userId (Some w) tEntry tUsed tNow s)).
  rewrite IH; [| done |].
  - rewrite addToHistory_history by done.
    rewrite take_app_take. rewrite fmap_cons, reverse_cons.
    by rewrite <- app_assoc.
  - rewrite addToHistory_history by done. rewrite length_take. lia.
Qed.

(** [getHistory] reads the stored history through [slice(0, limit)]. *)
Lemma getHistory_slice userId limit s :
  Validator.isValidUserId userId = true →
  (getHistory userId limit s).1 = JS.slice0 (historyOf userId s) limit.
Proof.
  intros Hvalid. unfold getHistory, historyOf, getUserData. rewrite Hvalid. simpl.
  by destruct (users s !! userId).
Qed.

Lemma slice0_nonneg {A} (l : list A) (limit : Z) :
  0 ≤ limit → JS.slice0 l limit = take (Z.to_nat limit) l.
Proof.
  intros H. unfold JS.slice0.
  destruct (Z.ltb_spec limit 0); [lia | done].
Qed.

(** Inside [addToHistory] the streak is computed from the timestamp the
    call has just stored: the two clock readings are less than a day apart,
    so the difference in days is 0 and the streak is left as it was. *)
Lemma addToHistory_streak userId w tEntry tUsed tNow s :
  Validator.isValidUserId userId = true →
  0 ≤ tNow - tUsed < day_ms →
  streakOf userId (addToHistory userId (Some w) tEntry tUsed tNow s)
  = streakOf userId s.
Proof.
  intros Hvalid Hclock. unfold addToHistory, streakOf, getUserData.
  rewrite Hvalid. simpl.
  destruct (users s !! userId) as [u|] eqn:Hu; simpl;
    rewrite lookup_insert_eq; unfold updateStreak; simpl;
    rewrite (Z.div_small (tNow - tUsed) day_ms) by done; done.
Qed.

(** [updateStreak] on its own follows the rule: an absent timestamp gives 1,
    a difference of 0 days keeps the streak, 1 day adds one, more resets it
    to 1. *)
Lemma updateStreak_rule now u :
  streak (stats (updateStreak now u)) =
    match lastUsed (stats u) with
    | None => 1%nat
    | Some last =>
        if (now - last) / day_ms =? 0 then streak (stats u)
        else if (now - last) / day_ms =? 1 then S (streak (stats u))
        else 1%nat
    end.
Proof.
  unfold updateStreak. destruct (lastUsed (stats u)); [|done].
  by repeat destruct (_ =? _).
Qed.

(** A rejected user id or an absent word: nothing changes. *)
Lemma addToHistory_noop userId (w : option Word) tEntry tUsed tNow s :
  Validator.isValidUserId userId = false ∨ w = None →
  addToHistory userId w tEntry tUsed tNow s = s.
Proof.
  intros [Hinvalid | ->]; [|done].
  unfold addToHistory. destruct w; [|done]. by rewrite Hinvalid.
Qed.

End Profiles.

(** C8: for a user with a valid id whose stored history is within the cap,
    after recording the words of [events] in order the history holds the
    newest entries first, at most 50 of them, and [getHistory] with a limit
    [limit >= 0] returns the first [limit] of these; after 60 recordings
    [getHistory(userId, 1000)] returns exactly 50 entries, the entry of the
    last recorded word first. *)
Theorem history_capped_most_recent_first
    (userId : JS.userId) (events : list (Word * (Z * Z * Z))) (limit : Z)
    (s : UserService.t) :
  Validator.isValidUserId userId = true →
  (length (UserService.historyOf userId s) ≤ 50)%nat →
  0 ≤ limit →
  let s' := UserService.recordAll userId events s in
  let kept :=
    take 50 (reverse (UserService.entryOf <$> events) ++ UserService.historyOf userId s) in
  (UserService.getHistory userId limit s').1 = take (Z.to_nat limit) kept ∧
  (length kept ≤ 50)%nat ∧
  (length events = 60%nat →
     (UserService.getHistory userId 1000 s').1
       = take 50 (reverse (UserService.entryOf <$> events)) ∧
     length (UserService.getHistory userId 1000 s').1 = 50%nat ∧
     head (UserService.getHistory userId 1000 s').1 = UserService.entryOf <$> last events).
Proof.
  intros Hvalid Hcap Hlimit s' kept.
  assert (∀ l, 0 ≤ l → (UserService.getHistory userId l s').1 = take (Z.to_nat l) kept) as Hget.
  { intros l Hl. rewrite getHistory_slice by done. rewrite slice0_nonneg by done.
    unfold s'. by rewrite recordAll_history. }
  split_and!.
  - by apply Hget.
  - unfold kept. rewrite length_take. lia.
  - intros H60. rewrite Hget by lia.
    assert (length (reverse (UserService.entryOf <$> events)) = 60%nat) as Hlen
      by (by rewrite length_reverse, length_fmap).
    assert (kept = take 50 (reverse (UserService.entryOf <$> events))) as ->.
    { unfold kept. rewrite take_app_le by lia. done. }
    rewrite (take_ge _ (Z.to_nat 1000)) by (rewrite length_take; lia).
    split_and!; [done | rewrite length_take; lia |].
    rewrite <- fmap_last, <- head_reverse.
    destruct (reverse (UserService.entryOf <$> events)); [done | done].
Qed.

Lemma history_capped_most_recent_first_witness :
  Validator.isValidUserId (JS.IdNum 42) = true ∧
  (length (UserService.historyOf (JS.IdNum 42) UserService.new) ≤ 50)%nat ∧
  0 ≤ 10 ∧
  (UserService.getHistory (JS.IdNum 42) 10
     (UserService.recordAll (JS.IdNum 42) sixty_events UserService.new)).1
  = take (Z.to_nat 10)
      (take 50 (reverse (UserService.entryOf <$> sixty_events)
                ++ UserService.historyOf (JS.IdNum 42) UserService.new)).
Proof.
  assert (Validator.isValidUserId (JS.IdNum 42) = true) as H1 by reflexivity.
  assert (length (UserService.historyOf (JS.IdNum 42) UserService.new) ≤ 50)%nat as H2
    by (vm_compute; lia).
  assert (0 ≤ 10) as H3 by lia.
  split_and!; [exact H1 | exact H2 | exact H3 |].
  exact (proj1 (history_capped_most_recent_first
                  (JS.IdNum 42) sixty_events 10 UserService.new H1 H2 H3)).
Defined.

(** C2 fails on the code: [addToHistory] stores the new timestamp before it
    calls [updateStreak], so the streak of a new user stays 0 after the first
    interaction and is still 0 after an interaction one day later. *)
Theorem addToHistory_streak_stays_zero :
  let userId := JS.IdNum 1 in
  let next_day := an_instant + UserService.day_ms in
  let s1 :=
    UserService.addToHistory userId (Some serendipity)
      an_instant an_instant an_instant UserService.new in
  let s2 :=
    UserService.addToHistory userId (Some peregrine)
      next_day next_day next_day s1 in
  UserService.users UserService.new !! userId = None ∧
  (UserService.getUserStats userId s1).1
    = Some (UserService.mkView 1 0 (Some an_instant) "medium" 1) ∧
  (UserService.getUserStats userId s2).1
    = Some (UserService.mkView 2 0 (Some next_day) "medium" 2).
Proof. vm_compute. done. Qed.

(** C10, as stated, fails: the string ["7abc"] is not a positive integer,
    [parseInt] reads 7 from it, the id is accepted and a profile is created
    for it. *)
Lemma addToHistory_accepts_non_integer_id :
  ¬ (∀ (userId : JS.userId) (w : option Word) (tEntry tUsed tNow : Z)
       (s : UserService.t),
       ¬ spec_positive_integer userId ∨ w = None →
       UserService.addToHistory userId w tEntry tUsed tNow s = s).
Proof.
  intros H.
  specialize (H (JS.IdStr "7abc") (Some serendipity)
                an_instant an_instant an_instant UserService.new).
  assert (¬ spec_positive_integer (JS.IdStr "7abc")) as Hn
    by (intros (n & Heq & _); discriminate Heq).
  specialize (H (or_introl Hn)).
  apply (f_equal (λ s, UserService.historyOf (JS.IdStr "7abc") s)) in H.
  vm_compute in H. discriminate H.
Qed.

(** The validator on the ids Telegram sends: an integer-valued number is
    accepted exactly when it is above zero; [null] and [undefined] are
    rejected. *)
Lemma isValidUserId_IdNum (n : Z) :
  Validator.isValidUserId (JS.IdNum n) = true ↔ 0 < n.
Proof. unfold Validator.isValidUserId. simpl. apply Z.ltb_lt. Qed.

Lemma isValidUserId_IdNullish : Validator.isValidUserId JS.IdNullish = false.
Proof. reflexivity. Qed.

(** [parseInt] skips leading white space of every kind before the digits. *)
Example isValidUserId_leading_white_space :
  JS.parseInt (JS.IdStr (nbsp +:+ " 7")) = Some 7 ∧
  Validator.isValidUserId (JS.IdStr (nbsp +:+ " 7")) = true ∧
  Validator.isValidUserId (JS.IdStr nbsp) = false.
Proof. split_and!; vm_compute; reflexivity. Qed.

(** C10 (amended): a call of [addToHistory] with a user id that
    [Validator.isValidUserId] rejects, or with an absent word, is a no-op:
    the service, with every profile, history, counter, streak and timestamp,
    is returned unchanged. *)
Theorem addToHistory_rejected_is_noop
    (userId : JS.userId) (w : option Word) (tEntry tUsed tNow : Z)
    (s : UserService.t) :
  Validator.isValidUserId userId = false ∨ w = None →
  UserService.addToHistory userId w tEntry tUsed tNow s = s.
Proof. apply addToHistory_noop. Qed.

Lemma addToHistory_rejected_is_noop_witness :
  (Validator.isValidUserId (JS.IdNum (-5)) = false ∨ Some serendipity = None) ∧
  UserService.addToHistory (JS.IdNum (-5)) (Some serendipity)
    an_instant an_instant an_instant UserService.new = UserService.new.
Proof.
  assert (Validator.isValidUserId (JS.IdNum (-5)) = false ∨ Some serendipity = None) as H
    by (left; reflexivity).
  split; [exact H|].
  exact (addToHistory_rejected_is_noop (JS.IdNum (-5)) (Some serendipity)
           an_instant an_instant an_instant UserService.new H).
Defined.

(** ** Word of the day and the independent random word *)

Section WordOfTheDay.

Import UserService.

Implicit Types (s : UserService.t) (words : list Word) (r : JS.random).

(** A word stored for today's date is returned and nothing changes. *)
Lemma getWordOfTheDay_cached words today r s cached :
  wordOfTheDay s = Some cached →
  wordOfTheDayDate s = Some today →
  getWordOfTheDay words today r s = (JS.Returned cached, s).
Proof.
  intros Hw Hd. unfold getWordOfTheDay. rewrite Hw.
  by destruct (decide (wordOfTheDayDate s = Some today)).
Qed.

Lemma getWordOfTheDay_regenerates words today r s :
  wordOfTheDay s = None ∨ wordOfTheDayDate s ≠ Some today →
  getWordOfTheDay words today r s =
    let s' := mk (users s) (words !! JS.floor_mul r (length words)) (Some today) in
    match words !! JS.floor_mul r (length words) with
    | Some w => (JS.Returned w, s')
    | None =>
        (JS.Thrown (JS.TypeError "Cannot read properties of undefined (reading 'word')"), s')
    end.
Proof.
  intros Hmiss. unfold getWordOfTheDay.
  destruct (wordOfTheDay s) as [cached|] eqn:Hw;
    [destruct (decide (wordOfTheDayDate s = Some today)) as [Hd|Hd]|]; simpl.
  - by destruct Hmiss.
  - done.
  - done.
Qed.

(** Without a word stored for today, a word of a non-empty list is chosen,
    stored with today's date and returned. *)
Lemma getWordOfTheDay_chooses words today r s :
  words ≠ [] →
  wordOfTheDay s = None ∨ wordOfTheDayDate s ≠ Some today →
  ∃ w, w ∈ words ∧
       getWordOfTheDay words today r s
       = (JS.Returned w, mk (users s) (Some w) (Some today)).
Proof.
  intros Hne Hmiss. rewrite getWordOfTheDay_regenerates by done.
  assert (JS.floor_mul r (length words) < length words)%nat as Hi.
  { apply floor_mul_lt. destruct words; [done | simpl; lia]. }
  destruct (lookup_lt_is_Some_2 _ _ Hi) as [w Hw]. rewrite Hw. simpl.
  exists w. split; [|done]. by eapply list_elem_of_lookup_2.
Qed.

(** The word chosen is the one at the index [floor(random * length)]. *)
Lemma getWordOfTheDay_chooses_at words today r s :
  words ≠ [] →
  wordOfTheDay s = None ∨ wordOfTheDayDate s ≠ Some today →
  ∃ w, words !! JS.floor_mul r (length words) = Some w ∧
       getWordOfTheDay words today r s
       = (JS.Returned w, mk (users s) (Some w) (Some today)).
Proof.
  intros Hne Hmiss. rewrite getWordOfTheDay_regenerates by done.
  assert (JS.floor_mul r (length words) < length words)%nat as Hi.
  { apply floor_mul_lt. destruct words; [done | simpl; lia]. }
  destruct (lookup_lt_is_Some_2 _ _ Hi) as [w Hw]. rewrite Hw. simpl.
  by exists w.
Qed.

(** Without a word stored for today, the empty list makes the call throw,
    after [undefined] and today's date have been stored. *)
Lemma getWordOfTheDay_empty today r s :
  wordOfTheDay s = None ∨ wordOfTheDayDate s ≠ Some today →
  getWordOfTheDay [] today r s
  = (JS.Thrown (JS.TypeError "Cannot read properties of undefined (reading 'word')"),
     mk (users s) None (Some today)).
Proof. intros Hmiss. by rewrite getWordOfTheDay_regenerates. Qed.

(** On a non-empty list the call returns a word and leaves it stored for
    today. *)
Lemma getWordOfTheDay_returns words today r s :
  words ≠ [] →
  ∃ w, (getWordOfTheDay words today r s).1 = JS.Returned w ∧
       wordOfTheDay (getWordOfTheDay words today r s).2 = Some w ∧
       wordOfTheDayDate (getWordOfTheDay words today r s).2 = Some today ∧
       users (getWordOfTheDay words today r s).2 = users s ∧
       ((getWordOfTheDay words today r s).2 ≠ s →
          wordOfTheDayDate s ≠ Some today ∨ wordOfTheDay s = None).
Proof.
  intros Hne.
  destruct (wordOfTheDay s) as [cached|] eqn:Hw;
    [destruct (decide (wordOfTheDayDate s = Some today)) as [Hd|Hd]|].
  - exists cached. by rewrite (getWordOfTheDay_cached _ _ _ _ cached).
  - destruct (getWordOfTheDay_chooses words today r s Hne) as (w & _ & ->); [by right|].
    exists w. simpl. split_and!; try done. intros _. by left.
  - destruct (getWordOfTheDay_chooses words today r s Hne) as (w & _ & ->); [by left|].
    exists w. simpl. split_and!; try done. intros _. by right.
Qed.

(** Recording a word for a user does not touch the word of the day. *)
Lemma addToHistory_wordOfTheDay userId (w : option Word) tEntry tUsed tNow s :
  wordOfTheDay (addToHistory userId w tEntry tUsed tNow s) = wordOfTheDay s ∧
  wordOfTheDayDate (addToHistory userId w tEntry tUsed tNow s) = wordOfTheDayDate s.
Proof.
  unfold addToHistory. destruct w; [|done].
  destruct (Validator.isValidUserId userId); [|done]. simpl.
  unfold getUserData. by destruct (users s !! userId).
Qed.

Lemma getRandomWord_in words r :
  words ≠ [] → ∃ w, w ∈ words ∧ getRandomWord words r = JS.Returned (Some w).
Proof.
  intros Hne. unfold getRandomWord.
  assert (JS.floor_mul r (length words) < length words)%nat as Hi.
  { apply floor_mul_lt. destruct words; [done | simpl; lia]. }
  destruct (lookup_lt_is_Some_2 _ _ Hi) as [w Hw]. rewrite Hw.
  exists w. split; [|done]. by eapply list_elem_of_lookup_2.
Qed.

End WordOfTheDay.

(** C9: on a non-empty list [getWordOfTheDay] returns a word [w]; every
    later call on the same calendar date returns the same [w] and changes
    nothing, whatever list it is given and whichever users had words recorded
    in between.  A new word is chosen exactly when no word is stored for the
    date of the call: then [w] is the word of the list at the drawn index
    and it is stored with that date; when a word is stored for the date, it
    is returned and nothing is stored.  So the first call on any other date
    chooses again, from the list it is given. *)
Theorem getWordOfTheDay_same_date_same_word
    (words1 words2 : list Word) (today : string) (r1 r2 : JS.random)
    (s : UserService.t) :
  words1 ≠ [] →
  ∃ w : Word,
    let s1 := (UserService.getWordOfTheDay words1 today r1 s).2 in
    (UserService.getWordOfTheDay words1 today r1 s).1 = JS.Returned w ∧
    UserService.getWordOfTheDay words2 today r2 s1 = (JS.Returned w, s1) ∧
    (∀ userId recorded tEntry tUsed tNow,
       (UserService.getWordOfTheDay words2 today r2
          (UserService.addToHistory userId recorded tEntry tUsed tNow s1)).1
       = JS.Returned w) ∧
    (s1 ≠ s →
       UserService.wordOfTheDayDate s ≠ Some today ∨ UserService.wordOfTheDay s = None) ∧
    (UserService.wordOfTheDayDate s ≠ Some today ∨ UserService.wordOfTheDay s = None →
       words1 !! JS.floor_mul r1 (length words1) = Some w ∧
       w ∈ words1 ∧
       s1 = UserService.mk (UserService.users s) (Some w) (Some today)) ∧
    (∀ cached,
       UserService.wordOfTheDayDate s = Some today →
       UserService.wordOfTheDay s = Some cached →
       w = cached ∧ s1 = s) ∧
    (∀ another_day,
       another_day ≠ today → words2 ≠ [] →
       ∃ w', words2 !! JS.floor_mul r2 (length words2) = Some w' ∧
             UserService.getWordOfTheDay words2 another_day r2 s1
             = (JS.Returned w',
                UserService.mk (UserService.users s) (Some w') (Some another_day))).
Proof.
  intros Hne.
  destruct (getWordOfTheDay_returns words1 today r1 s Hne)
    as (w & Hret & Hw & Hd & Hu & Hnew).
  exists w. cbv zeta. split_and!; try done.
  - by apply getWordOfTheDay_cached.
  - intros userId recorded tEntry tUsed tNow.
    destruct (addToHistory_wordOfTheDay userId recorded tEntry tUsed tNow
                (UserService.getWordOfTheDay words1 today r1 s).2) as [Hw' Hd'].
    rewrite (getWordOfTheDay_cached _ _ _ _ w); [done | congruence | congruence].
  - intros Hmiss.
    destruct (getWordOfTheDay_chooses_at words1 today r1 s Hne) as (w' & Hat & Hcall);
      [destruct Hmiss; [by right | by left]|].
    rewrite Hcall in Hret. injection Hret as ->.
    split_and!; [done | by eapply list_elem_of_lookup_2 | by rewrite Hcall].
  - intros cached Hdate Hcached.
    rewrite (getWordOfTheDay_cached _ _ _ _ cached Hcached Hdate) in Hret |- *.
    by injection Hret as ->.
  - intros another_day Hother Hne2.
    destruct (getWordOfTheDay_chooses_at words2 another_day r2
                (UserService.getWordOfTheDay words1 today r1 s).2 Hne2)
      as (w' & Hat & Hcall).
    { right. rewrite Hd. congruence. }
    exists w'. split; [done|]. by rewrite Hcall, Hu.
Qed.

Lemma getWordOfTheDay_same_date_same_word_witness :
  Constants.FALLBACK_WORDS ≠ [] ∧
  ∃ w : Word,
    let s1 := (UserService.getWordOfTheDay Constants.FALLBACK_WORDS
                 "Mon Nov 02 2026" draw_two_thirds UserService.new).2 in
    (UserService.getWordOfTheDay Constants.FALLBACK_WORDS
       "Mon Nov 02 2026" draw_two_thirds UserService.new).1 = JS.Returned w ∧
    UserService.getWordOfTheDay Constants.FALLBACK_WORDS
      "Mon Nov 02 2026" draw_0 s1 = (JS.Returned w, s1).
Proof.
  assert (Constants.FALLBACK_WORDS ≠ []) as H by discriminate.
  split; [exact H|].
  destruct (getWordOfTheDay_same_date_same_word
              Constants.FALLBACK_WORDS Constants.FALLBACK_WORDS
              "Mon Nov 02 2026" draw_two_thirds draw_0 UserService.new H)
    as (w & H1 & H2 & _).
  exists w. split; [exact H1 | exact H2].
Defined.

(** C4, as stated, fails: on the empty list [getRandomWord] does not fail,
    it returns [undefined]. *)
Lemma getRandomWord_empty_list_returns :
  ¬ (∀ r : JS.random, ∃ e : JS.error, UserService.getRandomWord [] r = JS.Thrown e).
Proof.
  intros H. destruct (H draw_0) as [e He]. discriminate He.
Qed.

(** C4 (amended): on the empty list [getRandomWord] returns [undefined]
    without failing, and [getWordOfTheDay] throws (a [TypeError]) when no
    word is stored for today and returns the stored word otherwise; on a
    non-empty list neither fails, [getRandomWord] returns a word of the list
    and [getWordOfTheDay] returns the word stored for today if there is one
    and a word of the list otherwise. *)
Theorem empty_list_behaviour
    (words : list Word) (today : string) (r : JS.random) (s : UserService.t) :
  UserService.getRandomWord [] r = JS.Returned None ∧
  (UserService.wordOfTheDay s = None ∨ UserService.wordOfTheDayDate s ≠ Some today →
     ∃ text, (UserService.getWordOfTheDay [] today r s).1
             = JS.Thrown (JS.TypeError text)) ∧
  (∀ cached,
     UserService.wordOfTheDay s = Some cached →
     UserService.wordOfTheDayDate s = Some today →
     UserService.getWordOfTheDay words today r s = (JS.Returned cached, s)) ∧
  (words ≠ [] →
     (∃ w, w ∈ words ∧ UserService.getRandomWord words r = JS.Returned (Some w)) ∧
     (UserService.wordOfTheDay s = None ∨ UserService.wordOfTheDayDate s ≠ Some today →
        ∃ w, w ∈ words ∧
             (UserService.getWordOfTheDay words today r s).1 = JS.Returned w)).
Proof.
  split_and!.
  - unfold UserService.getRandomWord. by rewrite floor_mul_0.
  - intros Hmiss. rewrite getWordOfTheDay_empty by done. by eexists.
  - intros cached. apply getWordOfTheDay_cached.
  - intros Hne. split.
    + by apply getRandomWord_in.
    + intros Hmiss.
      destruct (getWordOfTheDay_chooses words today r s Hne Hmiss) as (w & Hin & ->).
      by exists w.
Qed.

Lemma empty_list_behaviour_witness :
  (UserService.wordOfTheDay UserService.new = None
   ∨ UserService.wordOfTheDayDate UserService.new ≠ Some "Mon Nov 02 2026") ∧
  ∃ text, (UserService.getWordOfTheDay [] "Mon Nov 02 2026" draw_0 UserService.new).1
          = JS.Thrown (JS.TypeError text).
Proof.
  assert (UserService.wordOfTheDay UserService.new = None
          ∨ UserService.wordOfTheDayDate UserService.new ≠ Some "Mon Nov 02 2026") as H
    by (left; reflexivity).
  split; [exact H|].
  exact (proj1 (proj2 (empty_list_behaviour Constants.FALLBACK_WORDS
                         "Mon Nov 02 2026" draw_0 UserService.new)) H).
Defined.

(** ** Command dispatch *)

Lemma match_escaped_spec (command : string) : ∀ text rest,
  Bot.match_escaped (Bot.escapeRegExp command) text = Some rest
  ↔ text = String.append command rest.
Proof.
  induction command as [|a command IH]; intros text rest; simpl.
  { split; [by intros [= ->] | by intros ->]. }
  destruct (Bot.regexp_special a) eqn:Hsp; simpl.
  - destruct text as [|x text]; [by split|].
    destruct (Ascii.eqb_spec a x) as [->|Hne].
    + rewrite IH. split; [by intros -> | by intros [= ->]].
    + split; [done | by intros [= ? ?]].
  - destruct (Ascii.eqb_spec a Bot.backslash) as [->|Hnb];
      [vm_compute in Hsp; discriminate Hsp|].
    destruct text as [|x text]; [by split|].
    destruct (Ascii.eqb_spec a x) as [->|Hne].
    + rewrite IH. split; [by intros -> | by intros [= ->]].
    + split; [done | by intros [= ? ?]].
Qed.

Lemma string_append_empty (s : string) : String.append s "" = s.
Proof.
  induction s as [|c s IH]; [done|].
  change (String c (String.append s "") = String c s). by f_equal.
Qed.

Lemma string_length_append (s1 s2 : string) :
  String.length (String.append s1 s2) = (String.length s1 + String.length s2)%nat.
Proof.
  induction s1 as [|c s1 IH]; [done|].
  change (S (String.length (String.append s1 s2))
          = S (String.length s1 + String.length s2)). by f_equal.
Qed.

(** The pattern of a command matches a text exactly when the text is the
    command. *)
Lemma commandRegExp_test_exact (command text : string) :
  Bot.commandRegExp_test command text = true ↔ text = command.
Proof.
  unfold Bot.commandRegExp_test.
  destruct (Bot.match_escaped (Bot.escapeRegExp command) text) as [rest|] eqn:Hm.
  - apply match_escaped_spec in Hm. subst text.
    destruct rest as [|c rest]; [by rewrite string_append_empty|].
    split; [done|]. intros Heq. exfalso.
    apply (f_equal String.length) in Heq.
    rewrite string_length_append in Heq. simpl in Heq. lia.
  - split; [done|]. intros ->.
    assert (Bot.match_escaped (Bot.escapeRegExp command) command = Some "") as Hm'
      by (apply match_escaped_spec; by rewrite string_append_empty).
    congruence.
Qed.

(** A registered handler runs only for a text equal to its command. *)
Lemma dispatch_exact (isShuttingDown : bool) (text : option string) (command : string) :
  Bot.ToCommand command ∈ Bot.dispatch isShuttingDown text →
  text = Some command ∧ command ∈ Bot.registered.
Proof.
  unfold Bot.dispatch. intros Hin. apply elem_of_app in Hin as [Hin | Hin].
  - unfold Bot.onText in Hin. destruct text as [t|]; [|by apply not_elem_of_nil in Hin].
    apply list_elem_of_fmap in Hin as (c & [= ->] & Hc).
    apply list_elem_of_filter in Hc as [Hmatch Hreg].
    apply commandRegExp_test_exact in Hmatch. by subst.
  - unfold Bot.handleMessage in Hin. destruct text as [t|]; [|by apply not_elem_of_nil in Hin].
    destruct (_ || _); [by apply not_elem_of_nil in Hin|].
    destruct (negb _); [|by apply not_elem_of_nil in Hin].
    apply list_elem_of_singleton in Hin. discriminate Hin.
Qed.

(** The unknown-command handler runs exactly for a non-empty text that does
    not start with any command, while the bot is not shutting down. *)
Lemma dispatch_unknown (isShuttingDown : bool) (text : option string) :
  Bot.ToUnknownCommand ∈ Bot.dispatch isShuttingDown text ↔
  ∃ t, text = Some t ∧ t ≠ "" ∧ isShuttingDown = false ∧
       ∀ cmd, cmd ∈ Constants.COMMANDS → Bot.startsWith t cmd = false.
Proof.
  unfold Bot.dispatch. rewrite elem_of_app. split.
  - intros [Hin | Hin].
    + unfold Bot.onText in Hin. destruct text as [t|]; [|by apply not_elem_of_nil in Hin].
      apply list_elem_of_fmap in Hin as (c & Hc & _). discriminate Hc.
    + unfold Bot.handleMessage in Hin.
      destruct text as [t|]; [|by apply not_elem_of_nil in Hin].
      destruct (String.eqb_spec t ""); cbn [orb] in Hin;
        [by apply not_elem_of_nil in Hin|].
      destruct isShuttingDown; [by apply not_elem_of_nil in Hin|].
      destruct (existsb _ _) eqn:Hex; cbn [negb] in Hin;
        [by apply not_elem_of_nil in Hin|].
      exists t. split_and!; try done.
      intros cmd Hcmd. destruct (Bot.startsWith t cmd) eqn:Hs; [|done].
      assert (existsb (λ cmd, Bot.startsWith t cmd) Constants.COMMANDS = true) as Hex'.
      { apply existsb_exists. exists cmd. split; [by apply list_elem_of_In | done]. }
      congruence.
  - intros (t & -> & Hne & -> & Hno). right. unfold Bot.handleMessage.
    destruct (String.eqb_spec t ""); [done|]. cbn [orb].
    destruct (existsb _ _) eqn:Hex; cbn [negb]; [|by apply list_elem_of_singleton].
    apply existsb_exists in Hex as (cmd & Hcmd & Hs).
    apply list_elem_of_In in Hcmd. rewrite Hno in Hs by done. discriminate Hs.
Qed.

(** C6 fails on the code: the text ["/wordsmith"] has a leading token that
    is no registered command, yet it starts with ["/word"], so it is taken
    for a command: no handler runs for it and it is not routed to the
    unknown-command handler either. *)
Theorem dispatch_drops_prefixed_text :
  Bot.leadingToken "/wordsmith" = "/wordsmith" ∧
  ("/wordsmith" ∉ Bot.registered) ∧
  Bot.startsWith "/wordsmith" Constants.WORD = true ∧
  Bot.dispatch false (Some "/wordsmith") = [].
Proof.
  split_and!; [reflexivity | | reflexivity | reflexivity].
  apply (bool_decide_unpack _). vm_compute. exact I.
Qed.

(* ================================================================== *)
(** * Further properties of the code *)
(* ================================================================== *)

(** ** Validation of the word source *)

Section WordValidation.

Import Validator.

Lemma validate_from_words index items :
  (validate_from index items).1 = as_Word <$> filter (λ v, isValidWord v = true) items.
Proof.
  revert index. induction items as [|v items IH]; intros index; [done|].
  simpl. specialize (IH (S index)).
  destruct (validate_from (S index) items) as [ws es]. simpl in IH.
  destruct (isValidWord v) eqn:Hv; simpl.
  - rewrite filter_cons_True by done. by rewrite fmap_cons, IH.
  - rewrite filter_cons_False by (by rewrite Hv). done.
Qed.

Lemma validate_from_lengths index items :
  (length (validate_from index items).1 + length (validate_from index items).2
   = length items)%nat.
Proof.
  revert index. induction items as [|v items IH]; intros index; [done|].
  simpl. specialize (IH (S index)).
  destruct (validate_from (S index) items) as [ws es]. simpl in IH.
  destruct (isValidWord v); simpl; lia.
Qed.

Lemma validate_from_errors index items i :
  InvalidStructureAt i ∈ (validate_from index items).2 ↔
  ∃ v, (index ≤ i)%nat ∧ items !! (i - index)%nat = Some v ∧ isValidWord v = false.
Proof.
  revert index. induction items as [|v items IH]; intros index.
  { simpl. split; [by intros H%not_elem_of_nil | by intros (? & _ & ? & _)]. }
  simpl. specialize (IH (S index)).
  destruct (validate_from (S index) items) as [ws es]. simpl in IH.
  destruct (isValidWord v) eqn:Hv; simpl.
  - rewrite IH. split.
    + intros (x & Hle & Hx & Hinv). exists x. split_and!; [lia | | done].
      replace (i - index)%nat with (S (i - S index)) by lia. done.
    + intros (x & Hle & Hx & Hinv).
      destruct (decide (i = index)) as [->|Hne].
      { rewrite Nat.sub_diag in Hx. simpl in Hx. congruence. }
      exists x. split_and!; [lia | | done].
      replace (i - index)%nat with (S (i - S index)) in Hx by lia. done.
  - rewrite elem_of_cons, IH. split.
    + intros [[= ->] | (x & Hle & Hx & Hinv)].
      * exists v. rewrite Nat.sub_diag. done.
      * exists x. split_and!; [lia | | done].
        replace (i - index)%nat with (S (i - S index)) by lia. done.
    + intros (x & Hle & Hx & Hinv).
      destruct (decide (i = index)) as [->|Hne]; [by left|]. right.
      exists x. split_and!; [lia | | done].
      replace (i - index)%nat with (S (i - S index)) in Hx by lia. done.
Qed.

Lemma isValidWord_fields v :
  isValidWord v = true →
  not_blank (word (as_Word v)) ∧
  not_blank (definition (as_Word v)) ∧
  not_blank (emoji (as_Word v)).
Proof.
  unfold isValidWord. rewrite !andb_true_iff.
  intros [[[[_ _] Hw] Hd] He].
  unfold nonempty_string in *. unfold not_blank, as_Word, string_property. simpl.
  destruct (property v "word") as [[]|]; try done.
  destruct (property v "definition") as [[]|]; try done.
  destruct (property v "emoji") as [[]|]; try done.
  by apply Nat.ltb_lt in Hw, Hd, He.
Qed.

(** A text that is not blank is not empty after trimming. *)
Lemma not_blank_trim (text : string) : not_blank text → JS.trim text ≠ "".
Proof. unfold not_blank. intros H Heq. rewrite Heq in H. simpl in H. lia. Qed.

End WordValidation.

(** X1: for a parsed array, the valid words are the valid entries in their
    order, every entry is either kept or reported, an error names index [i]
    exactly when entry [i] is invalid, and the result is marked valid exactly
    when some entry is valid; anything that is not an array gives no word,
    an invalid result and the one error [Words must be an array]. *)
Theorem validateWordsArray_partition (parsed : Validator.json) :
  (∀ items, parsed = Validator.JArray items →
     let v := Validator.validateWordsArray parsed in
     Validator.validWords v
       = Validator.as_Word <$> filter (λ x, Validator.isValidWord x = true) items ∧
     (length (Validator.validWords v) + length (Validator.errors v) = length items)%nat ∧
     (∀ i, Validator.InvalidStructureAt i ∈ Validator.errors v ↔
           ∃ x, items !! i = Some x ∧ Validator.isValidWord x = false) ∧
     (Validator.valid v = true ↔ ∃ x, x ∈ items ∧ Validator.isValidWord x = true)) ∧
  ((∀ items, parsed ≠ Validator.JArray items) →
     Validator.validateWordsArray parsed
     = Validator.mkValidation false [] [Validator.NotAnArray] ∧
     Validator.message <$> Validator.errors (Validator.validateWordsArray parsed)
     = ["Words must be an array"]).
Proof.
  split.
  - intros items ->. unfold Validator.validateWordsArray.
    pose proof (validate_from_words 0 items) as Hw.
    pose proof (validate_from_lengths 0 items) as Hl.
    pose proof (validate_from_errors 0 items) as He.
    destruct (Validator.validate_from 0 items) as [ws es]. simpl in *.
    split_and!; [done | done | |].
    + intros i. rewrite He. split.
      * intros (x & _ & Hx & Hinv). exists x. by rewrite Nat.sub_0_r in Hx.
      * intros (x & Hx & Hinv). exists x. rewrite Nat.sub_0_r. split_and!; [lia|done|done].
    + rewrite Hw. rewrite Nat.ltb_lt. split.
      * intros Hlen.
        destruct (filter (λ x, Validator.isValidWord x = true) items) as [|x l] eqn:Hf;
          [simpl in Hlen; lia|].
        assert (x ∈ filter (λ x, Validator.isValidWord x = true) items) as Hin
          by (rewrite Hf; left).
        apply list_elem_of_filter in Hin as [Hv Hi]. by exists x.
      * intros (x & Hin & Hv).
        assert (x ∈ filter (λ x, Validator.isValidWord x = true) items) as Hin'
          by (by apply list_elem_of_filter).
        rewrite length_fmap.
        destruct (filter (λ x, Validator.isValidWord x = true) items);
          [by apply not_elem_of_nil in Hin' | simpl; lia].
  - intros Hna. destruct parsed; try done. by destruct (Hna items).
Qed.

Lemma validateWordsArray_partition_witness :
  (∀ items, Validator.JNull ≠ Validator.JArray items) ∧
  Validator.validateWordsArray Validator.JNull
  = Validator.mkValidation false [] [Validator.NotAnArray].
Proof.
  assert (∀ items, Validator.JNull ≠ Validator.JArray items) as H by discriminate.
  split; [exact H|].
  exact (proj1 (proj2 (validateWordsArray_partition Validator.JNull) H)).
Defined.

(** The errors of a run on the source of the examples, as texts; an entry
    whose text is a no-break space is reported, not kept. *)
Example validateWordsArray_messages :
  Validator.message <$> Validator.errors (Validator.validateWordsArray peregrine_source)
  = ["Invalid word structure at index 0"; "Invalid word structure at index 2"] ∧
  Validator.validateWordsArray nbsp_source
  = Validator.mkValidation false [] [Validator.InvalidStructureAt 0].
Proof. split; vm_compute; reflexivity. Qed.

Lemma validWords_fields (parsed : Validator.json) (w : Word) :
  w ∈ Validator.validWords (Validator.validateWordsArray parsed) →
  not_blank (word w) ∧ not_blank (definition w) ∧ not_blank (emoji w).
Proof.
  intros Hin. destruct parsed as [| | | | items |];
    try (by apply not_elem_of_nil in Hin).
  unfold Validator.validateWordsArray in Hin.
  pose proof (validate_from_words 0 items) as Hw.
  destruct (Validator.validate_from 0 items) as [ws es]. simpl in *. subst ws.
  apply list_elem_of_fmap in Hin as (v & -> & Hv).
  apply list_elem_of_filter in Hv as [Hv _].
  by apply isValidWord_fields.
Qed.

(** X2: every word the validator keeps has a text, a definition and an emoji
    that are not blank: after [trim()], which removes the white space and
    line terminators of ECMAScript (the no-break space and the other Unicode
    spaces included), each still has a length above 0, so none is empty. *)
Theorem validWords_not_blank (parsed : Validator.json) (w : Word) :
  w ∈ Validator.validWords (Validator.validateWordsArray parsed) →
  (not_blank (word w) ∧ not_blank (definition w) ∧ not_blank (emoji w)) ∧
  (JS.trim (word w) ≠ "" ∧ JS.trim (definition w) ≠ "" ∧ JS.trim (emoji w) ≠ "").
Proof.
  intros Hin. destruct (validWords_fields parsed w Hin) as (Hw & Hd & He).
  split; [done|]. split_and!; by apply not_blank_trim.
Qed.

Lemma validWords_not_blank_witness :
  peregrine_source_word ∈
    Validator.validWords (Validator.validateWordsArray peregrine_source) ∧
  not_blank (word peregrine_source_word).
Proof.
  assert (peregrine_source_word ∈
            Validator.validWords (Validator.validateWordsArray peregrine_source)) as H
    by (apply (bool_decide_unpack _); vm_compute; exact I).
  split; [exact H|].
  exact (proj1 (proj1 (validWords_not_blank peregrine_source peregrine_source_word H))).
Defined.

(** What [trim()] removes: a text made of a no-break space, an ideographic
    space, a byte order mark and a line separator is blank, and white space
    of several bytes is removed at both ends. *)
Example trim_unicode_white_space :
  let ideographic_space :=
    String (ascii_of_nat 227) (String (ascii_of_nat 128) (String (ascii_of_nat 128) "")) in
  let byte_order_mark :=
    String (ascii_of_nat 239) (String (ascii_of_nat 187) (String (ascii_of_nat 191) "")) in
  let line_separator :=
    String (ascii_of_nat 226) (String (ascii_of_nat 128) (String (ascii_of_nat 168) "")) in
  JS.trim (nbsp +:+ ideographic_space +:+ byte_order_mark +:+ line_separator) = "" ∧
  JS.trim (nbsp +:+ " a b " +:+ ideographic_space) = "a b" ∧
  JS.trim (line_separator +:+ "🧠" +:+ nbsp) = "🧠" ∧
  JS.string_length "🧠" = 2%nat ∧
  JS.string_length nbsp = 1%nat.
Proof. cbv zeta. split_and!; vm_compute; reflexivity. Qed.

(** What [trim()] keeps: the zero-width space U+200B and the next-line
    control U+0085 are no white space, and a code point that shares its
    first bytes with a white-space one stays whole. *)
Example trim_keeps_other_code_points :
  let zero_width_space :=
    String (ascii_of_nat 226) (String (ascii_of_nat 128) (String (ascii_of_nat 139) "")) in
  let next_line := String (ascii_of_nat 194) (String (ascii_of_nat 133) "") in
  JS.trim (" " +:+ zero_width_space +:+ " ") = zero_width_space ∧
  JS.trim (next_line +:+ "a" +:+ next_line) = next_line +:+ "a" +:+ next_line ∧
  JS.trim (" € ") = "€" ∧
  JS.trim (" a" +:+ nbsp +:+ "b ") = "a" +:+ nbsp +:+ "b".
Proof. cbv zeta. split_and!; vm_compute; reflexivity. Qed.

(** ** Loading, reloading and the request counters *)

Section Loading.

Import WordService.




End Loading.


(** On a source whose only entry is a no-break space the fallback words
    are loaded. *)
Example loadWords_blank_source :
  WordService.words
    (WordService.loadWords (WordService.Parsed nbsp_source) WordService.new).2
  = Constants.FALLBACK_WORDS.
Proof. vm_compute. reflexivity. Qed.

(** X4: a reload whose source cannot be read or parsed returns [false] and
    replaces the word sequence by the fallback words, whatever was loaded
    before and whatever the handlers did while the file was read.  The used
    set is what the handlers left in it during the read, texts of the
    replaced sequence, and it is empty when nothing ran in between.  A
    service that was initialised stays ready, and its next [getRandomWord]
    returns one of the fallback words. *)
Theorem reloadWords_failure_falls_back
    (s : WordService.t) (during : list WordService.operation) (r : JS.random) :
  let failed src :=
    let reloaded := WordService.reloadWords src during s in
    reloaded.1 = false ∧
    WordService.words reloaded.2 = Constants.FALLBACK_WORDS ∧
    WordService.usedWords reloaded.2
    = WordService.usedWords (WordService.run during (WordService.reloadWords_start s)) ∧
    WordService.usedWords reloaded.2 ⊆ list_to_set (Catalog.texts s) ∧
    (during = [] → WordService.usedWords reloaded.2 = ∅) ∧
    WordService.isReady reloaded.2 = WordService.isInitialized s ∧
    (WordService.isInitialized s = true →
       ∃ w, w ∈ Constants.FALLBACK_WORDS ∧
            (WordService.getRandomWord r reloaded.2).1 = Some w) in
  failed WordService.Unreadable ∧ failed WordService.Unparseable.
Proof.
  assert (∀ s0, WordService.words s0 = Constants.FALLBACK_WORDS →
                WordService.isInitialized s0 = true →
                ∃ w, w ∈ Constants.FALLBACK_WORDS ∧
                     (WordService.getRandomWord r s0).1 = Some w) as Hnext.
  { intros s0 Hw Hi.
    destruct (getRandomWord_selects r s0) as (w & Hin & ->); [done | by rewrite Hw | |].
    - apply afterResetCheck_available; [by rewrite Hw|].
      unfold Catalog.texts. rewrite Hw.
      apply (bool_decide_unpack _). vm_compute. exact I.
    - exists w. split; [|done].
      apply availableWords_elem in Hin as [_ Hin].
      by rewrite afterResetCheck_words, Hw in Hin. }
  assert (WordService.isInitialized
            (WordService.run during (WordService.reloadWords_start s))
          = WordService.isInitialized s) as Hinit
    by (by rewrite (proj2 (run_frame during _))).
  cbv zeta.
  split; (split_and!;
    [ reflexivity
    | reflexivity
    | apply reloadWords_usedWords
    | apply reloadWords_usedWords
    | by intros ->
    | unfold WordService.isReady; simpl; by rewrite Hinit, andb_true_r
    | intros Hi; apply Hnext; [reflexivity | simpl; by rewrite Hinit] ]).
Qed.

(** X5: on an initialised service whose word texts are pairwise distinct and
    whose used set is empty, [|words|] successive calls of [getRandomWord]
    return every word of the sequence exactly once: the returned words are a
    permutation of the sequence. *)
Theorem getRandomWords_full_cycle_is_permutation
    (s : WordService.t) (rs : list JS.random) :
  WordService.isInitialized s = true →
  NoDup (Catalog.texts s) →
  WordService.usedWords s = ∅ →
  length rs = length (WordService.words s) →
  ∃ ws, (Catalog.getRandomWords rs s).1 = Some <$> ws ∧ ws ≡ₚ WordService.words s.
Proof.
  intros Hinit Hnd Hempty Hlen.
  destruct (getRandomWords_fill rs s Hinit Hnd) as
    (ws & Hres & Hlenws & Hndws & Hall & _).
  { rewrite Hempty, size_empty. lia. }
  exists ws. split; [done|].
  apply submseteq_length_Permutation; [|lia].
  apply NoDup_submseteq; [by eapply NoDup_fmap_1|].
  intros w Hw. by apply Hall.
Qed.

Lemma getRandomWords_full_cycle_is_permutation_witness :
  WordService.isInitialized fallback_service = true ∧
  NoDup (Catalog.texts fallback_service) ∧
  WordService.usedWords fallback_service = ∅ ∧
  length [draw_two_thirds; draw_0; draw_two_thirds]
    = length (WordService.words fallback_service) ∧
  ∃ ws, (Catalog.getRandomWords [draw_two_thirds; draw_0; draw_two_thirds]
           fallback_service).1 = Some <$> ws ∧
        ws ≡ₚ WordService.words fallback_service.
Proof.
  assert (WordService.isInitialized fallback_service = true) as H1 by reflexivity.
  assert (NoDup (Catalog.texts fallback_service)) as H2
    by (apply (bool_decide_unpack _); vm_compute; exact I).
  assert (WordService.usedWords fallback_service = ∅) as H3 by reflexivity.
  assert (length [draw_two_thirds; draw_0; draw_two_thirds]
          = length (WordService.words fallback_service)) as H4 by reflexivity.
  split_and!; [exact H1 | exact H2 | exact H3 | exact H4 |].
  exact (getRandomWords_full_cycle_is_permutation fallback_service
           [draw_two_thirds; draw_0; draw_two_thirds] H1 H2 H3 H4).
Defined.

Section Counters.

Import WordService.

Lemma size_insert_le `{Countable A} (x : A) (X : gset A) :
  (size ({[ x ]} ∪ X) ≤ S (size X))%nat.
Proof.
  rewrite size_union_alt, size_singleton.
  assert (X ∖ {[ x ]} ⊆ X) as Hsub by set_solver.
  apply subseteq_size in Hsub. lia.
Qed.

Lemma size_list_to_set_le `{Countable A} (l : list A) :
  (size (list_to_set l : gset A) ≤ length l)%nat.
Proof.
  induction l as [|x l IH].
  - rewrite list_to_set_nil, size_empty. done.
  - rewrite list_to_set_cons. simpl length.
    pose proof (size_insert_le x (list_to_set l)). lia.
Qed.

Lemma recordRequest_invalid userId s :
  Validator.isValidUserId userId = false → recordRequest userId s = s.
Proof. intros Hv. unfold recordRequest. by rewrite Hv. Qed.

Lemma recordRequest_valid userId s :
  Validator.isValidUserId userId = true →
  recordRequest userId s
  = mk (words s) (usedWords s) (S (totalRequests s)) ({[ userId ]} ∪ uniqueUsers s)
       (loadAttempts s) (isInitialized s).
Proof. intros Hv. unfold recordRequest. by rewrite Hv. Qed.

Lemma recordRequests_spec ids : ∀ s,
  totalRequests (Admin.recordRequests ids s)
    = (totalRequests s
       + length (filter (λ userId, Validator.isValidUserId userId = true) ids))%nat ∧
  uniqueUsers (Admin.recordRequests ids s)
    = list_to_set (filter (λ userId, Validator.isValidUserId userId = true) ids)
      ∪ uniqueUsers s ∧
  ((size (uniqueUsers s) ≤ totalRequests s)%nat →
   (size (uniqueUsers (Admin.recordRequests ids s))
    ≤ totalRequests (Admin.recordRequests ids s))%nat) ∧
  words (Admin.recordRequests ids s) = words s ∧
  usedWords (Admin.recordRequests ids s) = usedWords s ∧
  loadAttempts (Admin.recordRequests ids s) = loadAttempts s ∧
  isInitialized (Admin.recordRequests ids s) = isInitialized s.
Proof.
  induction ids as [|userId ids IH]; intros s.
  { rewrite filter_nil. simpl. split_and!; try done. set_solver. }
  change (Admin.recordRequests (userId :: ids) s)
    with (Admin.recordRequests ids (recordRequest userId s)).
  destruct (IH (recordRequest userId s)) as (Ht & Hu & Hinv & Hw & Hused & Hl & Hi).
  destruct (Validator.isValidUserId userId) eqn:Hv.
  - rewrite filter_cons_True by done.
    rewrite (recordRequest_valid _ _ Hv) in *. simpl in *.
    split_and!; try done.
    + rewrite Ht. lia.
    + rewrite Hu. set_solver.
    + intros Hle. apply Hinv.
      pose proof (size_insert_le userId (uniqueUsers s)). lia.
  - rewrite filter_cons_False by (by rewrite Hv).
    rewrite (recordRequest_invalid _ _ Hv) in *.
    split_and!; done.
Qed.

(** With the invariant and pairwise distinct texts, the used texts and the
    available words together account for every word. *)
Lemma used_plus_available s :
  Catalog.invariant s → NoDup (Catalog.texts s) →
  (size (usedWords s) + length (availableWords s) = length (words s))%nat.
Proof.
  intros Hinv Hnd. unfold availableWords.
  pose proof (filter_app_complement (λ w, word w ∉ usedWords s) (words s)) as Hperm.
  apply Permutation_length in Hperm. rewrite length_app in Hperm.
  set (taken := filter (λ w, ¬ (word w ∉ usedWords s)) (words s)) in *.
  assert (usedWords s = list_to_set (word <$> taken)) as Hset.
  { apply set_eq. intros k. rewrite elem_of_list_to_set, list_elem_of_fmap. split.
    - intros Hk. pose proof (Hinv k Hk) as Hin.
      apply elem_of_list_to_set, list_elem_of_fmap in Hin as (w & -> & Hw).
      exists w. split; [done|]. apply list_elem_of_filter. split; [|done].
      by intros Hn.
    - intros (w & -> & Hw). apply list_elem_of_filter in Hw as [Hw _].
      by apply dec_stable. }
  assert (NoDup (word <$> taken)) as Hnd'.
  { unfold Catalog.texts in Hnd. unfold taken.
    eapply sublist_NoDup; [exact Hnd|]. apply fmap_sublist, sublist_filter. }
  assert (size (usedWords s) = length taken) as Hsize.
  { rewrite Hset at 1. rewrite size_list_to_set by done. by rewrite length_fmap. }
  lia.
Qed.

End Counters.

(** X6: after any sequence of [recordRequest] calls, the request counter has
    grown by the number of calls with an accepted user id, the set of unique
    users has gained exactly those ids, the number of unique users does not
    exceed the number of requests if it did not before, and the words, the
    used set, the load counter and the initialised flag are unchanged. *)
Theorem recordRequest_counters (ids : list JS.userId) (s : WordService.t) :
  let valid_ids := filter (λ userId, Validator.isValidUserId userId = true) ids in
  let s' := Admin.recordRequests ids s in
  WordService.totalRequests s' = (WordService.totalRequests s + length valid_ids)%nat ∧
  WordService.uniqueUsers s' = list_to_set valid_ids ∪ WordService.uniqueUsers s ∧
  ((size (WordService.uniqueUsers s) ≤ WordService.totalRequests s)%nat →
   (size (WordService.uniqueUsers s') ≤ WordService.totalRequests s')%nat) ∧
  WordService.words s' = WordService.words s ∧
  WordService.usedWords s' = WordService.usedWords s ∧
  WordService.loadAttempts s' = WordService.loadAttempts s ∧
  WordService.isInitialized s' = WordService.isInitialized s.
Proof. apply recordRequests_spec. Qed.

(** X7: in a state that satisfies the invariant, the [remainingWords] of
    [getStats] lies between 0 and [totalWords]; when the word texts are
    pairwise distinct it is the number of words still available to
    [getRandomWord], so it is 0 exactly when no word is available. *)
Theorem getStats_remainingWords (s : WordService.t) :
  Catalog.invariant s →
  0 ≤ WordService.stats_remainingWords (WordService.getStats s)
    ≤ Z.of_nat (WordService.stats_totalWords (WordService.getStats s)) ∧
  (NoDup (Catalog.texts s) →
     WordService.stats_remainingWords (WordService.getStats s)
       = Z.of_nat (length (WordService.availableWords s)) ∧
     (WordService.stats_remainingWords (WordService.getStats s) = 0
        ↔ WordService.availableWords s = [])).
Proof.
  intros Hinv. simpl. split.
  - pose proof (subseteq_size _ _ Hinv) as Hle.
    pose proof (size_list_to_set_le (Catalog.texts s)) as Hle'.
    assert (length (Catalog.texts s) = length (WordService.words s)) as Hlen
      by (unfold Catalog.texts; by rewrite length_fmap).
    lia.
  - intros Hnd. pose proof (used_plus_available s Hinv Hnd) as Hsum.
    split; [lia|]. split.
    + intros H0. apply length_zero_iff_nil. lia.
    + intros Hnil. rewrite Hnil in Hsum. simpl in Hsum. lia.
Qed.

Lemma getStats_remainingWords_witness :
  Catalog.invariant fallback_service ∧
  0 ≤ WordService.stats_remainingWords (WordService.getStats fallback_service)
    ≤ Z.of_nat (WordService.stats_totalWords (WordService.getStats fallback_service)).
Proof.
  assert (Catalog.invariant fallback_service) as H
    by (apply (bool_decide_unpack _); vm_compute; exact I).
  split; [exact H|].
  exact (proj1 (getStats_remainingWords fallback_service H)).
Defined.

(** ** Uptime *)

Lemma uptime_parts_nonneg (diff : Z) :
  0 ≤ diff →
  Uptime.hours diff = diff `mod` Uptime.DAY / Uptime.HOUR ∧
  Uptime.minutes diff = diff `mod` Uptime.HOUR / Uptime.MINUTE.
Proof.
  intros H. unfold Uptime.hours, Uptime.minutes.
  rewrite !Z.rem_mod_nonneg by (unfold Uptime.DAY, Uptime.HOUR; lia). done.
Qed.

Lemma uptime_arith (diff : Z) :
  0 ≤ diff →
  let d := diff / 86400000 in
  let h := diff `mod` 86400000 / 3600000 in
  let m := diff `mod` 3600000 / 60000 in
  0 ≤ d ∧ 0 ≤ h < 24 ∧ 0 ≤ m < 60 ∧
  d * 86400000 + h * 3600000 + m * 60000 ≤ diff
    < d * 86400000 + h * 3600000 + (m + 1) * 60000.
Proof.
  intros Hdiff d h m.
  assert (diff `mod` 3600000 = (diff `mod` 86400000) `mod` 3600000) as Hmm.
  { symmetry. apply Z.mod_mod_divide. exists 24. lia. }
  pose proof (Z.div_mod diff 86400000 ltac:(lia)) as E1.
  pose proof (Z.mod_pos_bound diff 86400000 ltac:(lia)) as B1.
  pose proof (Z.div_mod (diff `mod` 86400000) 3600000 ltac:(lia)) as E2.
  pose proof (Z.mod_pos_bound (diff `mod` 86400000) 3600000 ltac:(lia)) as B2.
  pose proof (Z.div_mod (diff `mod` 3600000) 60000 ltac:(lia)) as E3.
  pose proof (Z.mod_pos_bound (diff `mod` 3600000) 60000 ltac:(lia)) as B3.
  pose proof (Z.mod_pos_bound diff 3600000 ltac:(lia)) as B4.
  rewrite <- Hmm in E2, B2.
  fold d in E1. fold h in E2. fold m in E3.
  clearbody d h m.
  generalize dependent (diff `mod` 86400000). intros r1 ? ? ? ?.
  generalize dependent (diff `mod` 3600000). intros r2 ? ? ? ? ?.
  generalize dependent (r2 `mod` 60000). intros r3 ? ?.
  lia.
Qed.

(** X8: for an elapsed time [diff >= 0] in milliseconds, the parts computed
    by [getUptime] are the days, the hours below 24 and the minutes below 60
    of [diff], exact to the minute; the text shows only the minutes below one
    hour, hours and minutes below one day, and all three parts from one day
    on. *)
Theorem getUptime_decomposition (diff : Z) :
  0 ≤ diff →
  let d := Uptime.days diff in
  let h := Uptime.hours diff in
  let m := Uptime.minutes diff in
  0 ≤ d ∧ 0 ≤ h < 24 ∧ 0 ≤ m < 60 ∧
  d * Uptime.DAY + h * Uptime.HOUR + m * Uptime.MINUTE ≤ diff
    < d * Uptime.DAY + h * Uptime.HOUR + (m + 1) * Uptime.MINUTE ∧
  (diff < Uptime.HOUR → Uptime.format diff = pretty m +:+ "m") ∧
  (Uptime.HOUR ≤ diff < Uptime.DAY →
     Uptime.format diff = pretty h +:+ "h " +:+ pretty m +:+ "m") ∧
  (Uptime.DAY ≤ diff →
     Uptime.format diff
     = pretty d +:+ "d " +:+ pretty h +:+ "h " +:+ pretty m +:+ "m").
Proof.
  intros Hdiff d h m.
  destruct (uptime_parts_nonneg diff Hdiff) as [Hh Hm].
  assert (0 ≤ d ∧ 0 ≤ h < 24 ∧ 0 ≤ m < 60 ∧
          d * Uptime.DAY + h * Uptime.HOUR + m * Uptime.MINUTE ≤ diff
            < d * Uptime.DAY + h * Uptime.HOUR + (m + 1) * Uptime.MINUTE) as Hparts.
  { unfold d, h, m. rewrite Hh, Hm.
    unfold Uptime.days, Uptime.DAY, Uptime.HOUR, Uptime.MINUTE.
    change (1000 * 60 * 60 * 24) with 86400000.
    change (1000 * 60 * 60) with 3600000. change (1000 * 60) with 60000.
    by apply uptime_arith. }
  destruct Hparts as (Hd & Hh' & Hm' & Hsum).
  split_and!; try done; try lia.
  - intros Hlt. unfold Uptime.format. fold d h m.
    assert (d = 0 ∧ h = 0) as [-> ->].
    { unfold Uptime.DAY, Uptime.HOUR, Uptime.MINUTE in *. lia. }
    done.
  - intros [Hge Hlt]. unfold Uptime.format. fold d h m.
    assert (d = 0 ∧ 0 < h) as [-> Hpos].
    { unfold Uptime.DAY, Uptime.HOUR, Uptime.MINUTE in *. lia. }
    simpl. by rewrite (proj2 (Z.ltb_lt 0 h) Hpos).
  - intros Hge. unfold Uptime.format. fold d h m.
    assert (0 < d) as Hpos.
    { unfold Uptime.DAY, Uptime.HOUR, Uptime.MINUTE in *. lia. }
    by rewrite (proj2 (Z.ltb_lt 0 d) Hpos).
Qed.

Lemma getUptime_decomposition_witness :
  0 ≤ 93784000 ∧
  0 ≤ Uptime.days 93784000 ∧ 0 ≤ Uptime.hours 93784000 < 24.
Proof.
  assert (0 ≤ 93784000) as H by lia.
  split; [exact H|].
  pose proof (getUptime_decomposition 93784000 H) as (Hd & Hh & _).
  split; [exact Hd | exact Hh].
Defined.

Example getUptime_texts :
  Uptime.WordService_getUptime 0 93784000 = "1d 2h 3m" ∧
  Uptime.WordService_getUptime 0 7500000 = "2h 5m" ∧
  Uptime.WordService_getUptime 0 300000 = "5m" ∧
  Uptime.BotManager_getUptime None 300000 = "0m" ∧
  Uptime.Logger_getUptime 0 125000 = "2m 5s".
Proof. split_and!; vm_compute; reflexivity. Qed.

(** ** User profiles: creation, difficulty, counters, clearing *)

Section ProfileStore.

Import UserService.

Implicit Types (s : UserService.t) (userId : JS.userId).

Lemma getUserData_Some userId s u :
  users s !! userId = Some u → getUserData userId s = (u, s).
Proof. intros H. unfold getUserData. by rewrite H. Qed.

Lemma getUserData_None userId s :
  users s !! userId = None →
  getUserData userId s
  = (newUser userId, set_users (<[userId := newUser userId]> (users s)) s).
Proof. intros H. unfold getUserData. by rewrite H. Qed.

Lemma getUserData_lookup userId s :
  users (getUserData userId s).2 !! userId = Some (getUserData userId s).1.
Proof.
  destruct (users s !! userId) as [u|] eqn:Hu.
  - by rewrite (getUserData_Some _ _ u).
  - rewrite getUserData_None by done. simpl. by rewrite lookup_insert_eq.
Qed.

(** The profile of a user as [getUserData] would return it. *)
Lemma getUserStats_valid userId s :
  Validator.isValidUserId userId = true →
  getUserStats userId s
  = (Some (mkView (totalWords (stats (getUserData userId s).1))
                  (streak (stats (getUserData userId s).1))
                  (lastUsed (stats (getUserData userId s).1))
                  (difficulty (getUserData userId s).1)
                  (length (history (getUserData userId s).1))),
     (getUserData userId s).2).
Proof.
  intros Hv. unfold getUserStats. rewrite Hv. simpl.
  by destruct (getUserData userId s).
Qed.

End ProfileStore.

(** X9: [getUserData] creates a profile with the defaults on first use and
    is idempotent afterwards: an existing profile is returned as it is and
    nothing changes; a second call returns the same profile and the same
    state; no other user's profile and not the word of the day is touched. *)
Theorem getUserData_idempotent (userId other : JS.userId) (s : UserService.t) :
  let u := (UserService.getUserData userId s).1 in
  let s1 := (UserService.getUserData userId s).2 in
  UserService.getUserData userId s1 = (u, s1) ∧
  UserService.users s1 !! userId = Some u ∧
  (∀ existing, UserService.users s !! userId = Some existing → u = existing ∧ s1 = s) ∧
  (UserService.users s !! userId = None → u = UserService.newUser userId) ∧
  (other ≠ userId → UserService.users s1 !! other = UserService.users s !! other) ∧
  UserService.wordOfTheDay s1 = UserService.wordOfTheDay s ∧
  UserService.wordOfTheDayDate s1 = UserService.wordOfTheDayDate s.
Proof.
  simpl. pose proof (getUserData_lookup userId s) as Hl.
  split_and!.
  - rewrite (getUserData_Some _ _ _ Hl). by destruct (UserService.getUserData userId s).
  - done.
  - intros existing He. by rewrite (getUserData_Some _ _ _ He).
  - intros Hn. by rewrite getUserData_None.
  - intros Hne. destruct (UserService.users s !! userId) as [u|] eqn:Hu.
    + by rewrite (getUserData_Some _ _ u).
    + rewrite getUserData_None by done. simpl. by rewrite lookup_insert_ne.
  - unfold UserService.getUserData. by destruct (UserService.users s !! userId).
  - unfold UserService.getUserData. by destruct (UserService.users s !! userId).
Qed.

(** X10: [setDifficulty] returns [true] exactly when the user id is accepted
    and the value is one of [easy], [medium], [hard]; when it returns [false]
    nothing changes, not even a profile is created; when it returns [true]
    the user's stats report the new difficulty with history length, word
    count, streak and timestamp as before, and other users are untouched. *)
Theorem setDifficulty_spec (userId other : JS.userId) (d : string) (s : UserService.t) :
  let ok := (UserService.setDifficulty userId d s).1 in
  let s' := (UserService.setDifficulty userId d s).2 in
  (ok = true ↔
     Validator.isValidUserId userId = true ∧ d ∈ ["easy"; "medium"; "hard"]) ∧
  (ok = false → s' = s) ∧
  (ok = true →
     ∃ before,
       (UserService.getUserStats userId s).1 = Some before ∧
       (UserService.getUserStats userId s').1
       = Some (UserService.mkView
                 (UserService.view_totalWords before) (UserService.view_streak before)
                 (UserService.view_lastUsed before) d
                 (UserService.view_historyLength before)) ∧
       (other ≠ userId →
          UserService.users s' !! other = UserService.users s !! other)).
Proof.
  simpl. unfold UserService.setDifficulty.
  destruct (Validator.isValidUserId userId) eqn:Hv; simpl.
  2:{ split_and!; [split; [done | by intros [? _]] | done | done]. }
  destruct (decide (d ∈ ["easy"; "medium"; "hard"])) as [Hd|Hd].
  2:{ rewrite bool_decide_eq_false_2 by done. simpl.
      split_and!; [split; [done | by intros [_ ?]] | done | done]. }
  rewrite bool_decide_eq_true_2 by done. simpl.
  pose proof (getUserData_lookup userId s) as Hl.
  destruct (UserService.getUserData userId s) as [u s1] eqn:Hg. simpl in *.
  split_and!; [done | done |]. intros _.
  rewrite !getUserStats_valid by done. rewrite Hg. simpl.
  eexists. split; [done|]. split.
  - unfold UserService.getUserData. simpl. by rewrite lookup_insert_eq.
  - intros Hne. rewrite lookup_insert_ne by done.
    change s1 with (u, s1).2. rewrite <- Hg.
    destruct (UserService.users s !! userId) as [u0|] eqn:Hu.
    + by rewrite (getUserData_Some _ _ u0).
    + rewrite getUserData_None by done. simpl. by rewrite lookup_insert_ne.
Qed.

(** X11: [calculateWordDifficulty] always returns one of the three values
    [setDifficulty] accepts, and it is monotone: a word that is no longer and
    whose definition is no longer than another's, by [.length] in UTF-16
    code units, is never rated harder. *)
Theorem calculateWordDifficulty_monotone (w1 w2 : Word) :
  UserService.calculateWordDifficulty w1 ∈ ["easy"; "medium"; "hard"] ∧
  ((JS.string_length (word w1) ≤ JS.string_length (word w2))%nat →
   (JS.string_length (definition w1) ≤ JS.string_length (definition w2))%nat →
   (UserService.calculateWordDifficulty w2 = "easy" →
      UserService.calculateWordDifficulty w1 = "easy") ∧
   (UserService.calculateWordDifficulty w1 = "hard" →
      UserService.calculateWordDifficulty w2 = "hard")).
Proof.
  unfold UserService.calculateWordDifficulty.
  split.
  - repeat destruct (_ && _); set_solver.
  - intros Hw Hd.
    destruct (Nat.leb_spec (JS.string_length (word w1)) 6);
    destruct (Nat.leb_spec (JS.string_length (definition w1)) 100);
    destruct (Nat.leb_spec (JS.string_length (word w1)) 10);
    destruct (Nat.leb_spec (JS.string_length (definition w1)) 150);
    destruct (Nat.leb_spec (JS.string_length (word w2)) 6);
    destruct (Nat.leb_spec (JS.string_length (definition w2)) 100);
    destruct (Nat.leb_spec (JS.string_length (word w2)) 10);
    destruct (Nat.leb_spec (JS.string_length (definition w2)) 150);
    simpl; split; intros; try done; lia.
Qed.

(** The lengths are counted in code units: a word of six letters, two of
    them accented, is rated easy; an emoji counts two. *)
Example calculateWordDifficulty_code_units :
  JS.string_length "créées" = 6%nat ∧
  UserService.calculateWordDifficulty (mkWord "créées" "Made, in French." "*") = "easy" ∧
  UserService.calculateWordDifficulty (mkWord "🧠🧠🧠🧠" "Four brains." "*") = "medium".
Proof. split_and!; vm_compute; reflexivity. Qed.

(** X12: [clearUserData] removes the profile of the given user and nothing
    else: afterwards the user reads as new (no history, and for an accepted
    id the default stats), every other profile and the word of the day are
    as before, and clearing a user that has no profile changes nothing. *)
Theorem clearUserData_forgets (userId other : JS.userId) (s : UserService.t) :
  let s' := Admin.clearUserData userId s in
  Admin.getAllUsers s' !! userId = None ∧
  UserService.historyOf userId s' = [] ∧
  (∀ limit, (UserService.getHistory userId limit s').1 = []) ∧
  (Validator.isValidUserId userId = true →
     (UserService.getUserStats userId s').1
     = Some (UserService.mkView 0 0 None "medium" 0)) ∧
  (other ≠ userId →
     Admin.getAllUsers s' !! other = Admin.getAllUsers s !! other) ∧
  UserService.wordOfTheDay s' = UserService.wordOfTheDay s ∧
  UserService.wordOfTheDayDate s' = UserService.wordOfTheDayDate s ∧
  (Admin.getAllUsers s !! userId = None → s' = s).
Proof.
  simpl. unfold Admin.clearUserData, Admin.getAllUsers. simpl.
  assert (delete userId (UserService.users s) !! userId = None) as Hdel
    by apply lookup_delete_eq.
  split_and!; try done.
  - unfold UserService.historyOf. simpl. by rewrite Hdel.
  - intros limit. unfold UserService.getHistory.
    destruct (Validator.isValidUserId userId); [|done]. simpl.
    unfold UserService.getUserData. simpl. rewrite Hdel. simpl.
    unfold JS.slice0. by destruct (limit <? 0); rewrite take_nil.
  - intros Hv. rewrite getUserStats_valid by done.
    unfold UserService.getUserData. simpl. by rewrite Hdel.
  - intros Hne. by rewrite lookup_delete_ne.
  - intros Hn. rewrite delete_id by done. by destruct s.
Qed.

Section Recording.

Import UserService.

Implicit Types (s : UserService.t) (userId : JS.userId).

(** The profile after one recorded word, for an accepted id. *)
Lemma addToHistory_profile userId w tEntry tUsed tNow s :
  Validator.isValidUserId userId = true →
  0 ≤ tNow - tUsed < day_ms →
  let u := (getUserData userId s).1 in
  users (addToHistory userId (Some w) tEntry tUsed tNow s) !! userId
  = Some (mkUser (id u)
            (take 50 (entryOf (w, (tEntry, tUsed, tNow)) :: history u))
            (difficulty u) (categories u) (wordLength u)
            (mkStats (S (totalWords (stats u))) (streak (stats u)) (Some tUsed))).
Proof.
  intros Hv Hclock. unfold addToHistory. rewrite Hv. simpl.
  destruct (getUserData userId s) as [u s1] eqn:Hg. simpl.
  rewrite lookup_insert_eq. unfold updateStreak. simpl.
  rewrite (Z.div_small (tNow - tUsed) day_ms) by done. simpl.
  f_equal. f_equal. exact (cap_is_take (entryOf (w, (tEntry, tUsed, tNow)) :: history u)).
Qed.

Lemma addToHistory_other userId other (w : option Word) tEntry tUsed tNow s :
  other ≠ userId →
  users (addToHistory userId w tEntry tUsed tNow s) !! other = users s !! other.
Proof.
  intros Hne. unfold addToHistory. destruct w; [|done].
  destruct (Validator.isValidUserId userId); [|done]. simpl.
  unfold getUserData. destruct (users s !! userId); simpl;
    by rewrite ?lookup_insert_ne by done.
Qed.

(** The stats view of a user after a sequence of recordings made with
    clocks that do not jump: counters add up, the history is capped, the
    streak and the difficulty stay. *)
Lemma recordAll_view userId events : ∀ s,
  Validator.isValidUserId userId = true →
  (∀ w tEntry tUsed tNow, (w, (tEntry, tUsed, tNow)) ∈ events →
     0 ≤ tNow - tUsed < day_ms) →
  ∃ before after,
    (getUserStats userId s).1 = Some before ∧
    (getUserStats userId (recordAll userId events s)).1 = Some after ∧
    view_totalWords after = (view_totalWords before + length events)%nat ∧
    view_historyLength after
      = (if decide (events = []) then view_historyLength before
         else (view_historyLength before + length events) `min` 50)%nat ∧
    view_streak after = view_streak before ∧
    view_difficulty after = view_difficulty before.
Proof.
  induction events as [|[w [[tEntry tUsed] tNow]] events IH]; intros s Hv Hclock.
  { change (recordAll userId [] s) with s.
    rewrite getUserStats_valid by done. eexists _, _. simpl.
    split_and!; [done | done | simpl; lia | done | done | done]. }
  change (recordAll userId ((w, (tEntry, tUsed, tNow)) :: events) s)
    with (recordAll userId events (addToHistory userId (Some w) tEntry tUsed tNow s)).
  destruct (IH (addToHistory userId (Some w) tEntry tUsed tNow s)) as
    (mid & after & Hmid & Hafter & Ht & Hh & Hs & Hd); [done | |].
  { intros w' a b c Hin. eapply Hclock. by right. }
  assert (0 ≤ tNow - tUsed < day_ms) as Hc by (eapply Hclock; by left).
  pose proof (addToHistory_profile userId w tEntry tUsed tNow s Hv Hc) as Hp.
  cbv zeta in Hp.
  rewrite getUserStats_valid in Hmid by done.
  rewrite (getUserData_Some _ _ _ Hp) in Hmid.
  cbn [fst totalWords streak lastUsed difficulty history stats] in Hmid.
  apply (inj Some) in Hmid. subst mid.
  cbn [view_totalWords view_historyLength view_streak view_difficulty] in Ht, Hh, Hs, Hd.
  rewrite getUserStats_valid by done.
  eexists _, after. split_and!; [done | done | | | done | done].
  - cbn [fst view_totalWords length]. lia.
  - rewrite Hh. cbn [fst view_historyLength]. rewrite length_take. cbn [length].
    destruct (decide ((w, (tEntry, tUsed, tNow)) :: events = [])) as [?|_];
      [discriminate|].
    cbn [length].
    destruct (decide (events = [])) as [->|Hne]; [cbn [length]|]; lia.
Qed.

End Recording.

(** X13: for an accepted user id and clock readings that do not jump inside
    a call, recording a sequence of words adds their number to the user's
    word count, which keeps counting past the cap of the history; the length
    of the history is the old length plus that number, cut at 50; the
    difficulty is unchanged. *)
Theorem recordAll_counts_past_cap
    (userId : JS.userId) (events : list (Word * (Z * Z * Z))) (s : UserService.t) :
  Validator.isValidUserId userId = true →
  (∀ w tEntry tUsed tNow, (w, (tEntry, tUsed, tNow)) ∈ events →
     0 ≤ tNow - tUsed < UserService.day_ms) →
  events ≠ [] →
  ∃ before after,
    (UserService.getUserStats userId s).1 = Some before ∧
    (UserService.getUserStats userId (UserService.recordAll userId events s)).1
      = Some after ∧
    UserService.view_totalWords after
      = (UserService.view_totalWords before + length events)%nat ∧
    UserService.view_historyLength after
      = ((UserService.view_historyLength before + length events) `min` 50)%nat ∧
    UserService.view_difficulty after = UserService.view_difficulty before.
Proof.
  intros Hv Hclock Hne.
  destruct (recordAll_view userId events s Hv Hclock)
    as (before & after & Hb & Ha & Ht & Hh & _ & Hd).
  exists before, after. rewrite decide_False in Hh by done. done.
Qed.

Lemma recordAll_counts_past_cap_witness :
  Validator.isValidUserId (JS.IdNum 42) = true ∧
  (∀ w tEntry tUsed tNow, (w, (tEntry, tUsed, tNow)) ∈ sixty_events →
     0 ≤ tNow - tUsed < UserService.day_ms) ∧
  sixty_events ≠ [] ∧
  ∃ before after,
    (UserService.getUserStats (JS.IdNum 42) UserService.new).1 = Some before ∧
    (UserService.getUserStats (JS.IdNum 42)
       (UserService.recordAll (JS.IdNum 42) sixty_events UserService.new)).1
      = Some after ∧
    UserService.view_totalWords after
      = (UserService.view_totalWords before + length sixty_events)%nat ∧
    UserService.view_historyLength after
      = ((UserService.view_historyLength before + length sixty_events) `min` 50)%nat ∧
    UserService.view_difficulty after = UserService.view_difficulty before.
Proof.
  assert (Validator.isValidUserId (JS.IdNum 42) = true) as H1 by reflexivity.
  assert (∀ w tEntry tUsed tNow, (w, (tEntry, tUsed, tNow)) ∈ sixty_events →
            0 ≤ tNow - tUsed < UserService.day_ms) as H2.
  { intros w a b c Hin. unfold sixty_events in Hin.
    apply list_elem_of_fmap in Hin as (i & [= _ _ -> ->] & _).
    unfold UserService.day_ms. lia. }
  assert (sixty_events ≠ []) as H3 by discriminate.
  split_and!; [exact H1 | exact H2 | exact H3 |].
  exact (recordAll_counts_past_cap (JS.IdNum 42) sixty_events UserService.new H1 H2 H3).
Defined.

(** X14: for an accepted user id and clock readings that do not jump inside
    a call, no sequence of recordings changes the streak the stats report:
    a new user's streak stays 0 however the recordings are spread over
    days. *)
Theorem recordAll_streak_unchanged
    (userId : JS.userId) (events : list (Word * (Z * Z * Z))) (s : UserService.t) :
  Validator.isValidUserId userId = true →
  (∀ w tEntry tUsed tNow, (w, (tEntry, tUsed, tNow)) ∈ events →
     0 ≤ tNow - tUsed < UserService.day_ms) →
  ∃ before after,
    (UserService.getUserStats userId s).1 = Some before ∧
    (UserService.getUserStats userId (UserService.recordAll userId events s)).1
      = Some after ∧
    UserService.view_streak after = UserService.view_streak before ∧
    (UserService.users s !! userId = None → UserService.view_streak after = 0%nat).
Proof.
  intros Hv Hclock.
  destruct (recordAll_view userId events s Hv Hclock)
    as (before & after & Hb & Ha & _ & _ & Hs & _).
  exists before, after. split_and!; try done.
  intros Hnone. rewrite Hs.
  rewrite getUserStats_valid in Hb by done. injection Hb as <-.
  by rewrite getUserData_None.
Qed.

Lemma recordAll_streak_unchanged_witness :
  Validator.isValidUserId (JS.IdNum 42) = true ∧
  (∀ w tEntry tUsed tNow, (w, (tEntry, tUsed, tNow)) ∈ daily_events →
     0 ≤ tNow - tUsed < UserService.day_ms) ∧
  ∃ before after,
    (UserService.getUserStats (JS.IdNum 42) UserService.new).1 = Some before ∧
    (UserService.getUserStats (JS.IdNum 42)
       (UserService.recordAll (JS.IdNum 42) daily_events UserService.new)).1
      = Some after ∧
    UserService.view_streak after = UserService.view_streak before ∧
    (UserService.users UserService.new !! JS.IdNum 42 = None →
       UserService.view_streak after = 0%nat).
Proof.
  assert (Validator.isValidUserId (JS.IdNum 42) = true) as H1 by reflexivity.
  assert (∀ w tEntry tUsed tNow, (w, (tEntry, tUsed, tNow)) ∈ daily_events →
            0 ≤ tNow - tUsed < UserService.day_ms) as H2.
  { intros w a b c Hin. unfold daily_events in Hin.
    apply list_elem_of_fmap in Hin as (i & [= _ _ -> ->] & _).
    unfold UserService.day_ms. lia. }
  split_and!; [exact H1 | exact H2 |].
  exact (recordAll_streak_unchanged (JS.IdNum 42) daily_events UserService.new H1 H2).
Defined.

(** X15: [getHistory] with a rejected user id returns the empty list and
    changes nothing.  With an accepted id the result is always a prefix of
    the stored history: the whole history when the limit reaches its length,
    and for a negative limit [-k] the history without its last [k] entries;
    the call leaves the history as it was but creates the profile of a user
    that had none. *)
Theorem getHistory_edges (userId : JS.userId) (limit : Z) (s : UserService.t) :
  let h := UserService.historyOf userId s in
  let result := (UserService.getHistory userId limit s).1 in
  let s' := (UserService.getHistory userId limit s).2 in
  (Validator.isValidUserId userId = false → result = [] ∧ s' = s) ∧
  (Validator.isValidUserId userId = true →
     result `prefix_of` h ∧
     (Z.of_nat (length h) ≤ limit → result = h) ∧
     (limit < 0 → result = take (length h - Z.to_nat (- limit)) h) ∧
     UserService.historyOf userId s' = h ∧
     is_Some (UserService.users s' !! userId) ∧
     (UserService.users s !! userId = None →
        UserService.users s' = <[userId := UserService.newUser userId]> (UserService.users s))).
Proof.
  simpl. split.
  - intros Hv. unfold UserService.getHistory. by rewrite Hv.
  - intros Hv.
    assert ((UserService.getHistory userId limit s).2 = (UserService.getUserData userId s).2)
      as Hs.
    { unfold UserService.getHistory. rewrite Hv. simpl.
      by destruct (UserService.getUserData userId s). }
    rewrite Hs, getHistory_slice by done.
    split_and!.
    + unfold JS.slice0. destruct (limit <? 0); apply prefix_take.
    + intros Hle. rewrite slice0_nonneg by lia. apply take_ge. lia.
    + intros Hneg. unfold JS.slice0. rewrite (proj2 (Z.ltb_lt limit 0) Hneg).
      f_equal. lia.
    + unfold UserService.historyOf, UserService.getUserData.
      destruct (UserService.users s !! userId) as [u|] eqn:Hu; simpl;
        [by rewrite Hu | by rewrite lookup_insert_eq].
    + rewrite getUserData_lookup. by eexists.
    + intros Hn. by rewrite getUserData_None.
Qed.

(** ** Bot token, environment and input sanitising *)

Section Token.

Import ValidatorEnv.

Lemma is_digit_colon : is_digit ":" = false.
Proof. reflexivity. Qed.

(** A text is its leading digits followed by the rest. *)
Lemma skip_digits_split (s : string) :
  ∃ ds, s = ds +:+ skip_digits s ∧ all_chars is_digit ds = true.
Proof.
  induction s as [|c s (ds & Hs & Hd)]; [by exists ""|].
  simpl. destruct (is_digit c) eqn:Hc.
  - exists (String c ds). split.
    + change (String c ds +:+ skip_digits s) with (String c (ds +:+ skip_digits s)).
      by rewrite <- Hs.
    + simpl. by rewrite Hc, Hd.
  - by exists "".
Qed.

(** Digits followed by a colon: the colon is where the digits stop. *)
Lemma skip_digits_colon (ds body : string) :
  all_chars is_digit ds = true →
  skip_digits (ds +:+ String ":" body) = String ":" body.
Proof.
  induction ds as [|c ds IH]; intros Hd; [done|].
  simpl in Hd. apply andb_true_iff in Hd as [Hc Hd].
  change (String c ds +:+ String ":" body) with (String c (ds +:+ String ":" body)).
  simpl. rewrite Hc. by apply IH.
Qed.

Lemma tokenRegex_test_iff (token : string) :
  tokenRegex_test token = true ↔
  ∃ ds body, token = ds +:+ String ":" body ∧ ds ≠ "" ∧
             all_chars is_digit ds = true ∧
             String.length body = 35%nat ∧
             all_chars is_token_char body = true.
Proof.
  split.
  - unfold tokenRegex_test. destruct token as [|c rest]; [done|].
    intros H. apply andb_true_iff in H as [Hc H].
    destruct (skip_digits_split (String c rest)) as (ds & Hs & Hd).
    destruct (skip_digits (String c rest)) as [|c' body] eqn:Hskip; [done|].
    destruct (Ascii.eqb_spec c' ":") as [->|Hne].
    2:{ destruct c' as [[] [] [] [] [] [] [] []]; try done. }
    assert (String ":" body = String ":" body) as _ by done.
    replace (match ":"%char with
             | ":"%char => (String.length body =? 35)%nat && all_chars is_token_char body
             | _ => false
             end)
      with ((String.length body =? 35)%nat && all_chars is_token_char body) in H by done.
    apply andb_true_iff in H as [Hlen Hbody]. apply Nat.eqb_eq in Hlen.
    exists ds, body. split_and!; try done.
    intros ->. simpl in Hs. injection Hs as -> _. by rewrite is_digit_colon in Hc.
  - intros (ds & body & -> & Hne & Hd & Hlen & Hbody).
    unfold tokenRegex_test.
    destruct ds as [|c ds]; [done|].
    change (String c ds +:+ String ":" body) with (String c (ds +:+ String ":" body)).
    change (String c (ds +:+ String ":" body)) with (String c ds +:+ String ":" body) at 2.
    rewrite skip_digits_colon by done.
    simpl in Hd. apply andb_true_iff in Hd as [Hc _]. rewrite Hc. simpl.
    rewrite Hlen, Hbody. done.
Qed.

End Token.

(** X16: [isValidBotToken] accepts exactly the texts made of one or more
    digits, a colon, and 35 characters out of letters, digits, underscore and
    hyphen; an absent token is rejected, and an accepted token is at least 37
    characters long. *)
Theorem isValidBotToken_shape (token : option string) :
  (ValidatorEnv.isValidBotToken token = true ↔
   ∃ ds body,
     token = Some (ds +:+ String ":" body) ∧ ds ≠ "" ∧
     ValidatorEnv.all_chars ValidatorEnv.is_digit ds = true ∧
     String.length body = 35%nat ∧
     ValidatorEnv.all_chars ValidatorEnv.is_token_char body = true) ∧
  (ValidatorEnv.isValidBotToken token = true →
   ∃ t, token = Some t ∧ (37 ≤ String.length t)%nat).
Proof.
  assert (ValidatorEnv.isValidBotToken token = true ↔
          ∃ ds body,
            token = Some (ds +:+ String ":" body) ∧ ds ≠ "" ∧
            ValidatorEnv.all_chars ValidatorEnv.is_digit ds = true ∧
            String.length body = 35%nat ∧
            ValidatorEnv.all_chars ValidatorEnv.is_token_char body = true) as Hiff.
  { destruct token as [t|]; simpl.
    2:{ split; [done | by intros (? & ? & ? & _)]. }
    destruct (String.eqb_spec t "") as [->|Hne].
    - split; [done|]. intros (ds & body & [= Heq] & Hds & _).
      destruct ds; [done | discriminate Heq].
    - rewrite tokenRegex_test_iff. split.
      + intros (ds & body & -> & H). by exists ds, body.
      + intros (ds & body & [= ->] & H). by exists ds, body. }
  split; [done|].
  intros Hv. apply Hiff in Hv as (ds & body & -> & Hds & _ & Hlen & _).
  eexists. split; [done|].
  rewrite string_length_append. simpl. rewrite Hlen.
  destruct ds; [done | simpl; lia].
Qed.

(** X17: [validateEnvironment] reports the environment valid exactly when
    the token variable holds a well-formed token; it reports at most one
    error, and a missing [NODE_ENV] only adds a warning.  For the
    configuration [config.js] builds from the same environment, the second
    token check of [validateConfig] never changes the outcome. *)
Theorem validateEnvironment_spec (env : ValidatorEnv.environment) :
  let v := ValidatorEnv.validateEnvironment env in
  ValidatorEnv.env_valid v = ValidatorEnv.isValidBotToken (ValidatorEnv.BOT_TOKEN_CODE env) ∧
  (ValidatorEnv.env_valid v = true ↔ ValidatorEnv.env_errors v = []) ∧
  (length (ValidatorEnv.env_errors v) ≤ 1)%nat ∧
  (ValidatorEnv.env_errors v = [ValidatorEnv.TokenNotSet]
     ↔ ValidatorEnv.falsy (ValidatorEnv.BOT_TOKEN_CODE env) = true) ∧
  (ValidatorEnv.env_warnings v = []
     ↔ ValidatorEnv.falsy (ValidatorEnv.NODE_ENV env) = false) ∧
  ValidatorEnv.validateConfig env (Some (ValidatorEnv.config_botToken env))
    = ValidatorEnv.env_valid v.
Proof.
  destruct env as [token node]. unfold ValidatorEnv.validateConfig,
    ValidatorEnv.validateEnvironment, ValidatorEnv.config_botToken. simpl.
  destruct token as [t|]; simpl.
  - destruct (String.eqb_spec t "") as [->|Hne]; simpl.
    + destruct node as [n|]; simpl; [destruct (String.eqb n "")|]; simpl;
        split_and!; try done; try lia.
    + destruct (ValidatorEnv.tokenRegex_test t) eqn:Ht; simpl;
        destruct node as [n|]; simpl; try destruct (String.eqb n ""); simpl;
        rewrite ?(proj2 (String.eqb_neq t "") Hne), ?Ht; simpl;
        split_and!; try done; try lia.
  - destruct node as [n|]; simpl; [destruct (String.eqb n "")|]; simpl;
      split_and!; try done; try lia.
Qed.

Section Sanitising.

Import ValidatorEnv.


Lemma remove_angle_brackets_id (s : string) :
  (∀ c, In c (list_ascii_of_string s) → c ≠ "<"%char ∧ c ≠ ">"%char) →
  remove_angle_brackets s = s.
Proof.
  induction s as [|a s IH]; intros Hs; [done|]. simpl.
  destruct (Hs a) as [H1 H2]; [by left|].
  rewrite (proj2 (Ascii.eqb_neq a "<") H1), (proj2 (Ascii.eqb_neq a ">") H2). simpl.
  rewrite IH; [done|]. intros c Hc. apply Hs. by right.
Qed.

End Sanitising.


(** The output can still start with white space: trimming comes first. *)
Example sanitizeString_not_idempotent :
  ValidatorEnv.sanitizeString (Some "< a") = " a" ∧
  ValidatorEnv.sanitizeString (Some " a") = "a".
Proof. split; reflexivity. Qed.

(** No-break spaces around the text are trimmed like any white space. *)
Example sanitizeString_no_break_space :
  ValidatorEnv.sanitizeString (Some (nbsp +:+ "a" +:+ nbsp)) = "a" ∧
  ValidatorEnv.sanitizeString (Some (nbsp +:+ "<b>" +:+ nbsp +:+ "c ")) = "b" +:+ nbsp +:+ "c".
Proof. split; vm_compute; reflexivity. Qed.

(** ** Logger levels *)

Lemma Logger_levels_cases (name : string) :
  (name = "ERROR" ∧ Logger.levels name = Some 0%nat) ∨
  (name = "WARN" ∧ Logger.levels name = Some 1%nat) ∨
  (name = "INFO" ∧ Logger.levels name = Some 2%nat) ∨
  (name = "DEBUG" ∧ Logger.levels name = Some 3%nat) ∨
  (name ≠ "WARN" ∧ name ≠ "DEBUG" ∧ Logger.levels name = None).
Proof.
  unfold Logger.levels.
  destruct (String.eqb_spec name "ERROR") as [->|H1]; [by left|].
  destruct (String.eqb_spec name "WARN") as [->|H2]; [by right; left|].
  destruct (String.eqb_spec name "INFO") as [->|H3]; [by right; right; left|].
  destruct (String.eqb_spec name "DEBUG") as [->|H4]; [by right; right; right; left|].
  by right; right; right; right.
Qed.

(** X19: [setLevel] can select only WARN, INFO or DEBUG: it gives WARN for
    the name [warn] and DEBUG for [debug] in any letter case, and INFO for
    every other name, the name [error] included; so after any [setLevel]
    errors and warnings are always printed. *)
Theorem setLevel_never_error (name : string) :
  (Logger.setLevel name = 1%nat ↔ Logger.toUpperCase name = "WARN") ∧
  (Logger.setLevel name = 3%nat ↔ Logger.toUpperCase name = "DEBUG") ∧
  (Logger.toUpperCase name ≠ "WARN" → Logger.toUpperCase name ≠ "DEBUG" →
     Logger.setLevel name = 2%nat) ∧
  Logger.setLevel name ≠ 0%nat ∧
  Logger.prints Logger.error (Logger.setLevel name) = true ∧
  Logger.prints Logger.warn (Logger.setLevel name) = true.
Proof.
  unfold Logger.setLevel.
  destruct (Logger_levels_cases (Logger.toUpperCase name))
    as [[-> ->] | [[-> ->] | [[-> ->] | [[-> ->] | (H1 & H2 & ->)]]]]; simpl;
    split_and!; try done.
Qed.

Example setLevel_error_is_info :
  Logger.setLevel "error" = 2%nat ∧ Logger.setLevel "ERROR" = 2%nat ∧
  Logger.setLevel "Debug" = 3%nat ∧ Logger.setLevel "verbose" = 2%nat.
Proof. split_and!; reflexivity. Qed.

(** ** Word by index *)

(** X20: [getWordByIndex] returns a word exactly for an index from 0 up to
    the length of the sequence, and [null] for every other index; every word
    [getRandomWord] returns is the word at some index. *)
Theorem getWordByIndex_bounds (index : Z) (s : WordService.t) (r : JS.random) :
  (is_Some (Admin.getWordByIndex index s)
     ↔ 0 ≤ index < Z.of_nat (length (WordService.words s))) ∧
  (∀ w, Admin.getWordByIndex index s = Some w → w ∈ WordService.words s) ∧
  (∀ w, (WordService.getRandomWord r s).1 = Some w →
     ∃ i, Admin.getWordByIndex i s = Some w).
Proof.
  unfold Admin.getWordByIndex. split_and!.
  - destruct (Z.leb_spec 0 index); destruct (Z.ltb_spec index (Z.of_nat (length (WordService.words s))));
      simpl; try (split; [by intros [? ?] | lia]).
    split; [lia|]. intros _. apply lookup_lt_is_Some. lia.
  - intros w. destruct (_ && _); [|done]. apply list_elem_of_lookup_2.
  - intros w Hw.
    destruct (WordService.getRandomWord r s) as [res s'] eqn:Hcall. simpl in Hw. subst res.
    apply getRandomWord_Some in Hcall as [Hin _].
    apply list_elem_of_lookup in Hin as [i Hi].
    exists (Z.of_nat i).
    pose proof (lookup_lt_Some _ _ _ Hi).
    rewrite (proj2 (Z.leb_le 0 (Z.of_nat i))) by lia.
    rewrite (proj2 (Z.ltb_lt (Z.of_nat i) _)) by lia. simpl.
    by rewrite Nat2Z.id.
Qed.

(** ** The command handlers *)

Section Handlers.

Import CommandHandler.

Implicit Types (msg : Message) (w : world) (st : state).

Lemma withSender_invalid msg st body userId :
  from_id msg = Some userId →
  Validator.isValidUserId userId = false →
  withSender msg st body = (st, None).
Proof. intros Hf Hv. unfold withSender. by rewrite Hf, Hv. Qed.

Lemma withSender_absent msg st body :
  from_id msg = None → withSender msg st body = (st, Some no_sender).
Proof. intros Hf. unfold withSender. by rewrite Hf. Qed.

Lemma withSender_valid msg st body userId :
  from_id msg = Some userId →
  Validator.isValidUserId userId = true →
  withSender msg st body
  = body userId
      (set_wordService (WordService.recordRequest userId (wordService st)) st).
Proof. intros Hf Hv. unfold withSender. by rewrite Hf, Hv. Qed.

(** The handlers, by the command that reaches them. *)
Lemma commands_cases (command : string) :
  (∃ body, commands command = Some (λ msg w st, withSender msg st (body msg w))) ∨
  commands command = None.
Proof.
  unfold commands.
  repeat match goal with
         | |- context [String.eqb command ?c] => destruct (String.eqb command c)
         end;
    try (left; eexists; reflexivity).
  by right.
Qed.

Lemma commands_registered (command : string) :
  is_Some (commands command) ↔ command ∈ Bot.registered.
Proof.
  unfold commands, Bot.registered. rewrite !elem_of_cons.
  repeat match goal with
         | |- context [String.eqb command ?c] =>
             destruct (String.eqb_spec command c) as [->|?]
         end;
    try (split; [intros _; tauto | intros _; by eexists]).
  split; [by intros [? ?]|].
  intros [?|[?|[?|[?|[?|[?|[?|[?|[?|H%not_elem_of_nil]]]]]]]]]; done.
Qed.

End Handlers.

(** X21: a message whose sender id the validator rejects is ignored by every
    handler: executing any command for it, and the unknown-command handler,
    send nothing, record no request, touch no profile and raise no error. *)
Theorem handlers_ignore_invalid_sender
    (command : string) (msg : CommandHandler.Message) (w : CommandHandler.world)
    (st : CommandHandler.state) (userId : JS.userId) :
  CommandHandler.from_id msg = Some userId →
  Validator.isValidUserId userId = false →
  CommandHandler.executeCommand command msg w st = (st, None) ∧
  CommandHandler.onTextCallback command msg w st = st ∧
  CommandHandler.handleUnknownCommand msg w st = (st, None).
Proof.
  intros Hf Hv.
  assert (CommandHandler.executeCommand command msg w st = (st, None)) as He.
  { unfold CommandHandler.executeCommand.
    destruct (commands_cases command) as [[body ->] | ->]; [|done].
    by eapply withSender_invalid. }
  split_and!; [done | |].
  - unfold CommandHandler.onTextCallback. by rewrite He.
  - by eapply withSender_invalid.
Qed.

Lemma handlers_ignore_invalid_sender_witness :
  CommandHandler.from_id message_from_nobody = Some (JS.IdNum 0) ∧
  Validator.isValidUserId (JS.IdNum 0) = false ∧
  CommandHandler.onTextCallback "/word" message_from_nobody a_world ready_state
  = ready_state.
Proof.
  assert (CommandHandler.from_id message_from_nobody = Some (JS.IdNum 0)) as H1
    by reflexivity.
  assert (Validator.isValidUserId (JS.IdNum 0) = false) as H2 by reflexivity.
  split_and!; [exact H1 | exact H2 |].
  exact (proj1 (proj2 (handlers_ignore_invalid_sender "/word" message_from_nobody
                         a_world ready_state (JS.IdNum 0) H1 H2))).
Defined.

(** X22: a message without a sender makes every registered command throw
    before anything is done: the callback answers it with the generic error
    text and nothing else changes; for a command that is not registered
    nothing happens at all. *)
Theorem command_without_sender_gets_error_reply
    (command : string) (msg : CommandHandler.Message) (w : CommandHandler.world)
    (st : CommandHandler.state) :
  CommandHandler.from_id msg = None →
  (command ∈ Bot.registered →
     CommandHandler.onTextCallback command msg w st
     = CommandHandler.mkState (CommandHandler.wordService st)
         (CommandHandler.userService st)
         (CommandHandler.sent st
          ++ [(CommandHandler.chat_id msg, CommandHandler.ErrorMessage)])) ∧
  (command ∉ Bot.registered → CommandHandler.onTextCallback command msg w st = st).
Proof.
  intros Hf. unfold CommandHandler.onTextCallback, CommandHandler.executeCommand.
  split.
  - intros Hreg. apply commands_registered in Hreg as [h Hh].
    destruct (commands_cases command) as [[body Hb] | Hn]; [|congruence].
    rewrite Hb. by rewrite withSender_absent.
  - intros Hreg.
    destruct (CommandHandler.commands command) as [h|] eqn:Hh; [|done].
    exfalso. apply Hreg, commands_registered. by eexists.
Qed.

Lemma command_without_sender_gets_error_reply_witness :
  CommandHandler.from_id channel_post = None ∧
  CommandHandler.sent
    (CommandHandler.onTextCallback "/word" channel_post a_world ready_state)
  = [(7, CommandHandler.ErrorMessage)].
Proof.
  assert (CommandHandler.from_id channel_post = None) as H by reflexivity.
  split; [exact H|].
  assert ("/word" ∈ Bot.registered) as Hreg
    by (apply (bool_decide_unpack _); vm_compute; exact I).
  rewrite (proj1 (command_without_sender_gets_error_reply "/word" channel_post
                    a_world ready_state H) Hreg).
  reflexivity.
Defined.

Section HandlerReplies.

Import CommandHandler.

Implicit Types (msg : Message) (w : world) (st : state) (userId : JS.userId).

Lemma getRandomWord_counters r s :
  WordService.totalRequests (WordService.getRandomWord r s).2 = WordService.totalRequests s ∧
  WordService.uniqueUsers (WordService.getRandomWord r s).2 = WordService.uniqueUsers s.
Proof.
  destruct (getRandomWord_cases r s) as [[-> _] | [(_ & _ & _ & ->) | (_ & _ & x & _ & ->)]];
    simpl; unfold Catalog.afterResetCheck; try destruct (_ <=? _)%nat; done.
Qed.

Lemma isReady_words s : WordService.isReady s = true → WordService.words s ≠ [].
Proof.
  unfold WordService.isReady. intros H%andb_true_iff. destruct H as [_ H].
  apply Nat.ltb_lt in H. intros E. rewrite E in H. simpl in H. lia.
Qed.

Lemma recordRequest_total userId s :
  Validator.isValidUserId userId = true →
  WordService.totalRequests (WordService.recordRequest userId s)
  = S (WordService.totalRequests s).
Proof. intros Hv. by rewrite recordRequest_valid. Qed.

Lemma recordRequest_isReady userId s :
  WordService.isReady (WordService.recordRequest userId s) = WordService.isReady s ∧
  WordService.words (WordService.recordRequest userId s) = WordService.words s.
Proof. unfold WordService.recordRequest. by destruct (negb _). Qed.

Ltac open_handler Hf Hv :=
  unfold replies_once;
  rewrite (withSender_valid _ _ _ _ Hf Hv); cbv beta.

Lemma handleStart_replies msg w st userId :
  from_id msg = Some userId → Validator.isValidUserId userId = true →
  replies_once msg st (handleStart msg w st).
Proof.
  intros Hf Hv. unfold handleStart. open_handler Hf Hv.
  eexists _, _. split_and!; [done | done | done |]. simpl. by apply recordRequest_total.
Qed.

Lemma handleHelp_replies msg w st userId :
  from_id msg = Some userId → Validator.isValidUserId userId = true →
  replies_once msg st (handleHelp msg w st).
Proof.
  intros Hf Hv. unfold handleHelp. open_handler Hf Hv.
  eexists _, _. split_and!; [done | done | done |]. simpl. by apply recordRequest_total.
Qed.

Lemma handleStats_replies msg w st userId :
  from_id msg = Some userId → Validator.isValidUserId userId = true →
  replies_once msg st (handleStats msg w st).
Proof.
  intros Hf Hv. unfold handleStats. open_handler Hf Hv.
  eexists _, _. split_and!; [done | done | done |]. simpl. by apply recordRequest_total.
Qed.

Lemma handleUnknownCommand_replies msg w st userId :
  from_id msg = Some userId → Validator.isValidUserId userId = true →
  replies_once msg st (handleUnknownCommand msg w st).
Proof.
  intros Hf Hv. unfold handleUnknownCommand. open_handler Hf Hv.
  eexists _, _. split_and!; [done | done | done |]. simpl. by apply recordRequest_total.
Qed.

Lemma handleWord_replies msg w st userId :
  from_id msg = Some userId → Validator.isValidUserId userId = true →
  replies_once msg st (handleWord msg w st).
Proof.
  intros Hf Hv. unfold handleWord. open_handler Hf Hv.
  pose proof (recordRequest_total userId (wordService st) Hv) as Ht.
  cbn [wordService set_wordService].
  destruct (WordService.isReady _); cbn [negb].
  2:{ eexists _, _. split_and!; [done | done | done | done]. }
  pose proof (getRandomWord_counters (random w)
                (WordService.recordRequest userId (wordService st))) as [Hc _].
  destruct (WordService.getRandomWord _ _) as [[selected|] ws]; cbn [snd] in Hc.
  2:{ eexists _, _. split_and!; [done | done | done |]. simpl. congruence. }
  cbn [userService set_wordService wordService].
  rewrite getUserStats_valid by done. cbn [set_userService].
  eexists _, _. split_and!; [done | done | done |]. simpl. congruence.
Qed.

Lemma handleWordOfTheDay_replies msg w st userId :
  from_id msg = Some userId → Validator.isValidUserId userId = true →
  replies_once msg st (handleWordOfTheDay msg w st).
Proof.
  intros Hf Hv. unfold handleWordOfTheDay. open_handler Hf Hv.
  pose proof (recordRequest_total userId (wordService st) Hv) as Ht.
  cbn [wordService set_wordService userService].
  destruct (WordService.isReady _) eqn:Hr; cbn [negb].
  2:{ eexists _, _. split_and!; [done | done | done | done]. }
  destruct (getWordOfTheDay_returns
              (WordService.words (WordService.recordRequest userId (wordService st)))
              (today w) (random w) (userService st) (isReady_words _ Hr))
    as (selected & Hret & _).
  destruct (UserService.getWordOfTheDay _ _ _ _) as [res us]. simpl in Hret. subst res.
  eexists _, _. split_and!; [done | done | done | done].
Qed.

Lemma handleHistory_replies msg w st userId :
  from_id msg = Some userId → Validator.isValidUserId userId = true →
  replies_once msg st (handleHistory msg w st).
Proof.
  intros Hf Hv. unfold handleHistory. open_handler Hf Hv.
  pose proof (recordRequest_total userId (wordService st) Hv) as Ht.
  destruct (UserService.getHistory _ _ _) as [h us].
  destruct (length h =? 0)%nat;
    eexists _, _; split_and!; [done | done | done | done | done | done | done | done].
Qed.

Lemma handleRandom_replies msg w st userId :
  from_id msg = Some userId → Validator.isValidUserId userId = true →
  replies_once msg st (handleRandom msg w st).
Proof.
  intros Hf Hv. unfold handleRandom. open_handler Hf Hv.
  pose proof (recordRequest_total userId (wordService st) Hv) as Ht.
  cbn [wordService set_wordService userService].
  destruct (WordService.isReady _) eqn:Hr; cbn [negb].
  2:{ eexists _, _. split_and!; [done | done | done | done]. }
  destruct (getRandomWord_in _ (random w) (isReady_words _ Hr)) as (x & _ & ->).
  eexists _, _. split_and!; [done | done | done | done].
Qed.

Lemma handleShare_replies msg w st userId :
  from_id msg = Some userId → Validator.isValidUserId userId = true →
  replies_once msg st (handleShare msg w st).
Proof.
  intros Hf Hv. unfold handleShare. open_handler Hf Hv.
  pose proof (recordRequest_total userId (wordService st) Hv) as Ht.
  cbn [wordService set_wordService userService].
  destruct (WordService.isReady _) eqn:Hr; cbn [negb].
  2:{ eexists _, _. split_and!; [done | done | done | done]. }
  destruct (getRandomWord_in _ (random w) (isReady_words _ Hr)) as (x & _ & ->).
  eexists _, _. split_and!; [done | done | done | done].
Qed.

Lemma handleDifficulty_replies msg w st userId t :
  from_id msg = Some userId → Validator.isValidUserId userId = true →
  text msg = Some t →
  replies_once msg st (handleDifficulty msg w st).
Proof.
  intros Hf Hv Htext. unfold handleDifficulty. open_handler Hf Hv.
  pose proof (recordRequest_total userId (wordService st) Hv) as Ht.
  rewrite Htext. cbn [userService set_wordService].
  destruct (if includes (toLowerCase t) "easy" then Some "easy"
            else if includes (toLowerCase t) "hard" then Some "hard"
            else if includes (toLowerCase t) "medium" then Some "medium"
            else None) as [d|].
  - destruct (UserService.setDifficulty userId d (userService st)) as [[] us];
      eexists _, _; split_and!; [done | done | done | done | done | done | done | done].
  - rewrite getUserStats_valid by done.
    eexists _, _. split_and!; [done | done | done | done].
Qed.

End HandlerReplies.

(** X23: for a message with a text from a sender whose id is accepted, every
    registered command ends normally, sends exactly one message, to the chat
    the message came from and never the generic error text, and records
    exactly one request. *)
Theorem registered_command_replies_once
    (command : string) (msg : CommandHandler.Message) (w : CommandHandler.world)
    (st : CommandHandler.state) (userId : JS.userId) (t : string) :
  command ∈ Bot.registered →
  CommandHandler.from_id msg = Some userId →
  Validator.isValidUserId userId = true →
  CommandHandler.text msg = Some t →
  replies_once msg st (CommandHandler.executeCommand command msg w st).
Proof.
  intros Hreg Hf Hv Ht. unfold Bot.registered in Hreg. rewrite !elem_of_cons in Hreg.
  unfold CommandHandler.executeCommand.
  destruct Hreg as [->|[->|[->|[->|[->|[->|[->|[->|[->|H%not_elem_of_nil]]]]]]]]];
    [ change (CommandHandler.commands Constants.START) with (Some CommandHandler.handleStart);
      by eapply handleStart_replies
    | change (CommandHandler.commands Constants.WORD) with (Some CommandHandler.handleWord);
      by eapply handleWord_replies
    | change (CommandHandler.commands Constants.STATS) with (Some CommandHandler.handleStats);
      by eapply handleStats_replies
    | change (CommandHandler.commands Constants.HELP) with (Some CommandHandler.handleHelp);
      by eapply handleHelp_replies
    | change (CommandHandler.commands Constants.WORD_OF_THE_DAY)
        with (Some CommandHandler.handleWordOfTheDay);
      by eapply handleWordOfTheDay_replies
    | change (CommandHandler.commands Constants.HISTORY)
        with (Some CommandHandler.handleHistory);
      by eapply handleHistory_replies
    | change (CommandHandler.commands Constants.RANDOM)
        with (Some CommandHandler.handleRandom);
      by eapply handleRandom_replies
    | change (CommandHandler.commands Constants.DIFFICULTY)
        with (Some CommandHandler.handleDifficulty);
      by eapply handleDifficulty_replies
    | change (CommandHandler.commands Constants.SHARE)
        with (Some CommandHandler.handleShare);
      by eapply handleShare_replies
    | done ].
Qed.

Lemma registered_command_replies_once_witness :
  "/word" ∈ Bot.registered ∧
  CommandHandler.from_id (message_from_42 "/word") = Some (JS.IdNum 42) ∧
  Validator.isValidUserId (JS.IdNum 42) = true ∧
  CommandHandler.text (message_from_42 "/word") = Some "/word" ∧
  replies_once (message_from_42 "/word") ready_state
    (CommandHandler.executeCommand "/word" (message_from_42 "/word") a_world ready_state).
Proof.
  assert ("/word" ∈ Bot.registered) as H1
    by (apply (bool_decide_unpack _); vm_compute; exact I).
  assert (CommandHandler.from_id (message_from_42 "/word") = Some (JS.IdNum 42)) as H2
    by reflexivity.
  assert (Validator.isValidUserId (JS.IdNum 42) = true) as H3 by reflexivity.
  assert (CommandHandler.text (message_from_42 "/word") = Some "/word") as H4
    by reflexivity.
  split_and!; [exact H1 | exact H2 | exact H3 | exact H4 |].
  exact (registered_command_replies_once "/word" (message_from_42 "/word") a_world
           ready_state (JS.IdNum 42) "/word" H1 H2 H3 H4).
Defined.

Section Difficulty.

Import CommandHandler.

Implicit Types (msg : Message) (w : world) (st : state) (us : UserService.t).

Lemma keeps_difficulty_refl us : keeps_difficulty us us.
Proof. by intros ? ?. Qed.

Lemma keeps_difficulty_trans us1 us2 us3 :
  keeps_difficulty us1 us2 → keeps_difficulty us2 us3 → keeps_difficulty us1 us3.
Proof. intros H1 H2 u d H. by apply H2, H1. Qed.

Lemma keeps_difficulty_getUserData userId us :
  keeps_difficulty us (UserService.getUserData userId us).2.
Proof.
  intros u d. unfold difficultyOf, UserService.getUserData.
  destruct (UserService.users us !! userId) eqn:Hu; [done|]. simpl.
  destruct (decide (u = userId)) as [->|Hne].
  - by rewrite Hu.
  - by rewrite lookup_insert_ne.
Qed.

Lemma keeps_difficulty_getUserStats userId us :
  keeps_difficulty us (UserService.getUserStats userId us).2.
Proof.
  unfold UserService.getUserStats.
  destruct (Validator.isValidUserId userId); simpl; [|apply keeps_difficulty_refl].
  pose proof (keeps_difficulty_getUserData userId us).
  by destruct (UserService.getUserData userId us).
Qed.

Lemma keeps_difficulty_getHistory userId limit us :
  keeps_difficulty us (UserService.getHistory userId limit us).2.
Proof.
  unfold UserService.getHistory.
  destruct (Validator.isValidUserId userId); simpl; [|apply keeps_difficulty_refl].
  pose proof (keeps_difficulty_getUserData userId us).
  by destruct (UserService.getUserData userId us).
Qed.

Lemma updateStreak_difficulty now u :
  UserService.difficulty (UserService.updateStreak now u) = UserService.difficulty u.
Proof.
  unfold UserService.updateStreak. destruct (UserService.lastUsed _); [|done].
  by repeat destruct (_ =? _).
Qed.

Lemma keeps_difficulty_addToHistory userId (recorded : option Word) tEntry tUsed tNow us :
  keeps_difficulty us (UserService.addToHistory userId recorded tEntry tUsed tNow us).
Proof.
  intros u d. unfold difficultyOf.
  destruct (decide (u = userId)) as [->|Hne].
  2:{ by rewrite addToHistory_other. }
  unfold UserService.addToHistory. destruct recorded; [|done].
  destruct (Validator.isValidUserId userId); [|done]. simpl.
  unfold UserService.getUserData.
  destruct (UserService.users us !! userId) as [x|] eqn:Hu; [|done]. simpl.
  rewrite lookup_insert_eq. simpl. by rewrite updateStreak_difficulty.
Qed.

Lemma keeps_difficulty_getWordOfTheDay words today r us :
  keeps_difficulty us (UserService.getWordOfTheDay words today r us).2.
Proof.
  intros u d. unfold difficultyOf, UserService.getWordOfTheDay.
  destruct (UserService.wordOfTheDay us);
    [destruct (decide _)|]; simpl; try done;
    by destruct (words !! _).
Qed.

Lemma keeps_withSender msg st body :
  (∀ userId st1, userService st1 = userService st →
     keeps_difficulty (userService st) (userService (body userId st1).1)) →
  keeps_difficulty (userService st) (userService (withSender msg st body).1).
Proof.
  intros Hb. unfold withSender.
  destruct (from_id msg) as [userId|]; [|apply keeps_difficulty_refl].
  destruct (Validator.isValidUserId userId); simpl; [|apply keeps_difficulty_refl].
  by apply Hb.
Qed.

(** The text of the difficulty command itself names no level. *)
Lemma difficulty_command_names_no_level :
  includes (toLowerCase Constants.DIFFICULTY) "easy" = false ∧
  includes (toLowerCase Constants.DIFFICULTY) "hard" = false ∧
  includes (toLowerCase Constants.DIFFICULTY) "medium" = false.
Proof. split_and!; reflexivity. Qed.

Local Ltac hsimpl :=
  cbn [negb fst snd userService wordService sent sendMessage set_userService
       set_wordService].

Local Tactic Notation "hsimpl" "in" "*" :=
  cbn [negb fst snd userService wordService sent sendMessage set_userService
       set_wordService] in *.

Lemma keeps_executeCommand command msg w st :
  text msg = Some command →
  keeps_difficulty (userService st) (userService (executeCommand command msg w st).1).
Proof.
  intros Ht. unfold executeCommand, commands.
  repeat match goal with
         | |- context [String.eqb command ?c] =>
             destruct (String.eqb_spec command c) as [->|?]
         end; try apply keeps_difficulty_refl.
  - unfold handleStart. apply keeps_withSender. intros u st1 H. hsimpl. rewrite H.
    apply keeps_difficulty_refl.
  - unfold handleWord. apply keeps_withSender. intros u st1 H.
    destruct (WordService.isReady _); hsimpl; [|rewrite H; apply keeps_difficulty_refl].
    destruct (WordService.getRandomWord _ _) as [[selected|] ws]; hsimpl;
      [|rewrite H; apply keeps_difficulty_refl].
    pose proof (keeps_difficulty_getUserStats u
                  (UserService.addToHistory u (Some selected)
                     (tEntry w) (tUsed w) (tNow w) (userService st1))) as Hk.
    destruct (UserService.getUserStats _ _) as [[view|] us];
      hsimpl in *;
      (eapply keeps_difficulty_trans; [|exact Hk]);
      rewrite H; apply keeps_difficulty_addToHistory.
  - unfold handleStats. apply keeps_withSender. intros u st1 H. hsimpl. rewrite H.
    apply keeps_difficulty_refl.
  - unfold handleHelp. apply keeps_withSender. intros u st1 H. hsimpl. rewrite H.
    apply keeps_difficulty_refl.
  - unfold handleWordOfTheDay. apply keeps_withSender. intros u st1 H.
    destruct (WordService.isReady _); hsimpl; [|rewrite H; apply keeps_difficulty_refl].
    pose proof (keeps_difficulty_getWordOfTheDay (WordService.words (wordService st1))
                  (today w) (random w) (userService st1)) as Hk.
    destruct (UserService.getWordOfTheDay _ _ _ _) as [[selected|e] us];
      hsimpl in *;
      rewrite <- H; [|done].
    eapply keeps_difficulty_trans; [exact Hk|]. apply keeps_difficulty_addToHistory.
  - unfold handleHistory. apply keeps_withSender. intros u st1 H.
    pose proof (keeps_difficulty_getHistory u 10 (userService st1)) as Hk.
    destruct (UserService.getHistory _ _ _) as [h us]. simpl in Hk.
    rewrite <- H. by destruct (length h =? 0)%nat.
  - unfold handleRandom. apply keeps_withSender. intros u st1 H.
    destruct (WordService.isReady _); hsimpl; [|rewrite H; apply keeps_difficulty_refl].
    unfold UserService.getRandomWord. rewrite <- H.
    destruct (_ !! _); hsimpl; apply keeps_difficulty_addToHistory.
  - unfold handleDifficulty. apply keeps_withSender. intros u st1 H.
    rewrite Ht.
    destruct difficulty_command_names_no_level as (-> & -> & ->).
    pose proof (keeps_difficulty_getUserStats u (userService st1)) as Hk.
    rewrite <- H.
    by destruct (UserService.getUserStats _ _) as [[view|] us].
  - unfold handleShare. apply keeps_withSender. intros u st1 H.
    destruct (WordService.isReady _); hsimpl; [|rewrite H; apply keeps_difficulty_refl].
    unfold UserService.getRandomWord. rewrite <- H.
    destruct (_ !! _); hsimpl; apply keeps_difficulty_refl.
Qed.

Lemma keeps_onTextCallbacks msg w st :
  keeps_difficulty (userService st)
    (userService (BotManager.onTextCallbacks msg w st)).
Proof.
  unfold BotManager.onTextCallbacks.
  destruct (text msg) as [t|] eqn:Ht; [|apply keeps_difficulty_refl].
  destruct (String.eqb t ""); [apply keeps_difficulty_refl|].
  assert (∀ c, c ∈ filter (λ c, Bot.commandRegExp_test c t = true) Bot.registered →
               c = t) as Hall.
  { intros c [Hc _]%list_elem_of_filter. by apply commandRegExp_test_exact in Hc. }
  revert st Hall.
  induction (filter (λ c, Bot.commandRegExp_test c t = true) Bot.registered)
    as [|c l IH]; intros st Hall; [apply keeps_difficulty_refl|].
  simpl. eapply keeps_difficulty_trans; [|apply IH].
  - unfold onTextCallback.
    assert (c = t) as -> by (apply Hall; by left).
    pose proof (keeps_executeCommand t msg w st Ht) as Hk.
    by destruct (executeCommand t msg w st) as [st' [e|]].
  - intros c' Hc'. apply Hall. by right.
Qed.

End Difficulty.

(** X24: no incoming message changes a stored difficulty.  The pattern of
    the difficulty command matches only the bare text [/difficulty], which
    names no level, so the handler never reaches [setDifficulty] through the
    message loop: after any message every profile has the difficulty it had
    before. *)
Theorem processUpdate_keeps_difficulty
    (msg : CommandHandler.Message) (w : CommandHandler.world)
    (m : BotManager.t) (st : CommandHandler.state) (userId : JS.userId) (d : string) :
  difficultyOf userId (CommandHandler.userService st) = Some d →
  difficultyOf userId
    (CommandHandler.userService (BotManager.processUpdate msg w m st).2) = Some d.
Proof.
  revert userId d. change (keeps_difficulty (CommandHandler.userService st)
    (CommandHandler.userService (BotManager.processUpdate msg w m st).2)).
  unfold BotManager.processUpdate.
  destruct (BotManager.onMessage msg w m st) as [m1 st1] eqn:Hon. simpl.
  eapply keeps_difficulty_trans; [|apply keeps_onTextCallbacks].
  unfold BotManager.onMessage, BotManager.handleMessage in Hon.
  assert (keeps_difficulty (CommandHandler.userService st)
            (CommandHandler.userService
               (CommandHandler.handleUnknownCommand msg w st).1)) as Hu.
  { unfold CommandHandler.handleUnknownCommand. apply keeps_withSender.
    intros u st' H. simpl. rewrite H. apply keeps_difficulty_refl. }
  destruct (CommandHandler.text msg) as [t|];
    [|injection Hon as _ <-; apply keeps_difficulty_refl].
  destruct (_ || _); [injection Hon as _ <-; apply keeps_difficulty_refl|].
  destruct (negb _); [|injection Hon as _ <-; apply keeps_difficulty_refl].
  destruct (CommandHandler.handleUnknownCommand msg w st) as [st' [e|]];
    injection Hon as _ <-; exact Hu.
Qed.

Lemma processUpdate_keeps_difficulty_witness :
  difficultyOf (JS.IdNum 42) (CommandHandler.userService state_with_profile) = Some "medium" ∧
  difficultyOf (JS.IdNum 42)
    (CommandHandler.userService
       (BotManager.processUpdate (message_from_42 "/difficulty")
          a_world (BotManager.mk false 0 0) state_with_profile).2) = Some "medium".
Proof.
  assert (difficultyOf (JS.IdNum 42) (CommandHandler.userService state_with_profile)
          = Some "medium") as H by reflexivity.
  split; [exact H|].
  exact (processUpdate_keeps_difficulty (message_from_42 "/difficulty") a_world
           (BotManager.mk false 0 0) state_with_profile (JS.IdNum 42) "medium" H).
Defined.

(** Called with a text that names a level, the handler does change the
    difficulty; the message loop never calls it with such a text. *)
Example handleDifficulty_direct_call :
  difficultyOf (JS.IdNum 42)
    (CommandHandler.userService
       (CommandHandler.handleDifficulty (message_from_42 "/difficulty hard")
          a_world state_with_profile).1) = Some "hard" ∧
  Bot.dispatch false (Some "/difficulty hard") = [].
Proof. split; vm_compute; reflexivity. Qed.

Section Replies.

Import CommandHandler.

Implicit Types (msg : Message) (w : world) (st : state).

Local Ltac hsimpl :=
  cbn [negb fst snd userService wordService sent sendMessage set_userService
       set_wordService].

Lemma handler_sends_quiet msg st st1 (e : option JS.error) :
  sent st1 = sent st → handler_sends msg st (st1, e).
Proof. intros H. unfold handler_sends. destruct e; simpl; [done | by left]. Qed.

Lemma handler_sends_one msg st st1 r :
  sent st1 = sent st → handler_sends msg st (sendMessage (chat_id msg) r st1, None).
Proof. intros H. right. exists r. simpl. by rewrite H. Qed.

Lemma handler_sends_withSender msg st body :
  (∀ userId st1, sent st1 = sent st → handler_sends msg st (body userId st1)) →
  handler_sends msg st (withSender msg st body).
Proof.
  intros Hb. unfold withSender.
  destruct (from_id msg) as [userId|]; [|by apply handler_sends_quiet].
  destruct (Validator.isValidUserId userId); hsimpl; [|by apply handler_sends_quiet].
  by apply Hb.
Qed.

Lemma handleUnknownCommand_sends msg w st :
  handler_sends msg st (handleUnknownCommand msg w st).
Proof.
  apply handler_sends_withSender. intros u st1 H. by apply handler_sends_one.
Qed.

Lemma executeCommand_sends command msg w st :
  handler_sends msg st (executeCommand command msg w st).
Proof.
  unfold executeCommand, commands.
  repeat match goal with
         | |- context [String.eqb command ?c] => destruct (String.eqb command c)
         end; try (by apply handler_sends_quiet);
    apply handler_sends_withSender; intros u st1 H.
  - by apply handler_sends_one.
  - destruct (WordService.isReady _); hsimpl; [|by apply handler_sends_one].
    destruct (WordService.getRandomWord _ _) as [[selected|] ws];
      [|by apply handler_sends_one].
    destruct (UserService.getUserStats _ _) as [[view|] us];
      [by apply handler_sends_one | by apply handler_sends_quiet].
  - by apply handler_sends_one.
  - by apply handler_sends_one.
  - destruct (WordService.isReady _); hsimpl; [|by apply handler_sends_one].
    destruct (UserService.getWordOfTheDay _ _ _ _) as [[selected|e] us];
      [by apply handler_sends_one | by apply handler_sends_quiet].
  - destruct (UserService.getHistory _ _ _) as [h us].
    destruct (length h =? 0)%nat; by apply handler_sends_one.
  - destruct (WordService.isReady _); hsimpl; [|by apply handler_sends_one].
    destruct (UserService.getRandomWord _ _) as [[selected|]|e];
      [by apply handler_sends_one | by apply handler_sends_quiet
      | by apply handler_sends_quiet].
  - destruct (text msg) as [t|]; [|by apply handler_sends_quiet]. cbv zeta.
    destruct (includes _ "easy");
      [|destruct (includes _ "hard"); [|destruct (includes _ "medium")]].
    1-3: destruct (UserService.setDifficulty _ _ _) as [[|] us];
           by apply handler_sends_one.
    destruct (UserService.getUserStats _ _) as [[view|] us];
      [by apply handler_sends_one | by apply handler_sends_quiet].
  - destruct (WordService.isReady _); hsimpl; [|by apply handler_sends_one].
    destruct (UserService.getRandomWord _ _) as [[selected|]|e];
      [by apply handler_sends_one | by apply handler_sends_quiet
      | by apply handler_sends_quiet].
Qed.

(** A command callback sends at most one message: the handler's own, or
    the error text after a handler that threw. *)
Lemma onTextCallback_sends command msg w st :
  quiet_or_one msg st (onTextCallback command msg w st).
Proof.
  unfold onTextCallback.
  pose proof (executeCommand_sends command msg w st) as H.
  destruct (executeCommand command msg w st) as [st' [e|]]; unfold handler_sends in H;
    simpl in H; [|done].
  right. exists ErrorMessage. simpl. by rewrite H.
Qed.

(** The patterns that match a text: the one of the command the text is, and
    none for any other text. *)
Lemma matching_patterns (t : string) :
  filter (λ c, Bot.commandRegExp_test c t = true) Bot.registered
  = if bool_decide (t ∈ Bot.registered) then [t] else [].
Proof.
  case_bool_decide as Hin.
  - unfold Bot.registered in Hin.
    repeat (apply elem_of_cons in Hin as [->|Hin]); try (vm_compute; reflexivity).
    by apply not_elem_of_nil in Hin.
  - destruct (filter _ _) as [|c l] eqn:Hf; [done|]. exfalso.
    assert (c ∈ filter (λ c, Bot.commandRegExp_test c t = true) Bot.registered) as Hc
      by (rewrite Hf; by left).
    apply list_elem_of_filter in Hc as [Hc Hreg].
    apply commandRegExp_test_exact in Hc. by subst.
Qed.

(** A registered command starts with itself, so the catch-all of
    [handleMessage] never runs beside a command callback. *)
Lemma registered_isCommand (t : string) :
  t ∈ Bot.registered →
  existsb (λ cmd, Bot.startsWith t cmd) Constants.COMMANDS = true.
Proof.
  intros Hin. unfold Bot.registered in Hin.
  repeat (apply elem_of_cons in Hin as [->|Hin]); try (vm_compute; reflexivity).
  by apply not_elem_of_nil in Hin.
Qed.

End Replies.

(** X25: one incoming message is answered with at most one message, sent to
    the chat it came from, whatever its text and sender: a text is matched
    by at most one registered pattern, the catch-all of [handleMessage] runs
    only when no pattern matches, and a handler that throws has sent nothing
    before the error text goes out.  A message without text, or with the
    empty text, is never answered and not counted; otherwise
    [totalMessages] grows by one unless the manager is shutting down. *)
Theorem processUpdate_at_most_one_reply
    (msg : CommandHandler.Message) (w : CommandHandler.world)
    (m : BotManager.t) (st : CommandHandler.state) :
  let m' := (BotManager.processUpdate msg w m st).1 in
  let st' := (BotManager.processUpdate msg w m st).2 in
  quiet_or_one msg st st' ∧
  BotManager.isShuttingDown m' = BotManager.isShuttingDown m ∧
  match CommandHandler.text msg with
  | Some t =>
      if String.eqb t ""
      then CommandHandler.sent st' = CommandHandler.sent st ∧ m' = m
      else BotManager.totalMessages m'
           = if BotManager.isShuttingDown m then BotManager.totalMessages m
             else S (BotManager.totalMessages m)
  | None => CommandHandler.sent st' = CommandHandler.sent st ∧ m' = m
  end.
Proof.
  cbv zeta. unfold BotManager.processUpdate, BotManager.onMessage,
    BotManager.handleMessage, BotManager.onTextCallbacks.
  destruct (CommandHandler.text msg) as [t|]; [|by split_and!; [left|..]].
  destruct (String.eqb t ""); cbn [orb]; [by split_and!; [left|..]|].
  rewrite matching_patterns.
  case_bool_decide as Hin.
  - rewrite (registered_isCommand t Hin). cbn [negb foldl].
    destruct (BotManager.isShuttingDown m) eqn:Hs; cbn [fst snd BotManager.isShuttingDown
      BotManager.totalMessages]; (split_and!; [apply onTextCallback_sends | done..]).
  - cbn [foldl].
    destruct (BotManager.isShuttingDown m) eqn:Hs;
      cbn [fst snd BotManager.isShuttingDown BotManager.totalMessages];
      [by split_and!; [left|..]|].
    destruct (negb _);
      [|cbn [fst snd BotManager.isShuttingDown BotManager.totalMessages];
        by split_and!; [left|..]].
    pose proof (handleUnknownCommand_sends msg w st) as H.
    destruct (CommandHandler.handleUnknownCommand msg w st) as [st' [e|]];
      unfold handler_sends in H; simpl in H;
      cbn [fst snd BotManager.isShuttingDown BotManager.totalMessages];
      split_and!; try done. by left.
Qed.

Section HandlerEffects.

Import CommandHandler.

Implicit Types (msg : Message) (w : world) (st : state) (userId : JS.userId).

Local Ltac hsimpl :=
  cbn [negb fst snd userService wordService sent sendMessage set_userService
       set_wordService].

(** What [getUserData] reads and leaves for the user it is called for. *)
Lemma getUserData_reads userId s :
  UserService.history (UserService.getUserData userId s).1
    = UserService.historyOf userId s ∧
  UserService.streak (UserService.stats (UserService.getUserData userId s).1)
    = UserService.streakOf userId s ∧
  UserService.historyOf userId (UserService.getUserData userId s).2
    = UserService.historyOf userId s.
Proof.
  unfold UserService.getUserData, UserService.historyOf, UserService.streakOf.
  destruct (UserService.users s !! userId) as [u|] eqn:Hu; simpl.
  - by rewrite Hu.
  - by rewrite lookup_insert_eq.
Qed.

Lemma take_10_length {A} (h : list A) :
  (length (take 10 h) =? 0)%nat = (length h =? 0)%nat.
Proof. by destruct h. Qed.

(** [handleHistory] for an accepted sender, in one equation. *)
Lemma handleHistory_valid msg w st userId :
  from_id msg = Some userId → Validator.isValidUserId userId = true →
  let h := UserService.historyOf userId (userService st) in
  handleHistory msg w st
  = (sendMessage (chat_id msg)
       (if (length h =? 0)%nat then NO_HISTORY
        else HistoryMessage (take 10 h) (length (take 10 h)))
       (set_userService (UserService.getUserData userId (userService st)).2
          (set_wordService (WordService.recordRequest userId (wordService st)) st)),
     None).
Proof.
  intros Hf Hv. cbv zeta. unfold handleHistory.
  rewrite (withSender_valid _ _ _ _ Hf Hv). cbv beta. hsimpl.
  pose proof (getHistory_slice userId 10 (userService st) Hv) as Hh.
  unfold UserService.getHistory in *. rewrite Hv in *. cbn [negb] in *.
  destruct (UserService.getUserData userId (userService st)) as [u us].
  cbn [fst snd] in *. rewrite Hh, slice0_nonneg by lia.
  change (Z.to_nat 10) with 10%nat. rewrite take_10_length.
  by destruct (length _ =? 0)%nat.
Qed.

(** [handleWord] for an accepted sender on a ready service with pairwise
    distinct texts: the selection of [getRandomWord] is sent and recorded. *)
Lemma handleWord_result msg w st userId :
  from_id msg = Some userId → Validator.isValidUserId userId = true →
  WordService.isReady (wordService st) = true →
  NoDup (Catalog.texts (wordService st)) →
  ∃ selected st',
    handleWord msg w st = (st', None) ∧
    WordService.getRandomWord (random w)
      (WordService.recordRequest userId (wordService st))
    = (Some selected, wordService st') ∧
    WordService.words (wordService st') = WordService.words (wordService st) ∧
    sent st'
    = sent st ++
      [(chat_id msg,
        WordMessage selected
          (size (WordService.usedWords (wordService st')))
          (length (WordService.words (wordService st)))
          (WordService.cycleProgress
             (size (WordService.usedWords (wordService st')))
             (length (WordService.words (wordService st))))
          (UserService.streakOf userId
             (UserService.addToHistory userId (Some selected)
                (tEntry w) (tUsed w) (tNow w) (userService st))))] ∧
    UserService.historyOf userId (userService st')
    = take 50 (UserService.entryOf (selected, (tEntry w, tUsed w, tNow w))
               :: UserService.historyOf userId (userService st)).
Proof.
  intros Hf Hv Hr Hnd. unfold handleWord.
  rewrite (withSender_valid _ _ _ _ Hf Hv). cbv beta.
  cbn [wordService set_wordService userService].
  set (s1 := WordService.recordRequest userId (wordService st)).
  assert (WordService.isReady s1 = true) as Hr1
    by (unfold s1; by rewrite (proj1 (recordRequest_isReady _ _))).
  assert (WordService.words s1 = WordService.words (wordService st)) as Hw1
    by apply recordRequest_isReady.
  assert (NoDup (Catalog.texts s1)) as Hnd1 by (unfold Catalog.texts; by rewrite Hw1).
  rewrite Hr1. cbn [negb].
  assert (WordService.words s1 ≠ []) as Hne by (by apply isReady_words).
  assert (WordService.isInitialized s1 = true) as Hinit
    by (unfold WordService.isReady in Hr1; by apply andb_true_iff in Hr1 as [? _]).
  pose proof (proj1 (getRandomWord_None (random w) s1 Hnd1)) as Hnone.
  destruct (WordService.getRandomWord (random w) s1) as [[selected|] ws] eqn:Hg.
  2:{ destruct (Hnone eq_refl) as [E|E]; [congruence | done]. }
  clear Hnone.
  assert (WordService.words ws = WordService.words s1) as Hwords.
  { destruct (getRandomWord_cases (random w) s1)
      as [[Heq _] | [(_ & _ & _ & Heq) | (_ & _ & x & _ & Heq)]];
      rewrite Heq in Hg; [done | done |].
    injection Hg as _ <-. exact (afterResetCheck_words s1). }
  cbn [wordService set_wordService userService].
  rewrite getUserStats_valid by done.
  cbn [set_userService wordService userService sent].
  set (us1 := UserService.addToHistory userId (Some selected) _ _ _ _).
  destruct (getUserData_reads userId us1) as (_ & Hstreak & Hkeep).
  eexists selected, _. split; [reflexivity|].
  cbn [sent sendMessage wordService userService].
  split_and!.
  - done.
  - hsimpl. by rewrite Hwords.
  - hsimpl. do 3 f_equal. unfold WordService.getStats.
    cbn [WordService.stats_usedWords WordService.stats_totalWords
         WordService.stats_cycleProgress].
    by rewrite Hstreak, Hwords, Hw1.
  - hsimpl. rewrite Hkeep. by apply addToHistory_history.
Qed.

End HandlerEffects.

(** X26: [/history] from an accepted sender is answered with the fixed
    no-history text exactly when nothing is stored for the sender, and
    otherwise with the ten newest stored entries, newest first.  The figure
    shown as the total of discovered words is the number of entries shown,
    so it never exceeds ten however long the stored history is.  The stored
    history is left as it was. *)
Theorem handleHistory_reply
    (msg : CommandHandler.Message) (w : CommandHandler.world)
    (st : CommandHandler.state) (userId : JS.userId) :
  CommandHandler.from_id msg = Some userId →
  Validator.isValidUserId userId = true →
  let h := UserService.historyOf userId (CommandHandler.userService st) in
  ∃ st',
    CommandHandler.handleHistory msg w st = (st', None) ∧
    CommandHandler.sent st'
    = CommandHandler.sent st ++
      [(CommandHandler.chat_id msg,
        match h with
        | [] => CommandHandler.NO_HISTORY
        | _ :: _ => CommandHandler.HistoryMessage (take 10 h) (Nat.min 10 (length h))
        end)] ∧
    UserService.historyOf userId (CommandHandler.userService st') = h.
Proof.
  intros Hf Hv. cbv zeta. rewrite (handleHistory_valid msg w st userId Hf Hv).
  eexists. split; [reflexivity|]. split.
  - cbn [CommandHandler.sent CommandHandler.sendMessage CommandHandler.set_userService
         CommandHandler.set_wordService].
    do 3 f_equal.
    destruct (UserService.historyOf userId (CommandHandler.userService st)) as [|e h];
      [done|].
    cbn [length Nat.eqb]. by rewrite length_take.
  - cbn [CommandHandler.userService CommandHandler.sendMessage
         CommandHandler.set_userService].
    apply getUserData_reads.
Qed.

Lemma handleHistory_reply_witness :
  ∃ st',
    CommandHandler.handleHistory (message_from_42 "/history") a_world state_with_profile
    = (st', None) ∧
    CommandHandler.sent st'
    = CommandHandler.sent state_with_profile ++
      [(7, match UserService.historyOf (JS.IdNum 42)
                   (CommandHandler.userService state_with_profile) with
           | [] => CommandHandler.NO_HISTORY
           | _ :: _ =>
               CommandHandler.HistoryMessage
                 (take 10 (UserService.historyOf (JS.IdNum 42)
                             (CommandHandler.userService state_with_profile)))
                 (Nat.min 10 (length (UserService.historyOf (JS.IdNum 42)
                                        (CommandHandler.userService state_with_profile))))
           end)] ∧
    UserService.historyOf (JS.IdNum 42) (CommandHandler.userService st')
    = UserService.historyOf (JS.IdNum 42) (CommandHandler.userService state_with_profile).
Proof.
  exact (handleHistory_reply (message_from_42 "/history") a_world state_with_profile
           (JS.IdNum 42) eq_refl eq_refl).
Defined.

(** X27: [/word] from an accepted sender on a ready service whose word
    texts are pairwise distinct always delivers a word of the sequence.  The
    reply carries the counters of the service after the selection and the
    streak stored before the call; the word is marked as used and its entry
    is put at the front of the sender's history, cut to 50 entries, so that
    a [/history] asked next lists that word first. *)
Theorem handleWord_then_history
    (msg : CommandHandler.Message) (w w' : CommandHandler.world)
    (st : CommandHandler.state) (userId : JS.userId) :
  CommandHandler.from_id msg = Some userId →
  Validator.isValidUserId userId = true →
  WordService.isReady (CommandHandler.wordService st) = true →
  NoDup (Catalog.texts (CommandHandler.wordService st)) →
  0 ≤ CommandHandler.tNow w - CommandHandler.tUsed w < UserService.day_ms →
  ∃ selected st',
    let entry :=
      UserService.entryOf
        (selected, (CommandHandler.tEntry w, CommandHandler.tUsed w,
                    CommandHandler.tNow w)) in
    let ws' := CommandHandler.wordService st' in
    CommandHandler.handleWord msg w st = (st', None) ∧
    selected ∈ WordService.words (CommandHandler.wordService st) ∧
    word selected ∈ WordService.usedWords ws' ∧
    CommandHandler.sent st'
    = CommandHandler.sent st ++
      [(CommandHandler.chat_id msg,
        CommandHandler.WordMessage selected
          (size (WordService.usedWords ws'))
          (length (WordService.words (CommandHandler.wordService st)))
          (WordService.cycleProgress
             (size (WordService.usedWords ws'))
             (length (WordService.words (CommandHandler.wordService st))))
          (UserService.streakOf userId (CommandHandler.userService st)))] ∧
    UserService.historyOf userId (CommandHandler.userService st')
    = take 50 (entry :: UserService.historyOf userId (CommandHandler.userService st)) ∧
    ∃ older total,
      CommandHandler.sent (CommandHandler.handleHistory msg w' st').1
      = CommandHandler.sent st' ++
        [(CommandHandler.chat_id msg,
          CommandHandler.HistoryMessage (entry :: older) total)].
Proof.
  intros Hf Hv Hr Hnd Hclock. cbv zeta.
  destruct (handleWord_result msg w st userId Hf Hv Hr Hnd)
    as (selected & st' & Hcall & Hg & Hwords & Hsent & Hhist).
  exists selected, st'.
  pose proof (getRandomWord_Some _ _ _ _ Hg) as (Hin & Hbelow & Hcovered).
  rewrite (proj2 (recordRequest_isReady _ _)) in Hin.
  split_and!; [exact Hcall | exact Hin | | | exact Hhist |].
  - destruct (decide (size (WordService.usedWords
                              (WordService.recordRequest userId
                                 (CommandHandler.wordService st)))
                      < length (WordService.words
                                  (WordService.recordRequest userId
                                     (CommandHandler.wordService st))))%nat)
      as [Hlt|Hge].
    + destruct (Hbelow Hlt) as [_ ->]. set_solver.
    + rewrite Hcovered by lia. set_solver.
  - rewrite Hsent. do 4 f_equal. by apply addToHistory_streak.
  - rewrite (handleHistory_valid msg w' st' userId Hf Hv). cbv zeta.
    rewrite Hhist. cbn [length Nat.eqb take].
    eexists _, _. reflexivity.
Qed.

Lemma handleWord_then_history_witness :
  ∃ selected st',
    CommandHandler.handleWord (message_from_42 "/word") a_world ready_state
    = (st', None) ∧
    selected ∈ WordService.words fallback_service ∧
    ∃ older total,
      CommandHandler.sent
        (CommandHandler.handleHistory (message_from_42 "/word") a_world st').1
      = CommandHandler.sent st' ++
        [(7, CommandHandler.HistoryMessage
               (UserService.entryOf (selected, (an_instant, an_instant, an_instant))
                :: older) total)].
Proof.
  assert (NoDup (Catalog.texts (CommandHandler.wordService ready_state))) as Hnd
    by (apply (bool_decide_unpack _); vm_compute; exact I).
  assert (0 ≤ CommandHandler.tNow a_world - CommandHandler.tUsed a_world
          < UserService.day_ms) as Hclock by (vm_compute; split; [discriminate | done]).
  destruct (handleWord_then_history (message_from_42 "/word") a_world a_world
              ready_state (JS.IdNum 42) eq_refl eq_refl eq_refl Hnd Hclock)
    as (selected & st' & Hcall & Hin & _ & _ & _ & Hnext).
  exists selected, st'. split_and!; [exact Hcall | exact Hin | exact Hnext].
Defined.

(** X28: [/share] and [/random] draw their word from the whole sequence and
    never touch the set of used words, so neither advances the cycle of
    [/word].  [/share] leaves the user store exactly as it was, for every
    message; [/random] from an accepted sender on a ready service puts the
    entry of the word it sends at the front of the sender's history, and
    [/share] given the same random draw sends the same word without
    recording it. *)
Theorem handleShare_records_nothing
    (msg : CommandHandler.Message) (w : CommandHandler.world)
    (st : CommandHandler.state) :
  let shared := (CommandHandler.handleShare msg w st).1 in
  let drawn := (CommandHandler.handleRandom msg w st).1 in
  CommandHandler.userService shared = CommandHandler.userService st ∧
  WordService.usedWords (CommandHandler.wordService shared)
    = WordService.usedWords (CommandHandler.wordService st) ∧
  WordService.usedWords (CommandHandler.wordService drawn)
    = WordService.usedWords (CommandHandler.wordService st) ∧
  ∀ userId,
    CommandHandler.from_id msg = Some userId →
    Validator.isValidUserId userId = true →
    WordService.isReady (CommandHandler.wordService st) = true →
    ∃ selected,
      selected ∈ WordService.words (CommandHandler.wordService st) ∧
      CommandHandler.sent drawn
      = CommandHandler.sent st
        ++ [(CommandHandler.chat_id msg, CommandHandler.RandomMessage selected)] ∧
      CommandHandler.sent shared
      = CommandHandler.sent st
        ++ [(CommandHandler.chat_id msg, CommandHandler.ShareMessage selected)] ∧
      UserService.historyOf userId (CommandHandler.userService drawn)
      = take 50
          (UserService.entryOf
             (selected, (CommandHandler.tEntry w, CommandHandler.tUsed w,
                         CommandHandler.tNow w))
           :: UserService.historyOf userId (CommandHandler.userService st)).
Proof.
  cbv zeta. unfold CommandHandler.handleShare, CommandHandler.handleRandom,
    CommandHandler.withSender.
  destruct (CommandHandler.from_id msg) as [u|]; [|by split_and!].
  destruct (Validator.isValidUserId u) eqn:Hv; cbn [negb];
    [|split_and!; try done; intros ? [= <-] ?; congruence].
  cbn [CommandHandler.wordService CommandHandler.set_wordService
       CommandHandler.userService].
  rewrite (recordRequest_valid _ _ Hv).
  change (WordService.isReady (WordService.mk _ _ _ _ _ _))
    with (WordService.isReady (CommandHandler.wordService st)).
  cbn [WordService.words].
  destruct (WordService.isReady (CommandHandler.wordService st)) eqn:Hr; cbn [negb];
    [|by split_and!].
  destruct (getRandomWord_in (WordService.words (CommandHandler.wordService st))
              (CommandHandler.random w) (isReady_words _ Hr)) as (x & Hx & ->).
  cbn [fst CommandHandler.userService CommandHandler.wordService CommandHandler.sent
       CommandHandler.sendMessage CommandHandler.set_userService
       CommandHandler.set_wordService WordService.usedWords].
  split_and!; [done | done | done |].
  intros userId [= <-] _ _. exists x. split_and!; [done | done | done |].
  by apply addToHistory_history.
Qed.

(** On the three fallback words, with the draw 2/3: both commands send the
    third word; only [/random] stores it. *)
Example handleShare_and_handleRandom :
  let shared := (CommandHandler.handleShare (message_from_42 "/share") a_world ready_state).1 in
  let drawn := (CommandHandler.handleRandom (message_from_42 "/random") a_world ready_state).1 in
  (∃ selected,
     CommandHandler.sent shared = [(7, CommandHandler.ShareMessage selected)] ∧
     CommandHandler.sent drawn = [(7, CommandHandler.RandomMessage selected)] ∧
     word selected = "Ineffable") ∧
  UserService.historyOf (JS.IdNum 42) (CommandHandler.userService shared) = [] ∧
  length (UserService.historyOf (JS.IdNum 42) (CommandHandler.userService drawn)) = 1%nat.
Proof. cbv zeta. split_and!; [eexists; split_and! | |]; vm_compute; reflexivity. Qed.

(** X29: the closing line of the [/stats] text tells the truth about the
    next [/word].  For an accepted sender on a ready service that satisfies
    the invariant and has pairwise distinct texts, the statistics sent count
    the [/stats] request itself, and a [/word] asked next reports one used
    word when the line announced a new cycle, and one more than the
    statistics showed otherwise. *)
Theorem handleStats_closing_line
    (msg : CommandHandler.Message) (w w' : CommandHandler.world)
    (st : CommandHandler.state) (userId : JS.userId) :
  CommandHandler.from_id msg = Some userId →
  Validator.isValidUserId userId = true →
  WordService.isReady (CommandHandler.wordService st) = true →
  NoDup (Catalog.texts (CommandHandler.wordService st)) →
  Catalog.invariant (CommandHandler.wordService st) →
  ∃ stats st1 selected used total progress streak,
    CommandHandler.handleStats msg w st = (st1, None) ∧
    CommandHandler.sent st1
    = CommandHandler.sent st
      ++ [(CommandHandler.chat_id msg, CommandHandler.StatsMessage stats)] ∧
    WordService.stats_totalRequests stats
    = S (WordService.totalRequests (CommandHandler.wordService st)) ∧
    WordService.stats_usedWords stats
    = size (WordService.usedWords (CommandHandler.wordService st)) ∧
    CommandHandler.sent (CommandHandler.handleWord msg w' st1).1
    = CommandHandler.sent st1
      ++ [(CommandHandler.chat_id msg,
           CommandHandler.WordMessage selected used total progress streak)] ∧
    used = match CommandHandler.statsClosingLine stats with
           | CommandHandler.NEXT_WORD_STARTS_NEW_CYCLE => 1%nat
           | CommandHandler.KEEP_EXPLORING => S (WordService.stats_usedWords stats)
           end.
Proof.
  intros Hf Hv Hr Hnd Hinv.
  unfold CommandHandler.handleStats.
  rewrite (withSender_valid _ _ _ _ Hf Hv). cbv beta.
  cbn [CommandHandler.wordService CommandHandler.set_wordService].
  rewrite (recordRequest_valid _ _ Hv).
  set (s1 := WordService.mk _ _ _ _ _ _).
  set (st1 := CommandHandler.sendMessage _ _ _).
  assert (CommandHandler.wordService st1 = s1) as Hws1 by done.
  destruct (handleWord_result msg w' st1 userId Hf Hv)
    as (selected & st2 & Hcall & Hg & _ & Hsent & _).
  { by rewrite Hws1. }
  { by rewrite Hws1. }
  rewrite Hws1, (recordRequest_valid _ _ Hv) in Hg.
  pose proof (getRandomWord_Some _ _ _ _ Hg) as (_ & Hbelow & Hcovered).
  cbn [s1 WordService.words WordService.usedWords] in Hbelow, Hcovered.
  assert (size (WordService.usedWords (CommandHandler.wordService st))
          ≤ length (WordService.words (CommandHandler.wordService st)))%nat as Hle.
  { pose proof (subseteq_size _ _ Hinv) as Hle.
    pose proof (size_list_to_set_le (Catalog.texts (CommandHandler.wordService st))) as Hle'.
    unfold Catalog.texts in *. rewrite length_fmap in Hle'. lia. }
  eexists (WordService.getStats s1), st1, selected, _, _, _, _.
  split_and!; [reflexivity | reflexivity | reflexivity | reflexivity
              | rewrite Hcall; exact Hsent |].
  unfold CommandHandler.statsClosingLine, WordService.getStats.
  cbn [WordService.stats_remainingWords WordService.stats_usedWords s1
       WordService.words WordService.usedWords].
  destruct (Z.eqb_spec (Z.of_nat (length (WordService.words (CommandHandler.wordService st)))
                        - Z.of_nat (size (WordService.usedWords
                                            (CommandHandler.wordService st)))) 0)
    as [Hzero|Hpos].
  - rewrite Hcovered by lia. apply size_singleton.
  - destruct Hbelow as [Hfresh ->]; [lia|].
    rewrite size_union by set_solver. by rewrite size_singleton.
Qed.

Lemma handleStats_closing_line_witness :
  ∃ stats st1 selected used total progress streak,
    CommandHandler.handleStats (message_from_42 "/stats") a_world ready_state
    = (st1, None) ∧
    CommandHandler.sent st1 = [(7, CommandHandler.StatsMessage stats)] ∧
    CommandHandler.sent
      (CommandHandler.handleWord (message_from_42 "/stats") a_world st1).1
    = CommandHandler.sent st1
      ++ [(7, CommandHandler.WordMessage selected used total progress streak)] ∧
    used = match CommandHandler.statsClosingLine stats with
           | CommandHandler.NEXT_WORD_STARTS_NEW_CYCLE => 1%nat
           | CommandHandler.KEEP_EXPLORING => S (WordService.stats_usedWords stats)
           end.
Proof.
  assert (NoDup (Catalog.texts (CommandHandler.wordService ready_state))) as Hnd
    by (apply (bool_decide_unpack _); vm_compute; exact I).
  assert (Catalog.invariant (CommandHandler.wordService ready_state)) as Hinv
    by (apply (bool_decide_unpack _); vm_compute; exact I).
  destruct (handleStats_closing_line (message_from_42 "/stats") a_world a_world
              ready_state (JS.IdNum 42) eq_refl eq_refl eq_refl Hnd Hinv)
    as (stats & st1 & selected & used & total & progress & streak
        & H1 & H2 & _ & _ & H3 & H4).
  exists stats, st1, selected, used, total, progress, streak.
  split_and!; [exact H1 | exact H2 | exact H3 | exact H4].
Defined.

(** X30: [stop()] sets the shutdown flag once and for all and changes
    nothing else: both counters, of messages and of errors, are kept.  The
    flag guards [handleMessage] only.  A message that arrives after [stop()] is
    not counted and never gets the unknown-command reply, but the callback
    of a registered command still runs: the message is handled exactly as
    its command callback handles it when its text is a registered command,
    and not at all otherwise. *)
Theorem stop_guards_handleMessage_only
    (msg : CommandHandler.Message) (w : CommandHandler.world)
    (m : BotManager.t) (st : CommandHandler.state) :
  let stopped := BotManager.stop m in
  BotManager.stop stopped = stopped ∧
  stopped = BotManager.mk true (BotManager.totalMessages m) (BotManager.errors m) ∧
  BotManager.isShuttingDown stopped = true ∧
  BotManager.totalMessages stopped = BotManager.totalMessages m ∧
  BotManager.errors stopped = BotManager.errors m ∧
  (BotManager.processUpdate msg w stopped st).1 = stopped ∧
  match CommandHandler.text msg with
  | Some t =>
      (BotManager.processUpdate msg w stopped st).2
      = if bool_decide (t ∈ Bot.registered)
        then CommandHandler.onTextCallback t msg w st
        else st
  | None => (BotManager.processUpdate msg w stopped st).2 = st
  end.
Proof.
  cbv zeta.
  assert (BotManager.isShuttingDown (BotManager.stop m) = true) as Hflag
    by (unfold BotManager.stop; by destruct (BotManager.isShuttingDown m) eqn:E).
  split_and!.
  - unfold BotManager.stop at 1. by rewrite Hflag.
  - unfold BotManager.stop. destruct m as [[] messages errs]; reflexivity.
  - exact Hflag.
  - unfold BotManager.stop. by destruct (BotManager.isShuttingDown m).
  - unfold BotManager.stop. by destruct (BotManager.isShuttingDown m).
  - unfold BotManager.processUpdate, BotManager.onMessage, BotManager.handleMessage.
    rewrite Hflag. destruct (CommandHandler.text msg) as [t|]; [|done].
    by rewrite orb_true_r.
  - unfold BotManager.processUpdate, BotManager.onMessage, BotManager.handleMessage,
      BotManager.onTextCallbacks.
    rewrite Hflag. destruct (CommandHandler.text msg) as [t|]; [|done].
    rewrite orb_true_r. cbn [snd].
    destruct (String.eqb_spec t "") as [->|Hne].
    + by rewrite bool_decide_eq_false_2
        by (apply (bool_decide_unpack _); vm_compute; exact I).
    + rewrite matching_patterns. by case_bool_decide.
Qed.

(** A [/word] that arrives after [stop()] is still answered, while the same
    message with another text is ignored. *)
Example word_after_stop :
  let stopped := BotManager.stop (BotManager.mk false 0 0) in
  (∃ selected used total progress streak,
     CommandHandler.sent
       (BotManager.processUpdate (message_from_42 "/word") a_world stopped ready_state).2
     = [(7, CommandHandler.WordMessage selected used total progress streak)]) ∧
  CommandHandler.sent
    (BotManager.processUpdate (message_from_42 "hello") a_world stopped ready_state).2
  = [] ∧
  CommandHandler.sent
    (BotManager.processUpdate (message_from_42 "hello") a_world
       (BotManager.mk false 0 0) ready_state).2
  = [(7, CommandHandler.UNKNOWN_COMMAND)].
Proof.
  cbv zeta. split_and!; [do 5 eexists | |]; vm_compute; reflexivity.
Qed.
